(** * Ship playback core: time registry, trajectory store, snapshot builder

    A shallow embedding of [src/services/TimeSyncController.js] (the classes
    [TimeSyncController] and [MultiShipManager]) and of the snapshot builder
    [updateAllShipsPositions] of the application component.

    Modelling conventions.
    - A JavaScript number that is finite is a real number ([R]), the value
      of the double.  The result of an addition, subtraction, multiplication
      or division is rounded to a double by the host: [fl], a field of the
      class [Host]; what the statements use of it (round to nearest of
      IEEE 754 binary64) is the class [IEEE754].  [%] is exact on doubles.
      The bearing of [calculateDirection], with the host's [Math.sin],
      [Math.cos] and [Math.atan2], and the centre and spans of a bounds box
      are taken as their mathematical values.  Where the code can produce
      [NaN] the type [num] adds it.  Infinite inputs are outside the model
      (the records come from JSON, which has no infinities), and so are
      results beyond the largest double.
    - A [Date] is its time value in milliseconds ([Z]) or [InvalidDate]
      (time value [NaN]); relational operators on dates compare the time
      values, and every comparison with [NaN] is false.
    - The difference of two time values is a whole number of milliseconds,
      which the subtraction rounds to a double like every other result.
    - [null] and [undefined] are [None]; a field that is absent is [None].
      A number field that holds [NaN] behaves like an absent one under [||],
      the only operator the code applies to it; it is [None] as well.
    - [new Date(string)] and [getFullYear] belong to the host: they are
      fields of the class [Host], as is [spreadable], which tells whether the
      engine accepts a call with that many arguments ([Math.min(...times)]
      throws a [RangeError] on a long array).
    - A JavaScript [Map] is an association list in insertion order, and the
      entries of an object are a list of pairs.
    - Strings are sequences of 8-bit characters.
    - Logging is left out.  Of [MultiShipManager.initializeShips] the first
      two steps, which fill the colour table with the help of [Math.random],
      are left out too: the table they produce is an argument. *)

From Stdlib Require Import Reals Lra Lia ZArith Bool String Ascii List.
From Stdlib Require Import Sorting.Sorted Permutation DecimalString.
Import ListNotations.

Set Implicit Arguments.

Open Scope string_scope.
Open Scope Z_scope.

(* ================================================================== *)
(** ** JavaScript values *)

Module JS.

(** *** Numbers *)

Inductive num : Type :=
| Fin (r : R)
| NaN.

Definition Reqb (a b : R) : bool := if Req_dec_T a b then true else false.

(** [ToBoolean] on a finite number: only zero is falsy. *)
Definition truthyR (r : R) : bool := negb (Reqb r 0).

(** [ToBoolean] on a number. *)
Definition truthy_num (n : num) : bool :=
  match n with
  | Fin r => truthyR r
  | NaN => false
  end.

(** [ToBoolean] on an optional finite number field. *)
Definition truthy_optR (o : option R) : bool :=
  match o with
  | Some r => truthyR r
  | None => false
  end.

(** [a || b || 0] on number fields. *)
Definition or0 (a b : option R) : R :=
  if truthy_optR a then match a with Some r => r | None => 0%R end
  else if truthy_optR b then match b with Some r => r | None => 0%R end
  else 0%R.

(** [a || b || null] on number fields. *)
Definition or_nullR (a b : option R) : option R :=
  if truthy_optR a then a else if truthy_optR b then b else None.

(** [ToBoolean] on an optional string field: the empty string is falsy. *)
Definition truthy_str (o : option string) : bool :=
  match o with
  | Some s => negb (String.eqb s "")
  | None => false
  end.

(** [a || b || null] on string fields. *)
Definition or_null_str (a b : option string) : option string :=
  if truthy_str a then a else if truthy_str b then b else None.

(** [Math.min] and [Math.max]: [NaN] is contagious. *)
Definition math_min (a b : num) : num :=
  match a, b with
  | Fin x, Fin y => Fin (if Rle_dec x y then x else y)
  | _, _ => NaN
  end.

Definition math_max (a b : num) : num :=
  match a, b with
  | Fin x, Fin y => Fin (if Rle_dec x y then y else x)
  | _, _ => NaN
  end.

Definition num_add (a b : num) : num :=
  match a, b with
  | Fin x, Fin y => Fin (x + y)
  | _, _ => NaN
  end.

Definition num_mul (a b : num) : num :=
  match a, b with
  | Fin x, Fin y => Fin (x * y)
  | _, _ => NaN
  end.

(** [parseFloat(x.toFixed(6))]: the nearest multiple of 10^-6, a tie going
    away from zero; from 10^21 on, [toFixed] prints the number itself. *)
Definition round6R (x : R) : R :=
  if Rle_dec 1e21 (Rabs x) then x
  else if Rlt_dec x 0
       then (- (IZR (Zfloor (- x * 1000000 + / 2)) / 1000000))%R
       else (IZR (Zfloor (x * 1000000 + / 2)) / 1000000)%R.

Definition round6 (n : num) : num :=
  match n with
  | Fin x => Fin (round6R x)
  | NaN => NaN
  end.

(** The remainder operator [%] on finite numbers, divisor not zero: the
    quotient is truncated toward zero. *)
Definition Ztrunc (x : R) : Z :=
  if Rle_dec 0 x then Zfloor x else (- Zfloor (- x))%Z.

Definition js_rem (x m : R) : R := (x - IZR (Ztrunc (x / m)) * m)%R.

(** [Math.atan2] on finite numbers. *)
Definition atan2 (y x : R) : R :=
  if Rlt_dec 0 x then atan (y / x)
  else if Rlt_dec x 0 then
    (if Rle_dec 0 y then atan (y / x) + PI else atan (y / x) - PI)%R
  else if Rlt_dec 0 y then (PI / 2)%R
  else if Rlt_dec y 0 then (- PI / 2)%R
  else 0%R.

(** *** Strings *)

(** White space of [String.prototype.trim] and of [parseInt] (the ASCII
    part: tab, line feed, vertical tab, form feed, carriage return, space). *)
Definition is_ws (c : ascii) : bool :=
  let n := nat_of_ascii c in
  ((9 <=? n) && (n <=? 13))%nat || (n =? 32)%nat.

Fixpoint ltrim (s : string) : string :=
  match s with
  | String c r => if is_ws c then ltrim r else s
  | EmptyString => EmptyString
  end.

Fixpoint rev_string (s acc : string) : string :=
  match s with
  | String c r => rev_string r (String c acc)
  | EmptyString => acc
  end.

Definition trim (s : string) : string :=
  rev_string (ltrim (rev_string (ltrim s) "")) "".

(** Value of a character as a digit, for radix 10 and radix 16. *)
Definition digit_val (c : ascii) : option Z :=
  let n := Z.of_nat (nat_of_ascii c) in
  if (48 <=? n) && (n <=? 57) then Some (n - 48)
  else if (97 <=? n) && (n <=? 102) then Some (n - 87)
  else if (65 <=? n) && (n <=? 70) then Some (n - 55)
  else None.

(** The longest prefix of digits of the radix, [None] when it is empty. *)
Fixpoint parse_digits (radix : Z) (s : string) (acc : option Z) : option Z :=
  match s with
  | String c r =>
      match digit_val c with
      | Some d =>
          if d <? radix
          then parse_digits radix r
                 (Some (radix * match acc with Some a => a | None => 0 end + d))
          else acc
      | None => acc
      end
  | EmptyString => acc
  end.

(** [parseInt(string)] with no radix argument; [None] is [NaN]. *)
Definition parseInt (s : string) : option Z :=
  let s1 := ltrim s in
  let '(neg, s2) :=
    match s1 with
    | String "-" r => (true, r)
    | String "+" r => (false, r)
    | _ => (false, s1)
    end in
  let '(radix, s3) :=
    match s2 with
    | String "0" (String "x" r) => (16, r)
    | String "0" (String "X" r) => (16, r)
    | _ => (10, s2)
    end in
  match parse_digits radix s3 None with
  | Some n => Some (if neg then - n else n)
  | None => None
  end.

(** *** Dates *)

Inductive Date : Type :=
| ValidDate (ms : Z)
| InvalidDate.

(** [isNaN(d.getTime())] *)
Definition date_isNaN (d : Date) : bool :=
  match d with
  | ValidDate _ => false
  | InvalidDate => true
  end.

(** [a < b], [a > b], [a <= b], [a >= b] on dates. *)
Definition date_lt (a b : Date) : bool :=
  match a, b with
  | ValidDate x, ValidDate y => x <? y
  | _, _ => false
  end.

Definition date_gt (a b : Date) : bool := date_lt b a.

Definition date_le (a b : Date) : bool :=
  match a, b with
  | ValidDate x, ValidDate y => x <=? y
  | _, _ => false
  end.

Definition date_ge (a b : Date) : bool := date_le b a.

(** [a - b] on dates: a whole number of milliseconds, or [NaN] ([None]). *)
Definition date_sub (a b : Date) : option Z :=
  match a, b with
  | ValidDate x, ValidDate y => Some (x - y)
  | _, _ => None
  end.

(** A value handed to a time parser or stored in a [postime] field: a string
    or a [Date] object. *)
Inductive TimeArg : Type :=
| TStr (s : string)
| TDate (d : Date).

(** [ToBoolean] on such a value: objects are truthy, the empty string and
    [null]/[undefined] are falsy. *)
Definition truthy_time (o : option TimeArg) : bool :=
  match o with
  | Some (TStr s) => negb (String.eqb s "")
  | Some (TDate _) => true
  | None => false
  end.

(** The host: its date functions [new Date(string)] and [getFullYear] (the
    calendar year of a time value in the host's time zone); [fl], the double
    its arithmetic returns for the exact result of an operation; and
    [spreadable n], whether a call with [n] spread arguments goes through
    (beyond the engine's limit it throws a [RangeError]). *)
Class Host : Type := {
  Date_parse : string -> Date;
  getFullYear : Z -> Z;
  fl : R -> R;
  spreadable : nat -> bool
}.

(** The double an operation returns, [NaN] being contagious. *)
Definition fl_num {host : Host} (n : num) : num :=
  match n with
  | Fin r => Fin (fl r)
  | NaN => NaN
  end.

(** What the statements use of the host's arithmetic.  IEEE 754 binary64
    rounds the exact result to the nearest double: the error is at most
    half a unit in the last place (2^-53 of the result, or 2^-1075 among
    the subnormal numbers), whole numbers up to 2^53 are doubles, and
    rounding keeps the order. *)
Class IEEE754 (host : Host) : Prop := {
  fl_error : forall x : R,
    (Rabs (fl x - x) <= Rabs x / 2 ^ 53 + / 2 ^ 1075)%R;
  fl_integer : forall z : Z, Z.abs z <= 2 ^ 53 -> fl (IZR z) = IZR z;
  fl_monotone : forall x y : R, (x <= y)%R -> (fl x <= fl y)%R
}.

End JS.

Import JS.

(* ================================================================== *)
(** ** Rounding to the nearest double *)

(** Round to nearest, ties to even, of IEEE 754 binary64 on the reals: 53
    binary digits, the least exponent -1022.  A result beyond the largest
    double is rounded as if the exponent had no upper limit. *)

Module Binary64.

(** The nearest whole number, a tie going to the even one. *)
Definition rne (y : R) : Z :=
  let f := Zfloor y in
  if Rlt_dec (y - IZR f) (/ 2) then f
  else if Rlt_dec (/ 2) (y - IZR f) then f + 1
  else if Z.even f then f else f + 1.

(** The binary exponent of a number that is not zero:
    [2^mag <= |x| < 2^(mag + 1)]. *)
Definition mag (x : R) : Z := Zfloor (ln (Rabs x) / ln 2).

(** The unit in the last place of the doubles around [x]: 52 binary digits
    below the exponent, which among the subnormal numbers stays -1022. *)
Definition ulp (x : R) : R := powerRZ 2 (Z.max (mag x) (-1022) - 52).

Definition round (x : R) : R :=
  if Req_dec_T x 0 then 0%R else (IZR (rne (x / ulp x)) * ulp x)%R.

End Binary64.

(* ================================================================== *)
(** ** A host for UTC and ISO-8601 instants *)

(** One host among those the statements quantify over.  It is used where a
    statement is applied to concrete data. *)

Module UtcHost.

(** Days since 1970-01-01 of a proleptic Gregorian date. *)
Definition days_from_civil (y m d : Z) : Z :=
  let y' := if m <=? 2 then y - 1 else y in
  let era := y' / 400 in
  let yoe := y' - era * 400 in
  let mp := if 2 <? m then m - 3 else m + 9 in
  let doy := (153 * mp + 2) / 5 + d - 1 in
  let doe := yoe * 365 + yoe / 4 - yoe / 100 + doy in
  era * 146097 + doe - 719468.

(** Calendar year of a day number. *)
Definition year_from_days (z0 : Z) : Z :=
  let z := z0 + 719468 in
  let era := z / 146097 in
  let doe := z - era * 146097 in
  let yoe := (doe - doe / 1460 + doe / 36524 - doe / 146096) / 365 in
  let doy := doe - (365 * yoe + yoe / 4 - yoe / 100) in
  let mp := (5 * doy + 2) / 153 in
  let m := if mp <? 10 then mp + 3 else mp - 9 in
  if m <=? 2 then yoe + era * 400 + 1 else yoe + era * 400.

Definition utc_year (ms : Z) : Z := year_from_days (ms / 86400000).

(** Exactly [n] decimal digits at the head of a string. *)
Fixpoint take_digits (n : nat) (s : string) (acc : Z) : option (Z * string) :=
  match n with
  | O => Some (acc, s)
  | S n' =>
      match s with
      | String c r =>
          match digit_val c with
          | Some d => if d <? 10 then take_digits n' r (10 * acc + d) else None
          | None => None
          end
      | EmptyString => None
      end
  end.

Definition expect (c : ascii) (s : string) : option string :=
  match s with
  | String c' r => if Ascii.eqb c c' then Some r else None
  | EmptyString => None
  end.

(** [YYYY-MM-DDTHH:mm:ssZ], the date-time form of ECMA-262 in UTC; every
    other string is an invalid date for this host. *)
Definition parse_iso (s : string) : Date :=
  match take_digits 4 s 0 with
  | Some (y, s) =>
  match expect "-" s with Some s =>
  match take_digits 2 s 0 with Some (mo, s) =>
  match expect "-" s with Some s =>
  match take_digits 2 s 0 with Some (d, s) =>
  match expect "T" s with Some s =>
  match take_digits 2 s 0 with Some (h, s) =>
  match expect ":" s with Some s =>
  match take_digits 2 s 0 with Some (mi, s) =>
  match expect ":" s with Some s =>
  match take_digits 2 s 0 with Some (sec, s) =>
  match s with
  | String "Z" EmptyString =>
      if (1 <=? mo) && (mo <=? 12) && (1 <=? d) && (d <=? 31)
         && (h <=? 23) && (mi <=? 59) && (sec <=? 59)
      then ValidDate
             (days_from_civil y mo d * 86400000
              + h * 3600000 + mi * 60000 + sec * 1000)
      else InvalidDate
  | _ => InvalidDate
  end
  | None => InvalidDate end
  | None => InvalidDate end
  | None => InvalidDate end
  | None => InvalidDate end
  | None => InvalidDate end
  | None => InvalidDate end
  | None => InvalidDate end
  | None => InvalidDate end
  | None => InvalidDate end
  | None => InvalidDate end
  | None => InvalidDate
  end.

(** The time zone is UTC, the arithmetic rounds to the nearest double, and
    a call takes up to 65535 spread arguments. *)
Definition utc_host : Host :=
  {| Date_parse := parse_iso;
     getFullYear := utc_year;
     fl := Binary64.round;
     spreadable := fun n => Z.of_nat n <=? 65535 |}.

End UtcHost.

(* ================================================================== *)
(** ** Trajectory points *)

(** A point record of the loader.  Stored headings are not read by the code
    modelled here. *)
Module Pt.
Record Point : Type := mkPoint {
  lon : option R;
  lng : option R;
  lat : option R;
  postime : option TimeArg;
  timestamp : option TimeArg;
  speed : option R;
  rot : option R;
  draught : option R;
  status : option string;
  dest : option string;
  eta : option string;
  vessel_type : option string;
  flag_ctry : option string
}.
End Pt.
Definition Point : Type := Pt.Point.

(* ================================================================== *)
(** ** A [Map] keyed by strings, in insertion order *)

Module SMap.
Section Ops.
Variable V : Type.

Definition t : Type := list (string * V).

Fixpoint get (m : t) (k : string) : option V :=
  match m with
  | [] => None
  | (k', v) :: r => if String.eqb k k' then Some v else get r k
  end.

(** [Map.prototype.set]: an existing key keeps its place. *)
Fixpoint set (m : t) (k : string) (v : V) : t :=
  match m with
  | [] => [(k, v)]
  | (k', v') :: r =>
      if String.eqb k k' then (k, v) :: r else (k', v') :: set r k v
  end.

Definition keys (m : t) : list string := map fst m.

End Ops.
End SMap.

(* ================================================================== *)
(** ** TimeSyncController: the time registry *)

Module TimeSyncController.

Record ShipTimes : Type := mkShipTimes {
  startTime : Date;
  endTime : Date
}.

Record State : Type := mkState {
  globalStartTime : option Date;
  globalEndTime : option Date;
  currentTime : option Date;
  isPlaying : bool;
  speed : R;
  baseTimeRatio : R;
  mode : string;
  selectedShipId : option string;
  ships : SMap.t ShipTimes
}.

(** The constructor. *)
Definition create : State :=
  {| globalStartTime := None;
     globalEndTime := None;
     currentTime := None;
     isPlaying := false;
     speed := 1%R;
     baseTimeRatio := 300%R;
     mode := "multi";
     selectedShipId := None;
     ships := [] |}.

(** [Math.min(...dates)] and [Math.max(...dates)] wrapped in [new Date]:
    the dates are coerced to their time values, [NaN] is contagious, and the
    empty list gives an infinite, hence invalid, date. *)
Definition date_min (a b : Date) : Date :=
  match a, b with
  | ValidDate x, ValidDate y => ValidDate (Z.min x y)
  | _, _ => InvalidDate
  end.

Definition date_max (a b : Date) : Date :=
  match a, b with
  | ValidDate x, ValidDate y => ValidDate (Z.max x y)
  | _, _ => InvalidDate
  end.

Definition min_dates (l : list Date) : Date :=
  match l with
  | [] => InvalidDate
  | d :: r => fold_left date_min r d
  end.

Definition max_dates (l : list Date) : Date :=
  match l with
  | [] => InvalidDate
  | d :: r => fold_left date_max r d
  end.

Section WithHost.
Context {host : Host}.

Definition parseTime (timeStr : option TimeArg) : option Date :=
  if negb (truthy_time timeStr) then None
  else
    match timeStr with
    | Some (TDate d) => if date_isNaN d then None else Some d
    | Some (TStr s) =>
        let date := Date_parse s in
        if negb (date_isNaN date) then Some date else None
    | None => None
    end.

(** The callback of [trajectory.filter] in [initializeShips]. *)
Definition has_valid_time (point : Point) : bool :=
  if negb (truthy_time (Pt.postime point)) then false
  else
    match parseTime (Pt.postime point) with
    | Some time => negb (date_isNaN time)
    | None => false
    end.

(** [.filter(t => t !== null && !isNaN(t.getTime()))] *)
Fixpoint keep_valid (l : list (option Date)) : list Date :=
  match l with
  | [] => []
  | Some t :: r => if date_isNaN t then keep_valid r else t :: keep_valid r
  | None :: r => keep_valid r
  end.

(** The body of the loop of [initializeShips] for one entity: its time
    window, or [None] when the entity is skipped.  [Math.min(...times)] and
    [Math.max(...times)] throw when the engine does not take that many
    arguments; the [catch] logs the error and the entity is skipped. *)
Definition ship_window (trajectory : list Point) : option ShipTimes :=
  match trajectory with
  | [] => None
  | _ =>
      let validPoints := filter has_valid_time trajectory in
      match validPoints with
      | [] => None
      | _ =>
          let times :=
            keep_valid (map (fun point => parseTime (Pt.postime point)) validPoints) in
          match times with
          | [] => None
          | _ =>
              if negb (spreadable (List.length times)) then None
              else
                let startTime := min_dates times in
                let endTime := max_dates times in
                if date_isNaN startTime || date_isNaN endTime then None
                else if date_gt startTime endTime
                     then Some (mkShipTimes endTime startTime)
                     else Some (mkShipTimes startTime endTime)
          end
      end
  end.

(** The loop over [Object.entries(shipGroups)]; a group with no [data]
    array is [None]. *)
Fixpoint load_ships (entries : list (string * option (list Point)))
    (acc : SMap.t ShipTimes) : SMap.t ShipTimes :=
  match entries with
  | [] => acc
  | (mmsi, shipGroup) :: rest =>
      match shipGroup with
      | None => load_ships rest acc
      | Some trajectory =>
          match ship_window trajectory with
          | Some w => load_ships rest (SMap.set acc mmsi w)
          | None => load_ships rest acc
          end
      end
  end.

(** [initializeShips(shipGroups, globalTimeRange)]; the explicit range is a
    pair of strings [(start_time, end_time)].  Without an explicit range
    the method spreads the windows of all registered entities into
    [Math.min] and [Math.max], outside any handler and after the registry
    is filled; the engine is taken to accept that call. *)
Definition initializeShips (st : State)
    (shipGroups : list (string * option (list Point)))
    (globalTimeRange : option (string * string)) : State :=
  let ships' := load_ships shipGroups [] in
  let derived :=
    match ships' with
    | [] => (globalStartTime st, globalEndTime st)
    | _ => (Some (min_dates (map (fun e => startTime (snd e)) ships')),
            Some (max_dates (map (fun e => endTime (snd e)) ships')))
    end in
  let '(gs, ge) :=
    match globalTimeRange with
    | Some (start_time, end_time) =>
        if negb (String.eqb start_time "") && negb (String.eqb end_time "")
        then (Some (Date_parse start_time), Some (Date_parse end_time))
        else derived
    | None => derived
    end in
  {| globalStartTime := gs;
     globalEndTime := ge;
     currentTime := match gs with Some d => Some d | None => currentTime st end;
     isPlaying := isPlaying st;
     speed := speed st;
     baseTimeRatio := baseTimeRatio st;
     mode := mode st;
     selectedShipId := selectedShipId st;
     ships := ships' |}.

(** [currentTime instanceof Date ? currentTime : this.parseTime(currentTime)] *)
Definition resolve_time (currentTime : option TimeArg) : option Date :=
  match currentTime with
  | Some (TDate d) => Some d
  | _ => parseTime currentTime
  end.

(** The loop of [getActiveShipsAtTime]. *)
Fixpoint active_loop (time : Date) (entries : SMap.t ShipTimes) : list string :=
  match entries with
  | [] => []
  | (mmsi, shipData) :: rest =>
      if date_lt time (startTime shipData) then active_loop time rest
      else if date_gt time (endTime shipData) then active_loop time rest
      else mmsi :: active_loop time rest
  end.

Definition getActiveShipsAtTime (st : State) (currentTime : option TimeArg)
  : list string :=
  match resolve_time currentTime with
  | None => []
  | Some time => active_loop time (ships st)
  end.

Definition set_currentTime (st : State) (d : option Date) : State :=
  {| globalStartTime := globalStartTime st;
     globalEndTime := globalEndTime st;
     currentTime := d;
     isPlaying := isPlaying st;
     speed := speed st;
     baseTimeRatio := baseTimeRatio st;
     mode := mode st;
     selectedShipId := selectedShipId st;
     ships := ships st |}.

Definition updateTime (st : State) (newTime : option TimeArg) : State :=
  match resolve_time newTime with
  | None => st
  | Some time =>
      if match globalStartTime st with
         | Some gs => date_lt time gs
         | None => false
         end
      then set_currentTime st (globalStartTime st)
      else if match globalEndTime st with
              | Some ge => date_gt time ge
              | None => false
              end
      then set_currentTime st (globalEndTime st)
      else set_currentTime st (Some time)
  end.

Definition reset (st : State) : State :=
  let st' :=
    match globalStartTime st with
    | Some gs => set_currentTime st (Some gs)
    | None => st
    end in
  {| globalStartTime := globalStartTime st';
     globalEndTime := globalEndTime st';
     currentTime := currentTime st';
     isPlaying := false;
     speed := speed st';
     baseTimeRatio := baseTimeRatio st';
     mode := mode st';
     selectedShipId := selectedShipId st';
     ships := ships st' |}.

Definition setMode (st : State) (mode' : string)
    (selectedShipId' : option string) : State :=
  {| globalStartTime := globalStartTime st;
     globalEndTime := globalEndTime st;
     currentTime := currentTime st;
     isPlaying := isPlaying st;
     speed := speed st;
     baseTimeRatio := baseTimeRatio st;
     mode := mode';
     selectedShipId := selectedShipId';
     ships := ships st |}.

Definition setPlaying (st : State) (isPlaying' : bool) : State :=
  {| globalStartTime := globalStartTime st;
     globalEndTime := globalEndTime st;
     currentTime := currentTime st;
     isPlaying := isPlaying';
     speed := speed st;
     baseTimeRatio := baseTimeRatio st;
     mode := mode st;
     selectedShipId := selectedShipId st;
     ships := ships st |}.

Definition setSpeed (st : State) (speed' : R) : State :=
  {| globalStartTime := globalStartTime st;
     globalEndTime := globalEndTime st;
     currentTime := currentTime st;
     isPlaying := isPlaying st;
     speed := speed';
     baseTimeRatio := baseTimeRatio st;
     mode := mode st;
     selectedShipId := selectedShipId st;
     ships := ships st |}.

Definition getCurrentTime (st : State) : option Date := currentTime st.

Definition getGlobalTimeRange (st : State) : option Date * option Date :=
  (globalStartTime st, globalEndTime st).

Definition isAtEnd (st : State) : bool :=
  match currentTime st, globalEndTime st with
  | Some c, Some ge => date_ge c ge
  | _, _ => false
  end.

Definition isAtStart (st : State) : bool :=
  match currentTime st, globalStartTime st with
  | Some c, Some gs => date_le c gs
  | _, _ => false
  end.

End WithHost.
End TimeSyncController.

(* ================================================================== *)
(** ** MultiShipManager: the trajectory store *)

Module MultiShipManager.

(** What [formatPosition] and [interpolatePosition] return. *)
Module Pos.
Record Position : Type := mkPosition {
  lng : num;
  lat : num;
  lon : num;
  hdg : R;
  cog : R;
  timestamp : option TimeArg;
  speed : R;
  rot : R;
  draught : option R;
  status : option string;
  dest : option string;
  eta : option string;
  vessel_type : option string;
  flag_ctry : option string
}.
End Pos.
Definition Position : Type := Pos.Position.

Record Ship : Type := mkShip {
  trajectory : list Point;
  startTime : option Date;
  endTime : option Date;
  vesselType : string;
  flagCtry : string;
  color : string;
  dest : string;
  iconSize : Z
}.

Record State : Type := mkState {
  ships : SMap.t Ship;
  shipColors : SMap.t string
}.

Definition defaultColor : string := "hsl(200, 70%, 50%)".

(** The constructor. *)
Definition create : State := {| ships := []; shipColors := [] |}.

(** [ToInt32] *)
Definition to_int32 (z : Z) : Z :=
  let m := z mod 4294967296 in
  if m <? 2147483648 then m else m - 4294967296.

Fixpoint hash_loop (str : string) (hash : Z) : Z :=
  match str with
  | String c r =>
      let char := Z.of_nat (nat_of_ascii c) in
      hash_loop r (to_int32 (to_int32 (hash * 32) - hash + char))
  | EmptyString => hash
  end.

Definition hashString (str : string) : Z := Z.abs (hash_loop str 0).

(** [getShipColor]: the colour and the colour cache after the call. *)
Definition getShipColor (colors : SMap.t string) (flagCtry : string)
  : string * SMap.t string :=
  if String.eqb flagCtry "" || String.eqb (trim flagCtry) ""
  then (defaultColor, colors)
  else
    match SMap.get colors flagCtry with
    | Some c => (c, colors)
    | None =>
        let hue := hashString flagCtry mod 360 in
        let c := "hsl(" ++ NilZero.string_of_int (Z.to_int hue) ++ ", 80%, 55%)" in
        (c, SMap.set colors flagCtry c)
    end.

Definition calculateIconSize (vesselType : string) : Z :=
  let typeNum :=
    match parseInt vesselType with
    | Some n => if n =? 0 then 50000 else n
    | None => 50000
    end in
  if 70000 <=? typeNum then 36
  else if 50000 <=? typeNum then 30
  else 24.

(** [point.lon || point.lng || 0] and [point.lat || 0] *)
Definition lng_of (point : Point) : R := or0 (Pt.lon point) (Pt.lng point).
Definition lat_of (point : Point) : R := or0 (Pt.lat point) None.

(** [point.postime || point.timestamp] *)
Definition time_field (point : Point) : option TimeArg :=
  if truthy_time (Pt.postime point) then Pt.postime point
  else Pt.timestamp point.

Definition calculateDirection (point1 point2 : Point) : R :=
  let lng1 := lng_of point1 in
  let lat1 := lat_of point1 in
  let lng2 := lng_of point2 in
  let lat2 := lat_of point2 in
  if Reqb lng1 lng2 && Reqb lat1 lat2 then 0%R
  else
    let lat1Rad := (lat1 * PI / 180)%R in
    let lat2Rad := (lat2 * PI / 180)%R in
    let deltaLng := ((lng2 - lng1) * PI / 180)%R in
    let y := (sin deltaLng * cos lat2Rad)%R in
    let x := (cos lat1Rad * sin lat2Rad
              - sin lat1Rad * cos lat2Rad * cos deltaLng)%R in
    let bearing := atan2 y x in
    let bearing := (bearing * 180 / PI)%R in
    js_rem (bearing + 360) 360.

(** The sum, the product and the difference in it are doubles, and
    [parseFloat] reads the six decimals of [toFixed(6)] back into the
    nearest double. *)
Definition interpolatePosition {host : Host} (point1 point2 : Point)
    (progress : num) : Position :=
  let progress := math_max (Fin 0) (math_min (Fin 1) progress) in
  let lng :=
    fl_num (num_add (Fin (lng_of point1))
              (fl_num (num_mul (Fin (fl (lng_of point2 - lng_of point1)))
                               progress))) in
  let lat :=
    fl_num (num_add (Fin (lat_of point1))
              (fl_num (num_mul (Fin (fl (lat_of point2 - lat_of point1)))
                               progress))) in
  let heading := calculateDirection point1 point2 in
  {| Pos.lng := fl_num (round6 lng);
     Pos.lat := fl_num (round6 lat);
     Pos.lon := fl_num (round6 lng);
     Pos.hdg := heading;
     Pos.cog := heading;
     Pos.timestamp := time_field point1;
     Pos.speed := or0 (Pt.speed point1) (Pt.speed point2);
     Pos.rot := or0 (Pt.rot point1) None;
     Pos.draught := or_nullR (Pt.draught point1) (Pt.draught point2);
     Pos.status := or_null_str (Pt.status point1) (Pt.status point2);
     Pos.dest := or_null_str (Pt.dest point1) (Pt.dest point2);
     Pos.eta := or_null_str (Pt.eta point1) (Pt.eta point2);
     Pos.vessel_type :=
       or_null_str (Pt.vessel_type point1) (Pt.vessel_type point2);
     Pos.flag_ctry := or_null_str (Pt.flag_ctry point1) (Pt.flag_ctry point2) |}.

Definition formatPosition (point : Point) : Position :=
  {| Pos.lng := Fin (lng_of point);
     Pos.lat := Fin (lat_of point);
     Pos.lon := Fin (lng_of point);
     Pos.hdg := 0%R;
     Pos.cog := 0%R;
     Pos.timestamp := time_field point;
     Pos.speed := or0 (Pt.speed point) None;
     Pos.rot := or0 (Pt.rot point) None;
     Pos.draught := or_nullR (Pt.draught point) None;
     Pos.status := or_null_str (Pt.status point) None;
     Pos.dest := or_null_str (Pt.dest point) None;
     Pos.eta := or_null_str (Pt.eta point) None;
     Pos.vessel_type := or_null_str (Pt.vessel_type point) None;
     Pos.flag_ctry := or_null_str (Pt.flag_ctry point) None |}.

(** [position.hdg = d; position.cog = d] *)
Definition with_direction (position : Position) (d : R) : Position :=
  {| Pos.lng := Pos.lng position;
     Pos.lat := Pos.lat position;
     Pos.lon := Pos.lon position;
     Pos.hdg := d;
     Pos.cog := d;
     Pos.timestamp := Pos.timestamp position;
     Pos.speed := Pos.speed position;
     Pos.rot := Pos.rot position;
     Pos.draught := Pos.draught position;
     Pos.status := Pos.status position;
     Pos.dest := Pos.dest position;
     Pos.eta := Pos.eta position;
     Pos.vessel_type := Pos.vessel_type position;
     Pos.flag_ctry := Pos.flag_ctry position |}.

(** [a.getTime() === b.getTime()] *)
Definition date_same (a b : Date) : bool :=
  match a, b with
  | ValidDate x, ValidDate y => x =? y
  | _, _ => false
  end.

(** [timeDiff > 0 ? elapsed / timeDiff : 0]; the two differences of time
    values and the quotient are doubles. *)
Definition progress_of {host : Host} (elapsed timeDiff : option Z) : num :=
  match timeDiff with
  | Some d =>
      if Rlt_dec 0 (fl (IZR d))
      then match elapsed with
           | Some e => Fin (fl (fl (IZR e) / fl (IZR d)))
           | None => NaN
           end
      else Fin 0
  | None => Fin 0
  end.

Section WithHost.
Context {host : Host}.

Definition parseTime (timeStr : option TimeArg) : option Date :=
  if negb (truthy_time timeStr) then None
  else
    match timeStr with
    | Some (TDate d) => if date_isNaN d then None else Some d
    | Some (TStr s) =>
        let trimmed := trim s in
        if String.eqb trimmed "" || String.eqb trimmed "null"
           || String.eqb trimmed "undefined" || String.eqb trimmed "NaN"
        then None
        else
          match Date_parse s with
          | InvalidDate => None
          | ValidDate ms =>
              let year := getFullYear ms in
              if (year <? 1900) || (2100 <? year) then None
              else Some (ValidDate ms)
          end
    | None => None
    end.

(** The comparator handed to [sort] in [addShip]. *)
Definition compare_points (a b : Point) : option Z :=
  match parseTime (Pt.postime a), parseTime (Pt.postime b) with
  | None, None => Some 0
  | None, Some _ => Some 1
  | Some _, None => Some (-1)
  | Some timeA, Some timeB => date_sub timeA timeB
  end.

(** [Array.prototype.sort] is stable: an element moves in front of another
    only when the comparator is positive on the pair.  Insertion from the
    right is one such sort. *)
Definition comes_after (a b : Point) : bool :=
  match compare_points a b with
  | Some v => 0 <? v
  | None => false
  end.

Fixpoint insert_point (x : Point) (l : list Point) : list Point :=
  match l with
  | [] => [x]
  | y :: r => if comes_after x y then y :: insert_point x r else x :: y :: r
  end.

Fixpoint sort_points (l : list Point) : list Point :=
  match l with
  | [] => []
  | x :: r => insert_point x (sort_points r)
  end.

(** [firstPoint.postime] parsed, as [addShip] does for both ends. *)
Definition end_time (point : Point) : option Date :=
  if truthy_time (Pt.postime point)
  then match parseTime (Pt.postime point) with
       | Some parsed => if negb (date_isNaN parsed) then Some parsed else None
       | None => None
       end
  else None.

(** [(firstPoint && firstPoint.f) ? String(firstPoint.f).trim() : ''] *)
Definition trimmed_field (f : option string) : string :=
  if truthy_str f then match f with Some s => trim s | None => "" end else "".

Definition clean_flag (flagCtry : string) : string :=
  if String.eqb flagCtry "nan" || String.eqb flagCtry "null"
     || String.eqb flagCtry "undefined" || String.eqb flagCtry "NaN"
  then "" else flagCtry.

(** [addShip(mmsi, shipData)]; [shipData.data] absent or not an array is
    [None]. *)
Definition addShip (st : State) (mmsi : string) (data : option (list Point))
  : State :=
  if String.eqb mmsi "" then st
  else
    match data with
    | None => st
    | Some [] => st
    | Some (p0 :: ps) =>
        let trajectory := p0 :: ps in
        let hasTimeStamps :=
          existsb (fun point => truthy_time (Pt.postime point)) trajectory in
        let sortedTrajectory :=
          if hasTimeStamps then sort_points trajectory else trajectory in
        let firstPoint := hd p0 sortedTrajectory in
        let lastPoint := last sortedTrajectory p0 in
        let startTime := end_time firstPoint in
        let endTime := end_time lastPoint in
        let vesselType := trimmed_field (Pt.vessel_type firstPoint) in
        let flagCtry := clean_flag (trimmed_field (Pt.flag_ctry firstPoint)) in
        let dest := trimmed_field (Pt.dest firstPoint) in
        let iconSize := calculateIconSize vesselType in
        let '(color, colors') := getShipColor (shipColors st) flagCtry in
        {| ships :=
             SMap.set (ships st) mmsi
               {| trajectory := sortedTrajectory;
                  startTime := startTime;
                  endTime := endTime;
                  vesselType := vesselType;
                  flagCtry := flagCtry;
                  color := color;
                  dest := dest;
                  iconSize := iconSize |};
           shipColors := colors' |}
    end.

(** The third step of [initializeShips]: every group with a non-empty
    [data] array goes through [addShip].  The colour table built by the
    first two steps (which draw from [Math.random]) is the cache of the
    state handed in. *)
Fixpoint add_all (entries : list (string * option (list Point))) (st : State)
  : State :=
  match entries with
  | [] => st
  | (mmsi, shipData) :: rest =>
      match shipData with
      | None => add_all rest st
      | Some [] => add_all rest st
      | Some data => add_all rest (addShip st mmsi (Some data))
      end
  end.

Definition initializeShips (colors : SMap.t string)
    (shipGroups : list (string * option (list Point))) : State :=
  add_all shipGroups {| ships := []; shipColors := colors |}.

Definition resolve_time (currentTime : option TimeArg) : option Date :=
  match currentTime with
  | Some (TDate d) => Some d
  | _ => parseTime currentTime
  end.

(** The [while (left < right - 1)] loop of [getShipPositionAtTime]; every
    round brings [left] and [right] closer, so [right - left] rounds are
    enough ([search_loop_done]). *)
Fixpoint search_loop (fuel : nat) (trajectory : list Point) (p0 : Point)
    (time : Date) (left right : nat) : nat * nat :=
  match fuel with
  | O => (left, right)
  | S fuel' =>
      if (left <? right - 1)%nat then
        let mid := ((left + right) / 2)%nat in
        match parseTime (Pt.postime (nth mid trajectory p0)) with
        | None => search_loop fuel' trajectory p0 time mid right
        | Some midTime =>
            if date_le midTime time
            then search_loop fuel' trajectory p0 time mid right
            else search_loop fuel' trajectory p0 time left mid
        end
      else (left, right)
  end.

(** What follows the loop: the pair is examined and a position built. *)
Definition from_pair (trajectory : list Point) (p0 : Point) (time : Date)
    (left right : nat) : Position :=
  let point1 := nth left trajectory p0 in
  let point2 := nth right trajectory p0 in
  match parseTime (Pt.postime point1), parseTime (Pt.postime point2) with
  | None, None =>
      with_direction (formatPosition point1) (calculateDirection point1 point2)
  | None, Some _ =>
      if (right <? length trajectory - 1)%nat
      then with_direction (formatPosition point2)
             (calculateDirection point2 (nth (right + 1) trajectory p0))
      else with_direction (formatPosition point2)
             (calculateDirection point1 point2)
  | Some _, None =>
      with_direction (formatPosition point1) (calculateDirection point1 point2)
  | Some time1, Some time2 =>
      if date_same time time1 then
        if (right <? length trajectory - 1)%nat
        then with_direction (formatPosition point1)
               (calculateDirection point1 (nth (right + 1) trajectory p0))
        else if (0 <? left)%nat
        then with_direction (formatPosition point1)
               (calculateDirection (nth (left - 1) trajectory p0) point1)
        else with_direction (formatPosition point1)
               (calculateDirection point1 point2)
      else if date_same time time2 then
        if (right <? length trajectory - 1)%nat
        then with_direction (formatPosition point2)
               (calculateDirection point2 (nth (right + 1) trajectory p0))
        else with_direction (formatPosition point2)
               (calculateDirection point1 point2)
      else
        let timeDiff := date_sub time2 time1 in
        let elapsed := date_sub time time1 in
        let progress := progress_of elapsed timeDiff in
        let clampedProgress := math_max (Fin 0) (math_min (Fin 1) progress) in
        interpolatePosition point1 point2 clampedProgress
  end.

Definition getShipPositionAtTime (st : State) (mmsi : string)
    (currentTime : option TimeArg) : option Position :=
  match SMap.get (ships st) mmsi with
  | None => None
  | Some shipData =>
      match trajectory shipData with
      | [] => None
      | p0 :: rest =>
          let trajectory := p0 :: rest in
          match resolve_time currentTime with
          | None =>
              match rest with
              | [] => Some (formatPosition p0)
              | p1 :: _ =>
                  Some (with_direction (formatPosition p0)
                          (calculateDirection p0 p1))
              end
          | Some time =>
              if match startTime shipData with
                 | Some s => date_lt time s
                 | None => false
                 end
              then Some (formatPosition p0)
              else if match endTime shipData with
                      | Some e => date_gt time e
                      | None => false
                      end
              then Some (formatPosition (last trajectory p0))
              else if (length trajectory =? 1)%nat
              then Some (formatPosition p0)
              else
                let right := (length trajectory - 1)%nat in
                if match parseTime (Pt.postime p0) with
                   | Some firstTime => date_lt time firstTime
                   | None => false
                   end
                then Some (with_direction (formatPosition p0)
                             (calculateDirection p0 (nth 1 trajectory p0)))
                else if match parseTime (Pt.postime (nth right trajectory p0)) with
                        | Some lastTime => date_gt time lastTime
                        | None => false
                        end
                then Some (with_direction
                             (formatPosition (nth right trajectory p0))
                             (calculateDirection
                                (nth (right - 1) trajectory p0)
                                (nth right trajectory p0)))
                else
                  let found :=
                    search_loop (length trajectory) trajectory p0 time 0 right in
                  Some (from_pair trajectory p0 time (fst found) (snd found))
          end
      end
  end.

(** The loop of [getAllVisibleShipsAtTime] in multi mode. *)
Fixpoint visible_loop (time : option Date) (entries : SMap.t Ship)
  : list string :=
  match entries with
  | [] => []
  | (mmsi, shipData) :: rest =>
      match startTime shipData, endTime shipData, time with
      | Some s, Some e, Some t =>
          if date_ge t s && date_le t e
          then mmsi :: visible_loop time rest
          else visible_loop time rest
      | _, _, _ => mmsi :: visible_loop time rest
      end
  end.

Definition getAllVisibleShipsAtTime (st : State) (currentTime : option TimeArg)
    (mode : string) (selectedShipId : option string) : list string :=
  if String.eqb mode "single" && truthy_str selectedShipId then
    match selectedShipId with
    | None => []
    | Some sel =>
        match SMap.get (ships st) sel with
        | Some shipData =>
            match resolve_time currentTime, startTime shipData, endTime shipData with
            | Some t, Some s, Some e =>
                if date_ge t s && date_le t e then [sel] else []
            | _, _, _ => [sel]
            end
        | None => []
        end
    end
  else visible_loop (resolve_time currentTime) (ships st).

(** [getShip(mmsi)] *)
Definition getShip (st : State) (mmsi : string) : option Ship :=
  SMap.get (ships st) mmsi.

(** [getAllShipIds()] *)
Definition getAllShipIds (st : State) : list string := SMap.keys (ships st).

(** The [normalize] of [interpolateAngle]. *)
Definition normalize (angle : R) : R :=
  let angle := js_rem angle 360 in
  if Rlt_dec angle 0 then fl (angle + 360) else angle.

Definition interpolateAngle (angle1 angle2 progress : R) : R :=
  let angle1 := normalize angle1 in
  let angle2 := normalize angle2 in
  let diff := fl (angle2 - angle1) in
  let diff :=
    if Rlt_dec 180 diff then fl (diff - 360)
    else if Rlt_dec diff (-180) then fl (diff + 360)
    else diff in
  normalize (fl (angle1 + fl (diff * progress))).












End WithHost.
End MultiShipManager.

(* ================================================================== *)
(** ** The snapshot builder of the application component *)

Module Playback.

(** One entry of [shipPositions]: the position spread into the object, then
    the fields taken from the store's ship record. *)
Record Marker : Type := mkMarker {
  position : MultiShipManager.Position;
  iconSize : Z;
  color : string;
  mmsi : string;
  vessel_type : string;
  flag_ctry : string;
  dest : string
}.

(** [!position.lng && !position.lon) || !position.lat] *)
Definition invalid_position (position : MultiShipManager.Position) : bool :=
  (negb (truthy_num (MultiShipManager.Pos.lng position))
   && negb (truthy_num (MultiShipManager.Pos.lon position)))
  || negb (truthy_num (MultiShipManager.Pos.lat position)).

Definition marker_of (mmsi : string) (position : MultiShipManager.Position)
    (shipInfo : MultiShipManager.Ship) : Marker :=
  {| position := position;
     iconSize :=
       if MultiShipManager.iconSize shipInfo =? 0 then 24
       else MultiShipManager.iconSize shipInfo;
     color :=
       if String.eqb (MultiShipManager.color shipInfo) "" then "#2196f3"
       else MultiShipManager.color shipInfo;
     mmsi := mmsi;
     vessel_type := MultiShipManager.vesselType shipInfo;
     flag_ctry := MultiShipManager.flagCtry shipInfo;
     dest := MultiShipManager.dest shipInfo |}.

(** A record of the single-ship track as the component's
    [interpolatePosition] reads it; a missing coordinate is [NaN]. *)
Module Tp.
Record TrackPoint : Type := mkTrackPoint {
  lng : num;
  lat : num;
  hdg : option R;
  cog : option R;
  timestamp : option TimeArg;
  speed : option R;
  rot : option R;
  draught : option R;
  status : option string;
  dest : option string;
  eta : option string;
  leg_start_postime : option string;
  arrival_time : option string
}.
End Tp.
Definition TrackPoint : Type := Tp.TrackPoint.

Module Ip.
Record Interpolated : Type := mkInterpolated {
  lng : num;
  lat : num;
  lon : num;
  hdg : num;
  cog : num;
  timestamp : option TimeArg;
  speed : R;
  rot : R;
  draught : option R;
  status : option string;
  dest : option string;
  eta : option string;
  leg_start_postime : option string;
  arrival_time : option string
}.
End Ip.
Definition Interpolated : Type := Ip.Interpolated.

(** What [interpolatePosition] returns: one of its arguments as it is, or
    a new object. *)
Inductive Interpolation : Type :=
| Given (point : option TrackPoint)
| Between (point : Interpolated).

Definition num_sub (a b : num) : num :=
  match a, b with
  | Fin x, Fin y => Fin (x - y)
  | _, _ => NaN
  end.

(** [((x % 360) + 360) % 360]; the remainders are exact, the sum is a
    double. *)
Definition normalizedHdg {host : Host} (x : num) : num :=
  match x with
  | Fin r => Fin (js_rem (fl (js_rem r 360 + 360)) 360)
  | NaN => NaN
  end.

(** [interpolatePosition(point1, point2, progress)] of the component; every
    sum, difference and product in it is a double. *)
Definition interpolatePosition {host : Host} (point1 point2 : option TrackPoint)
    (progress : num) : Interpolation :=
  match point1, point2 with
  | Some point1, Some point2 =>
      let progress := math_max (Fin 0) (math_min (Fin 1) progress) in
      let lng :=
        fl_num
          (round6
             (fl_num
                (num_add (Tp.lng point1)
                   (fl_num
                      (num_mul
                         (fl_num (num_sub (Tp.lng point2) (Tp.lng point1)))
                         progress))))) in
      let lat :=
        fl_num
          (round6
             (fl_num
                (num_add (Tp.lat point1)
                   (fl_num
                      (num_mul
                         (fl_num (num_sub (Tp.lat point2) (Tp.lat point1)))
                         progress))))) in
      let hdg := or0 (Tp.hdg point1) (Tp.cog point1) in
      let nextHdg :=
        if truthy_optR (Tp.hdg point2)
        then match Tp.hdg point2 with Some r => r | None => hdg end
        else if truthy_optR (Tp.cog point2)
        then match Tp.cog point2 with Some r => r | None => hdg end
        else hdg in
      let angleDiff := fl (nextHdg - hdg) in
      let angleDiff :=
        if Rlt_dec 180 angleDiff then fl (angleDiff - 360) else angleDiff in
      let angleDiff :=
        if Rlt_dec angleDiff (-180) then fl (angleDiff + 360) else angleDiff in
      let interpolatedHdg :=
        fl_num (num_add (Fin hdg) (fl_num (num_mul (Fin angleDiff) progress))) in
      Between
        {| Ip.lng := lng;
           Ip.lat := lat;
           Ip.lon := lng;
           Ip.hdg := normalizedHdg interpolatedHdg;
           Ip.cog := normalizedHdg interpolatedHdg;
           Ip.timestamp := Tp.timestamp point1;
           Ip.speed := or0 (Tp.speed point1) (Tp.speed point2);
           Ip.rot := or0 (Tp.rot point1) None;
           Ip.draught := or_nullR (Tp.draught point1) (Tp.draught point2);
           Ip.status := or_null_str (Tp.status point1) (Tp.status point2);
           Ip.dest := or_null_str (Tp.dest point1) (Tp.dest point2);
           Ip.eta := or_null_str (Tp.eta point1) (Tp.eta point2);
           Ip.leg_start_postime :=
             or_null_str (Tp.leg_start_postime point1)
                         (Tp.leg_start_postime point2);
           Ip.arrival_time :=
             or_null_str (Tp.arrival_time point1) (Tp.arrival_time point2) |}
  | Some point1, None => Given (Some point1)
  | None, point2 => Given point2
  end.

Section WithHost.
Context {host : Host}.

(** The [for] loop of [updateAllShipsPositions]. *)
Fixpoint positions_loop (multiShipManager : MultiShipManager.State)
    (currentTime : option TimeArg) (activeShips : list string)
    (shipPositions : SMap.t Marker) : SMap.t Marker :=
  match activeShips with
  | [] => shipPositions
  | mmsi :: rest =>
      if String.eqb mmsi ""
      then positions_loop multiShipManager currentTime rest shipPositions
      else
        match MultiShipManager.getShipPositionAtTime multiShipManager mmsi
                currentTime with
        | None => positions_loop multiShipManager currentTime rest shipPositions
        | Some position =>
            if invalid_position position
            then positions_loop multiShipManager currentTime rest shipPositions
            else
              match MultiShipManager.getShip multiShipManager mmsi with
              | Some shipInfo =>
                  positions_loop multiShipManager currentTime rest
                    (SMap.set shipPositions mmsi
                       (marker_of mmsi position shipInfo))
              | None =>
                  positions_loop multiShipManager currentTime rest shipPositions
              end
        end
  end.

(** [updateAllShipsPositions(currentTime)] with both services and the map
    in place: the object handed to [updateAllMarkers]. *)
Definition updateAllShipsPositions (timeSyncController : TimeSyncController.State)
    (multiShipManager : MultiShipManager.State) (currentTime : option TimeArg)
  : SMap.t Marker :=
  let activeShips :=
    TimeSyncController.getActiveShipsAtTime timeSyncController currentTime in
  match activeShips with
  | [] => []
  | _ => positions_loop multiShipManager currentTime activeShips []
  end.

(** [new Date(number)]: the time value is the number truncated to a whole
    millisecond; beyond 8.64e15 ms the date is invalid. *)
Definition date_of_number (x : num) : Date :=
  match x with
  | Fin r => if Rle_dec (Rabs r) 8640000000000000 then ValidDate (Ztrunc r)
             else InvalidDate
  | NaN => InvalidDate
  end.

(** [d.getTime()] *)
Definition getTime (d : Date) : num :=
  match d with
  | ValidDate ms => Fin (IZR ms)
  | InvalidDate => NaN
  end.

(** [new Date(value)] for a string or a [Date]. *)
Definition date_of (v : TimeArg) : Date :=
  match v with
  | TStr s => Date_parse s
  | TDate d => d
  end.

(** [getTimeDifference(point1, point2)] of the component, in minutes; a
    record that is missing is [None]; the difference and the quotient are
    doubles. *)
Definition getTimeDifference (point1 point2 : option Point) : R :=
  match point1, point2 with
  | Some point1, Some point2 =>
      if truthy_time (Pt.timestamp point1) && truthy_time (Pt.timestamp point2)
      then
        match Pt.timestamp point1, Pt.timestamp point2 with
        | Some ts1, Some ts2 =>
            match date_of ts1, date_of ts2 with
            | ValidDate time1, ValidDate time2 =>
                if time1 <? time2
                then fl (fl (IZR (time2 - time1)) / (1000 * 60))
                else 5%R
            | _, _ => 5%R
            end
        | _, _ => 5%R
        end
      else 5%R
  | _, _ => 5%R
  end.

(** The references the animation loop works on: the registry, the pending
    frame request and the frame time of the previous round. *)
Record Clock : Type := mkClock {
  timeSyncController : TimeSyncController.State;
  animationFrame : bool;
  lastAnimationTime : option R
}.

Definition BASE_TIME_RATIO : R := 300%R.

(** One call of [animate(currentTime)] in [startUnifiedTimeAnimation], with
    the speed the loop was started with: the references afterwards and the
    snapshot handed to the markers, if one was built.  Every step of the
    arithmetic gives a double. *)
Definition animate (animationSpeed : R) (multiShipManager : MultiShipManager.State)
    (c : Clock) (currentTime : R) : Clock * option (SMap.t Marker) :=
  if negb (animationFrame c) then (c, None)
  else if negb (truthy_optR (lastAnimationTime c)) then
    ({| timeSyncController := timeSyncController c;
        animationFrame := true;
        lastAnimationTime := Some currentTime |}, None)
  else
    let last := match lastAnimationTime c with Some l => l | None => 0%R end in
    let realTimeElapsed := fl (fl (currentTime - last) / 1000) in
    let shipTimeElapsed :=
      fl (fl (realTimeElapsed * BASE_TIME_RATIO) * animationSpeed) in
    match TimeSyncController.getCurrentTime (timeSyncController c) with
    | None =>
        ({| timeSyncController := timeSyncController c;
            animationFrame := false;
            lastAnimationTime := lastAnimationTime c |}, None)
    | Some currentShipTime =>
        let newShipTime :=
          date_of_number
            (fl_num (num_add (getTime currentShipTime)
                             (Fin (fl (shipTimeElapsed * 1000))))) in
        if match TimeSyncController.globalEndTime (timeSyncController c) with
           | Some endTime => date_gt newShipTime endTime
           | None => false
           end
        then
          let endTime :=
            option_map TDate
              (TimeSyncController.globalEndTime (timeSyncController c)) in
          let tsc1 :=
            TimeSyncController.updateTime (timeSyncController c) endTime in
          ({| timeSyncController := TimeSyncController.setPlaying tsc1 false;
              animationFrame := false;
              lastAnimationTime := None |},
           Some (updateAllShipsPositions tsc1 multiShipManager endTime))
        else
          let tsc1 :=
            TimeSyncController.updateTime (timeSyncController c)
              (Some (TDate newShipTime)) in
          ({| timeSyncController := tsc1;
              animationFrame := true;
              lastAnimationTime := Some currentTime |},
           Some (updateAllShipsPositions tsc1 multiShipManager
                   (Some (TDate newShipTime))))
    end.

(** The [globalTimeRange] state of the component. *)
Record TimeRange : Type := mkTimeRange {
  start_time : option TimeArg;
  end_time : option TimeArg
}.

(** [a - b] on dates as a number: the difference of the time values, as a
    double. *)
Definition num_of_diff (d : option Z) : num :=
  match d with
  | Some ms => Fin (fl (IZR ms))
  | None => NaN
  end.

(** [handleTimeSliderChange(e)] on the unified time axis, that is with ships
    loaded, both services in place and [globalTimeRange] set;
    [sliderValue] is [parseFloat(e.target.value)].  The references
    afterwards and the snapshot handed to the markers, if one was built.
    The product, the quotient and the sum are doubles. *)
Definition handleTimeSliderChange (multiShipManager : MultiShipManager.State)
    (c : Clock) (globalTimeRange : TimeRange) (sliderValue : num)
  : Clock * option (SMap.t Marker) :=
  let tsc0 :=
    TimeSyncController.setPlaying (timeSyncController c) false in
  let stopped :=
    {| timeSyncController := tsc0;
       animationFrame := false;
       lastAnimationTime := None |} in
  if truthy_time (start_time globalTimeRange)
     && truthy_time (end_time globalTimeRange)
  then
    match start_time globalTimeRange, end_time globalTimeRange with
    | Some start_time, Some end_time =>
        let start := date_of start_time in
        let end_ := date_of end_time in
        let timeDiff := num_of_diff (date_sub end_ start) in
        let newTime :=
          date_of_number
            (fl_num
               (num_add (getTime start)
                  (match fl_num (num_mul timeDiff sliderValue) with
                   | Fin x => Fin (fl (x / 100))
                   | NaN => NaN
                   end))) in
        let tsc1 := TimeSyncController.updateTime tsc0 (Some (TDate newTime)) in
        ({| timeSyncController := tsc1;
            animationFrame := false;
            lastAnimationTime := None |},
         Some (updateAllShipsPositions tsc1 multiShipManager
                 (Some (TDate newTime))))
    | _, _ => (stopped, None)
    end
  else (stopped, None).

End WithHost.
End Playback.

(* ================================================================== *)
(** ** PerformanceMonitor *)

(** [performance.now()] is an argument of the operations that read it. *)
Module PerformanceMonitor.

Record Stats : Type := mkStats {
  minFps : option R;   (* [None] is the initial [Infinity] *)
  maxFps : R;
  avgFps : R;
  totalFrames : Z;     (* [stats.frameCount] *)
  totalTime : R
}.

Record State : Type := mkState {
  frameCount : Z;
  lastFpsUpdate : R;
  fps : R;
  frameTimes : list R;
  maxFrameTimeHistory : nat;
  isMonitoring : bool;
  stats : Stats
}.

Definition fresh_stats : Stats :=
  {| minFps := None; maxFps := 0%R; avgFps := 0%R;
     totalFrames := 0; totalTime := 0%R |}.

(** The constructor. *)
Definition create (now : R) : State :=
  {| frameCount := 0; lastFpsUpdate := now; fps := 0%R; frameTimes := [];
     maxFrameTimeHistory := 60; isMonitoring := false; stats := fresh_stats |}.

Definition start (m : State) (now : R) : State :=
  {| frameCount := 0; lastFpsUpdate := now; fps := fps m; frameTimes := [];
     maxFrameTimeHistory := maxFrameTimeHistory m; isMonitoring := true;
     stats := fresh_stats |}.

Definition stop (m : State) : State :=
  {| frameCount := frameCount m; lastFpsUpdate := lastFpsUpdate m;
     fps := fps m; frameTimes := frameTimes m;
     maxFrameTimeHistory := maxFrameTimeHistory m; isMonitoring := false;
     stats := stats m |}.

(** [push] followed by the conditional [shift]. *)
Definition push_frame (times : list R) (maxHistory : nat) (frameTime : R)
  : list R :=
  let times := (times ++ [frameTime])%list in
  if (maxHistory <? List.length times)%nat then tl times else times.

Section WithHost.
Context {host : Host}.

(** The counters are whole numbers; the elapsed time, the rates and the
    total time are doubles. *)
Definition recordFrame (m : State) (frameTime now : R) : State :=
  if negb (isMonitoring m) then m
  else
    let frameCount1 := frameCount m + 1 in
    let frameTimes1 :=
      push_frame (frameTimes m) (maxFrameTimeHistory m) frameTime in
    let elapsed := fl (now - lastFpsUpdate m) in
    if Rle_dec 1000 elapsed then
      let currentFps := fl (IZR frameCount1 / fl (elapsed / 1000)) in
      let minFps1 :=
        match minFps (stats m) with
        | Some lo => if Rlt_dec currentFps lo then Some currentFps else Some lo
        | None => Some currentFps
        end in
      let maxFps1 :=
        if Rlt_dec (maxFps (stats m)) currentFps then currentFps
        else maxFps (stats m) in
      let totalTime1 := fl (totalTime (stats m) + elapsed) in
      let totalFrames1 := totalFrames (stats m) + frameCount1 in
      {| frameCount := 0; lastFpsUpdate := now; fps := currentFps;
         frameTimes := frameTimes1;
         maxFrameTimeHistory := maxFrameTimeHistory m;
         isMonitoring := true;
         stats := {| minFps := minFps1; maxFps := maxFps1;
                     avgFps := fl (IZR totalFrames1 / fl (totalTime1 / 1000));
                     totalFrames := totalFrames1;
                     totalTime := totalTime1 |} |}
    else
      {| frameCount := frameCount1; lastFpsUpdate := lastFpsUpdate m;
         fps := fps m; frameTimes := frameTimes1;
         maxFrameTimeHistory := maxFrameTimeHistory m;
         isMonitoring := true; stats := stats m |}.

Definition getFps (m : State) : R := fps m.

(** The three frame-time figures of [getStats]; the sum of [reduce] and
    the quotient are doubles. *)
Definition avgFrameTime (m : State) : R :=
  match frameTimes m with
  | [] => 0%R
  | _ =>
      fl (fold_left (fun a b => fl (a + b)) (frameTimes m) 0%R
          / INR (List.length (frameTimes m)))
  end.

(** [Math.min(...this.frameTimes)] and [Math.max(...this.frameTimes)]
    spread the history into the arguments of one call; [None] is the
    [RangeError] of an engine that does not take that many. *)
Definition minFrameTime (m : State) : option R :=
  match frameTimes m with
  | [] => Some 0%R
  | x :: r =>
      if spreadable (List.length (frameTimes m))
      then Some (fold_left Rmin r x) else None
  end.

Definition maxFrameTime (m : State) : option R :=
  match frameTimes m with
  | [] => Some 0%R
  | x :: r =>
      if spreadable (List.length (frameTimes m))
      then Some (fold_left Rmax r x) else None
  end.

Definition isPerformanceAcceptable (m : State) : bool :=
  (if Rle_dec 30 (fps m) then true else false) || Reqb (fps m) 0.

End WithHost.

End PerformanceMonitor.

(** A point that carries coordinates and a time stamp only. *)
Definition point_at (lon lat : R) (postime : option TimeArg) : Point :=
  {| Pt.lon := Some lon; Pt.lng := None; Pt.lat := Some lat;
     Pt.postime := postime; Pt.timestamp := None;
     Pt.speed := None; Pt.rot := None; Pt.draught := None;
     Pt.status := None; Pt.dest := None; Pt.eta := None;
     Pt.vessel_type := None; Pt.flag_ctry := None |}.

(** A time stamp given as a valid [Date] object. *)
Definition at_ms (ms : Z) : option TimeArg := Some (TDate (ValidDate ms)).

(* ================================================================== *)
(** ** Vocabulary of the statements *)

Module TSC := TimeSyncController.
Module PM := PerformanceMonitor.

(** A window whose two ends are valid dates in order. *)
Definition window_ok (w : TSC.ShipTimes) : Prop :=
  exists s e, TSC.startTime w = ValidDate s /\ TSC.endTime w = ValidDate e /\ s <= e.

(** Sort keys: a parsed time stamp, or [None] for a point with none, which
    the comparator of [addShip] places after every timestamped point. *)
Definition key_le (a b : option Z) : Prop :=
  match a, b with
  | Some x, Some y => x <= y
  | Some _, None => True
  | None, None => True
  | None, Some _ => False
  end.

Section Keys.
Context {host : Host}.

(** The time value the store reads from a point. *)
Definition time_key (point : Point) : option Z :=
  match MultiShipManager.parseTime (Pt.postime point) with
  | Some (ValidDate ms) => Some ms
  | _ => None
  end.

Definition point_le (a b : Point) : Prop := key_le (time_key a) (time_key b).

(** What [addShip] establishes for a stored entity. *)
Definition ship_ok (ship : MultiShipManager.Ship) : Prop :=
  exists p0 rest,
    MultiShipManager.trajectory ship = p0 :: rest /\
    StronglySorted point_le (MultiShipManager.trajectory ship) /\
    MultiShipManager.startTime ship = MultiShipManager.end_time p0 /\
    MultiShipManager.endTime ship
      = MultiShipManager.end_time (last (MultiShipManager.trajectory ship) p0).

End Keys.




(** A flag for which [getShipColor] answers with the default colour. *)
Definition blank_flag (flagCtry : string) : bool :=
  String.eqb flagCtry "" || String.eqb (trim flagCtry) "".

(** Every stored entity has the default colour if its flag is blank and
    otherwise the colour the table holds for its flag. *)
Definition colors_ok (st : MultiShipManager.State) : Prop :=
  forall k ship,
    SMap.get (MultiShipManager.ships st) k = Some ship ->
    (blank_flag (MultiShipManager.flagCtry ship) = true ->
     MultiShipManager.color ship = MultiShipManager.defaultColor) /\
    (blank_flag (MultiShipManager.flagCtry ship) = false ->
     SMap.get (MultiShipManager.shipColors st) (MultiShipManager.flagCtry ship)
     = Some (MultiShipManager.color ship)).

Section Rounded.
Context {host : Host}.

(** The time stamps the registry reads from a trajectory: the parsed
    [postime] of every point that has one, in the order of the points. *)
Definition parsed_times (trajectory : list Point) : list Z :=
  flat_map (fun point =>
              match TimeSyncController.parseTime (Pt.postime point) with
              | Some (ValidDate ms) => [ms]
              | _ => []
              end) trajectory.

(** [parseFloat(x.toFixed(6))] of a double: the six decimals nearest to it,
    read back as a double. *)
Definition to_fixed6 (x : R) : R := fl (round6R x).

(** [x1 + (x2 - x1) * progress] as the host computes it. *)
Definition lerp (x1 x2 progress : R) : R :=
  fl (x1 + fl (fl (x2 - x1) * progress)).

(** [(t - t1) / (t2 - t1)] on time values as the host computes it. *)
Definition time_fraction (t t1 t2 : Z) : R :=
  fl (fl (IZR (t - t1)) / fl (IZR (t2 - t1))).

(** The time value a round of the animation loop asks for: the present
    ship time [cur] plus 300 * speed times the real time elapsed since the
    previous frame, as the host computes it. *)
Definition tick_target (cur : Z) (last now animationSpeed : R) : R :=
  fl (IZR cur
      + fl (fl (fl (fl (fl (now - last) / 1000) * Playback.BASE_TIME_RATIO)
                * animationSpeed)
            * 1000)).

(** The time value the slider asks for at the value [v] on the range from
    [a] to [b], as the host computes it. *)
Definition slider_target (a b : Z) (v : R) : R :=
  fl (IZR a + fl (fl (fl (IZR (b - a)) * v) / 100)).

(** A run of [recordFrame] calls; a frame is the frame time handed to the
    call and the reading of [performance.now()] in it. *)
Definition record_all (m : PerformanceMonitor.State) (frames : list (R * R))
  : PerformanceMonitor.State :=
  fold_left (fun m frame => PerformanceMonitor.recordFrame m (fst frame) (snd frame))
            frames m.

End Rounded.

(** The books of a running monitor that has seen [count] frames since its
    start: every frame is counted once, in the running counter or in the
    statistics; before the first update of the rate the statistics are
    those of the start; afterwards at least one frame is in them and the
    present rate lies between the lowest and the highest. *)
Definition statistics_ok (count : Z) (m : PerformanceMonitor.State) : Prop :=
  PerformanceMonitor.isMonitoring m = true /\
  0 <= PerformanceMonitor.frameCount m /\
  0 <= PerformanceMonitor.totalFrames (PerformanceMonitor.stats m) /\
  PerformanceMonitor.totalFrames (PerformanceMonitor.stats m)
  + PerformanceMonitor.frameCount m = count /\
  match PerformanceMonitor.minFps (PerformanceMonitor.stats m) with
  | None => PerformanceMonitor.stats m = PerformanceMonitor.fresh_stats
  | Some lo =>
      1 <= PerformanceMonitor.totalFrames (PerformanceMonitor.stats m) /\
      (lo <= PerformanceMonitor.fps m
       <= PerformanceMonitor.maxFps (PerformanceMonitor.stats m))%R
  end.

(* ================================================================== *)
(** ** A small data set *)

Module Demo.

(** Two entities: the first reports at 5000 ms and 1000 ms (out of order),
    the second at 3000 ms and 9000 ms. *)
Definition groups : list (string * option (list Point)) :=
  [("412000001",
    Some [point_at 120 30 (at_ms 5000); point_at 121 31 (at_ms 1000)]);
   ("412000002",
    Some [point_at 110 20 (at_ms 3000); point_at 111 21 (at_ms 9000)])].

Definition registry : TimeSyncController.State :=
  TimeSyncController.initializeShips (host := UtcHost.utc_host)
    TimeSyncController.create groups None.

Definition store : MultiShipManager.State :=
  MultiShipManager.initializeShips (host := UtcHost.utc_host) [] groups.

(** An entity whose second record has no time stamp. *)
Definition open_ended_groups : list (string * option (list Point)) :=
  [("412000003", Some [point_at 120 30 (at_ms 1000); point_at 121 31 None])].

(** An entity that goes from (1, 1) to (2, 2) in three seconds; it reports
    the speed 0 at the first point and 5 at the second. *)
Definition third_a : Point :=
  {| Pt.lon := Some 1%R; Pt.lng := None; Pt.lat := Some 1%R;
     Pt.postime := at_ms 0; Pt.timestamp := None;
     Pt.speed := Some 0%R; Pt.rot := None; Pt.draught := None;
     Pt.status := None; Pt.dest := None; Pt.eta := None;
     Pt.vessel_type := None; Pt.flag_ctry := None |}.

Definition third_b : Point :=
  {| Pt.lon := Some 2%R; Pt.lng := None; Pt.lat := Some 2%R;
     Pt.postime := at_ms 3000; Pt.timestamp := None;
     Pt.speed := Some 5%R; Pt.rot := None; Pt.draught := None;
     Pt.status := None; Pt.dest := None; Pt.eta := None;
     Pt.vessel_type := None; Pt.flag_ctry := None |}.

Definition thirds_store : MultiShipManager.State :=
  MultiShipManager.initializeShips (host := UtcHost.utc_host) []
    [("412000004", Some [third_a; third_b])].

(** An entity that sails due north along the meridian 121.1234130859375
    (121 + 1011/8192, a double), from latitude 31.5 to latitude 31.75 in two
    seconds. *)
Definition north_a : Point :=
  point_at (121 + 1011 / 8192) (315 / 10) (at_ms 0).
Definition north_b : Point :=
  point_at (121 + 1011 / 8192) (3175 / 100) (at_ms 2000).

Definition north_store : MultiShipManager.State :=
  MultiShipManager.initializeShips (host := UtcHost.utc_host) []
    [("412000005", Some [north_a; north_b])].

(** An entity that sails due south along the meridian 120, from latitude 31
    to latitude 30. *)
Definition south_a : Point := point_at 120 31 (at_ms 1000).
Definition south_b : Point := point_at 120 30 (at_ms 2000).

Definition south_store : MultiShipManager.State :=
  MultiShipManager.initializeShips (host := UtcHost.utc_host) []
    [("412000006", Some [south_a; south_b])].

(** An entity with a single report, on the equator at longitude 5. *)
Definition equator_groups : list (string * option (list Point)) :=
  [("412000007", Some [point_at 5 0 (at_ms 1000)])].

Definition equator_registry : TimeSyncController.State :=
  TimeSyncController.initializeShips (host := UtcHost.utc_host)
    TimeSyncController.create equator_groups None.

Definition equator_store : MultiShipManager.State :=
  MultiShipManager.initializeShips (host := UtcHost.utc_host) [] equator_groups.

(** Two records of a single track: heading 350 at (120, 30), heading 10 at
    (121, 31). *)
Definition track_a : Playback.TrackPoint :=
  {| Playback.Tp.lng := Fin 120; Playback.Tp.lat := Fin 30;
     Playback.Tp.hdg := Some 350%R; Playback.Tp.cog := None;
     Playback.Tp.timestamp := None; Playback.Tp.speed := None;
     Playback.Tp.rot := None; Playback.Tp.draught := None;
     Playback.Tp.status := None; Playback.Tp.dest := None;
     Playback.Tp.eta := None; Playback.Tp.leg_start_postime := None;
     Playback.Tp.arrival_time := None |}.

Definition track_b : Playback.TrackPoint :=
  {| Playback.Tp.lng := Fin 121; Playback.Tp.lat := Fin 31;
     Playback.Tp.hdg := Some 10%R; Playback.Tp.cog := None;
     Playback.Tp.timestamp := None; Playback.Tp.speed := None;
     Playback.Tp.rot := None; Playback.Tp.draught := None;
     Playback.Tp.status := None; Playback.Tp.dest := None;
     Playback.Tp.eta := None; Playback.Tp.leg_start_postime := None;
     Playback.Tp.arrival_time := None |}.

(** The time range the component shows for [groups]. *)
Definition range : Playback.TimeRange :=
  {| Playback.start_time := at_ms 1000; Playback.end_time := at_ms 9000 |}.

End Demo.

(* ================================================================== *)
(** * Theorems *)

Import MultiShipManager.

(** ** Icon size *)

(** Claim C7, as the code has it.  The type code goes through [parseInt];
    a code that does not parse, or parses to zero, is replaced by 50000 and
    so gets the medium size 30.  Every other code [n] gets 36 from 70000 on,
    30 from 50000 up to 70000, and 24 below 50000. *)
Theorem calculateIconSize_thresholds :
  forall vesselType : string,
    (forall n, parseInt vesselType = Some n -> n <> 0 ->
       (70000 <= n -> calculateIconSize vesselType = 36) /\
       (50000 <= n < 70000 -> calculateIconSize vesselType = 30) /\
       (n < 50000 -> calculateIconSize vesselType = 24)) /\
    (parseInt vesselType = None \/ parseInt vesselType = Some 0 ->
     calculateIconSize vesselType = 30).
Proof.
  intros vesselType. unfold calculateIconSize. split.
  - intros n Hn Hnz. rewrite Hn.
    destruct (Z.eqb_spec n 0) as [->|_]; [contradiction|].
    repeat split; intros H;
      destruct (Z.leb_spec 70000 n); destruct (Z.leb_spec 50000 n);
      try reflexivity; lia.
  - intros [H|H]; rewrite H; reflexivity.
Qed.

Lemma calculateIconSize_thresholds_witness :
  calculateIconSize "80000" = 36 /\
  calculateIconSize "60000" = 30 /\
  calculateIconSize "30000" = 24 /\
  calculateIconSize "" = 30 /\
  calculateIconSize "0" = 30.
Proof.
  split; [|split; [|split; [|split]]].
  - apply (proj1 (calculateIconSize_thresholds "80000") 80000);
      [reflexivity | lia | lia].
  - apply (proj1 (calculateIconSize_thresholds "60000") 60000);
      [reflexivity | lia | lia].
  - apply (proj1 (calculateIconSize_thresholds "30000") 30000);
      [reflexivity | lia | lia].
  - apply (proj2 (calculateIconSize_thresholds "")); left; reflexivity.
  - apply (proj2 (calculateIconSize_thresholds "0")); right; reflexivity.
Defined.

(** Claim C7 as stated fails: the code 0, a code that is not numeric and a
    missing code (the empty string of [addShip]) do not get the small size. *)
Lemma calculateIconSize_default_not_small :
  calculateIconSize "0" <> 24 /\
  calculateIconSize "cargo" <> 24 /\
  calculateIconSize "" <> 24.
Proof. repeat split; vm_compute; discriminate. Qed.

(** ** Maps in insertion order *)

Section SMapFacts.
Variable V : Type.
Implicit Types (m : SMap.t V) (k : string) (v : V).

Lemma smap_get_set_same m k v : SMap.get (SMap.set m k v) k = Some v.
Proof.
  induction m as [|[k' v'] m IH]; simpl.
  - now rewrite String.eqb_refl.
  - destruct (String.eqb_spec k k') as [->|Hne]; simpl.
    + now rewrite String.eqb_refl.
    + destruct (String.eqb_spec k k'); [contradiction|exact IH].
Qed.

Lemma smap_get_set_other m k k' v :
  k' <> k -> SMap.get (SMap.set m k v) k' = SMap.get m k'.
Proof.
  intros Hne. induction m as [|[k0 v0] m IH]; simpl.
  - destruct (String.eqb_spec k' k); [contradiction|reflexivity].
  - destruct (String.eqb_spec k k0) as [->|Hk]; simpl.
    + destruct (String.eqb_spec k' k0); [contradiction|reflexivity].
    + destruct (String.eqb_spec k' k0); [reflexivity|exact IH].
Qed.

Lemma smap_keys_set m k v :
  forall k', In k' (SMap.keys (SMap.set m k v)) <-> k' = k \/ In k' (SMap.keys m).
Proof.
  intros k'. unfold SMap.keys.
  induction m as [|[k0 v0] m IH]; simpl.
  - intuition.
  - destruct (String.eqb_spec k k0) as [->|Hk]; simpl.
    + intuition.
    + rewrite IH. intuition.
Qed.

Lemma smap_set_NoDup m k v :
  NoDup (SMap.keys m) -> NoDup (SMap.keys (SMap.set m k v)).
Proof.
  unfold SMap.keys. induction m as [|[k0 v0] m IH]; simpl; intros Hnd.
  - constructor; [intros []|constructor].
  - inversion Hnd as [|? ? Hnotin Hnd']; subst.
    destruct (String.eqb_spec k k0) as [->|Hk]; simpl.
    + constructor; assumption.
    + constructor; [|apply IH; assumption].
      intros Hin. apply (smap_keys_set m k v k0) in Hin.
      destruct Hin as [->|Hin]; [now apply Hk|now apply Hnotin].
Qed.

Lemma smap_get_In m k v : SMap.get m k = Some v -> In (k, v) m.
Proof.
  induction m as [|[k0 v0] m IH]; simpl; [discriminate|].
  destruct (String.eqb_spec k k0) as [->|Hk].
  - intros [= ->]. now left.
  - intros H. right. now apply IH.
Qed.

Lemma smap_In_get m k v :
  NoDup (SMap.keys m) -> In (k, v) m -> SMap.get m k = Some v.
Proof.
  unfold SMap.keys. induction m as [|[k0 v0] m IH]; simpl; [intros _ []|].
  intros Hnd Hin. inversion Hnd as [|? ? Hnotin Hnd']; subst.
  destruct Hin as [[= -> ->]|Hin].
  - now rewrite String.eqb_refl.
  - destruct (String.eqb_spec k k0) as [->|Hk].
    + exfalso. apply Hnotin. apply (in_map fst) in Hin. exact Hin.
    + now apply IH.
Qed.

Lemma smap_get_keys m k : In k (SMap.keys m) <-> exists v, SMap.get m k = Some v.
Proof.
  unfold SMap.keys. induction m as [|[k0 v0] m IH]; simpl.
  - split; [intros []|intros [v [=]]].
  - destruct (String.eqb_spec k k0) as [->|Hk].
    + split; [intros _; now exists v0|intros _; now left].
    + rewrite <- IH. split; [intros [H|H]; [congruence|exact H]|now right].
Qed.

End SMapFacts.

(** ** Dates *)

Lemma date_lt_valid a b : date_lt (ValidDate a) (ValidDate b) = true <-> a < b.
Proof. simpl. apply Z.ltb_lt. Qed.

Lemma date_le_valid a b : date_le (ValidDate a) (ValidDate b) = true <-> a <= b.
Proof. simpl. apply Z.leb_le. Qed.

Lemma fold_date_min_valid (l : list Date) (x : Z) :
  Forall (fun d => date_isNaN d = false) l ->
  exists m, fold_left TimeSyncController.date_min l (ValidDate x) = ValidDate m
            /\ m <= x /\ (forall y, In (ValidDate y) l -> m <= y)
            /\ (m = x \/ In (ValidDate m) l).
Proof.
  revert x. induction l as [|d l IH]; intros x Hall; simpl.
  - exists x. repeat split; [lia|intros y []|now left].
  - inversion Hall as [|? ? Hd Hl]; subst.
    destruct d as [y|]; [|discriminate]. simpl.
    destruct (IH (Z.min x y) Hl) as (m & Hm & Hle & Hall' & Hin).
    exists m. repeat split; [exact Hm|lia| |].
    + intros z [[= ->]|Hz]; [lia|now apply Hall'].
    + destruct Hin as [->|Hin]; [|now right; right].
      destruct (Z.min_spec x y) as [[_ ->]|[_ ->]]; [now left|right; now left].
Qed.

Lemma fold_date_max_valid (l : list Date) (x : Z) :
  Forall (fun d => date_isNaN d = false) l ->
  exists m, fold_left TimeSyncController.date_max l (ValidDate x) = ValidDate m
            /\ x <= m /\ (forall y, In (ValidDate y) l -> y <= m)
            /\ (m = x \/ In (ValidDate m) l).
Proof.
  revert x. induction l as [|d l IH]; intros x Hall; simpl.
  - exists x. repeat split; [lia|intros y []|now left].
  - inversion Hall as [|? ? Hd Hl]; subst.
    destruct d as [y|]; [|discriminate]. simpl.
    destruct (IH (Z.max x y) Hl) as (m & Hm & Hle & Hall' & Hin).
    exists m. repeat split; [exact Hm|lia| |].
    + intros z [[= ->]|Hz]; [lia|now apply Hall'].
    + destruct Hin as [->|Hin]; [|now right; right].
      destruct (Z.max_spec x y) as [[_ ->]|[_ ->]]; [right; now left|now left].
Qed.

(** ** The time registry *)

Section RegistryFacts.
Context {host : Host}.

Lemma registry_parseTime_valid x d :
  TSC.parseTime x = Some d -> exists ms, d = ValidDate ms.
Proof.
  unfold TSC.parseTime. destruct (truthy_time x); simpl; [|discriminate].
  destruct x as [[s|[ms|]]|]; simpl; try discriminate.
  - destruct (Date_parse s) as [ms|]; simpl; [|discriminate].
    intros [= <-]. now exists ms.
  - intros [= <-]. now exists ms.
Qed.

Lemma keep_valid_Forall l :
  Forall (fun d => date_isNaN d = false) (TSC.keep_valid l).
Proof.
  induction l as [|[d|] l IH]; simpl; [constructor| |exact IH].
  destruct (date_isNaN d) eqn:E; [exact IH|constructor; assumption].
Qed.

(** The window of an entity: its start is the least and its end the
    greatest of the time stamps that parse. *)
Lemma ship_window_spec trajectory w :
  TSC.ship_window trajectory = Some w ->
  let times :=
    TSC.keep_valid
      (map (fun point => TSC.parseTime (Pt.postime point))
           (filter TSC.has_valid_time trajectory)) in
  exists s e,
    TSC.startTime w = ValidDate s /\ TSC.endTime w = ValidDate e /\ s <= e /\
    In (ValidDate s) times /\ In (ValidDate e) times /\
    (forall y, In (ValidDate y) times -> s <= y <= e).
Proof.
  unfold TSC.ship_window. intros H.
  destruct trajectory as [|p0 ps]; [discriminate|].
  destruct (filter TSC.has_valid_time (p0 :: ps)) as [|q qs] eqn:Ef;
    [discriminate|].
  pose proof (keep_valid_Forall
                (map (fun point => TSC.parseTime (Pt.postime point)) (q :: qs)))
    as Hall.
  destruct (TSC.keep_valid _) as [|d ds] eqn:Ek; [discriminate|].
  inversion Hall as [|? ? Hd Hds]; subst.
  destruct d as [x|]; [|discriminate].
  destruct (spreadable _); cbn [negb] in H; [|discriminate].
  unfold TSC.min_dates, TSC.max_dates in H.
  destruct (fold_date_min_valid x Hds) as (s & Hs & Hsx & Hsall & Hsin).
  destruct (fold_date_max_valid x Hds) as (e & He & Hxe & Heall & Hein).
  rewrite Hs, He in H. simpl in H.
  assert (Hse : s <= e) by lia.
  destruct (Z.ltb_spec e s); [lia|].
  injection H as <-. exists s, e. simpl.
  repeat split; try reflexivity; try assumption.
  - destruct Hsin as [->|Hin]; [now left|now right].
  - destruct Hein as [->|Hin]; [now left|now right].
  - destruct H as [[= ->]|Hy]; [lia|now apply Hsall].
  - destruct H as [[= ->]|Hy]; [lia|now apply Heall].
Qed.

Lemma ship_window_ok trajectory w :
  TSC.ship_window trajectory = Some w -> window_ok w.
Proof.
  intros H. destruct (ship_window_spec _ H) as (s & e & Hs & He & Hse & _).
  now exists s, e.
Qed.

Lemma load_ships_inv entries :
  forall acc,
    NoDup (SMap.keys acc) ->
    (forall k w, SMap.get acc k = Some w -> window_ok w) ->
    NoDup (SMap.keys (TSC.load_ships entries acc)) /\
    (forall k w, SMap.get (TSC.load_ships entries acc) k = Some w -> window_ok w).
Proof.
  induction entries as [|[mmsi g] rest IH]; intros acc Hnd Hok; simpl.
  - now split.
  - destruct g as [trajectory|]; [|now apply IH].
    destruct (TSC.ship_window trajectory) as [w|] eqn:Ew; [|now apply IH].
    apply IH.
    + now apply smap_set_NoDup.
    + intros k w' Hget. destruct (string_dec k mmsi) as [->|Hne].
      * rewrite smap_get_set_same in Hget. injection Hget as <-.
        eapply ship_window_ok; eassumption.
      * rewrite smap_get_set_other in Hget by assumption. eauto.
Qed.

Lemma initializeShips_inv st0 shipGroups globalTimeRange :
  let st := TSC.initializeShips st0 shipGroups globalTimeRange in
  NoDup (SMap.keys (TSC.ships st)) /\
  (forall k w, SMap.get (TSC.ships st) k = Some w -> window_ok w).
Proof.
  assert (H : NoDup (SMap.keys (TSC.load_ships shipGroups [])) /\
              (forall k w, SMap.get (TSC.load_ships shipGroups []) k = Some w ->
                           window_ok w)).
  { apply load_ships_inv; [constructor|intros k w [=]]. }
  unfold TSC.initializeShips.
  destruct globalTimeRange as [[a b]|];
    repeat match goal with
           | |- context [if ?c then _ else _] => destruct c
           | |- context [match TSC.load_ships ?e ?a with _ => _ end] =>
               destruct (TSC.load_ships e a) eqn:?
           end; simpl; exact H.
Qed.

Lemma active_loop_In time entries mmsi :
  In mmsi (TSC.active_loop time entries) <->
  exists w, In (mmsi, w) entries /\
            date_lt time (TSC.startTime w) = false /\
            date_gt time (TSC.endTime w) = false.
Proof.
  induction entries as [|[k w] rest IH]; simpl.
  - split; [intros []|intros (w & [] & _)].
  - destruct (date_lt time (TSC.startTime w)) eqn:E1;
      [|destruct (date_gt time (TSC.endTime w)) eqn:E2]; simpl; rewrite ?IH.
    + split.
      * intros (w' & Hin & H). exists w'. split; [now right|exact H].
      * intros (w' & [[= -> ->]|Hin] & H1 & H2); [congruence|].
        exists w'. auto.
    + split.
      * intros (w' & Hin & H). exists w'. split; [now right|exact H].
      * intros (w' & [[= -> ->]|Hin] & H1 & H2); [congruence|].
        exists w'. auto.
    + split.
      * intros [->|(w' & Hin & H)].
        -- exists w. auto.
        -- exists w'. split; [now right|exact H].
      * intros (w' & [[= -> ->]|Hin] & H1 & H2); [now left|].
        right. exists w'. auto.
Qed.

(** Claim C1.  After [initializeShips], for an entity of the registry with
    window [s, e] and a query time that resolves to the valid instant [t],
    the id is in [getActiveShipsAtTime] exactly when [s <= t <= e]. *)
Theorem getActiveShipsAtTime_iff_window :
  forall st0 shipGroups globalTimeRange mmsi w currentTime t,
    SMap.get (TSC.ships (TSC.initializeShips st0 shipGroups globalTimeRange)) mmsi
      = Some w ->
    TSC.resolve_time currentTime = Some (ValidDate t) ->
    exists s e,
      TSC.startTime w = ValidDate s /\ TSC.endTime w = ValidDate e /\ s <= e /\
      (In mmsi (TSC.getActiveShipsAtTime
                  (TSC.initializeShips st0 shipGroups globalTimeRange) currentTime)
       <-> s <= t <= e).
Proof.
  intros st0 shipGroups globalTimeRange mmsi w currentTime t Hget Ht.
  destruct (initializeShips_inv st0 shipGroups globalTimeRange) as [Hnd Hok].
  destruct (Hok _ _ Hget) as (s & e & Hs & He & Hse).
  exists s, e. split; [exact Hs|]. split; [exact He|]. split; [exact Hse|].
  unfold TSC.getActiveShipsAtTime. rewrite Ht. rewrite active_loop_In. split.
  - intros (w' & Hin & H1 & H2).
    apply (smap_In_get _ _ _ Hnd) in Hin. rewrite Hget in Hin.
    injection Hin as <-. rewrite Hs in H1. rewrite He in H2.
    unfold date_gt in H2. simpl in H1, H2.
    apply Z.ltb_ge in H1. apply Z.ltb_ge in H2. lia.
  - intros [H1 H2]. exists w. split; [now apply smap_get_In|].
    rewrite Hs, He. unfold date_gt. simpl. split; apply Z.ltb_ge; lia.
Qed.

(** The range derived from the entities is in order, and the clock starts
    at its lower end. *)
Lemma derived_range_ordered st0 shipGroups :
  TSC.ships (TSC.initializeShips st0 shipGroups None) <> [] ->
  exists s e,
    TSC.globalStartTime (TSC.initializeShips st0 shipGroups None)
      = Some (ValidDate s) /\
    TSC.globalEndTime (TSC.initializeShips st0 shipGroups None)
      = Some (ValidDate e) /\
    TSC.currentTime (TSC.initializeShips st0 shipGroups None)
      = Some (ValidDate s) /\
    s <= e.
Proof.
  destruct (initializeShips_inv st0 shipGroups None) as [Hnd Hok].
  unfold TSC.initializeShips in *. cbn [TSC.ships] in *.
  destruct (TSC.load_ships shipGroups []) as [|[k w] rest] eqn:El;
    [intros H; now elim H|intros _].
  assert (Hall : forall k' w', In (k', w') ((k, w) :: rest) -> window_ok w').
  { intros k' w' Hin. apply (Hok k'). now apply smap_In_get. }
  destruct (Hall k w (or_introl eq_refl)) as (x & y & Hx & Hy & Hxy).
  assert (Hstarts : Forall (fun d => date_isNaN d = false)
                      (map (fun e => TSC.startTime (snd e)) rest)).
  { apply Forall_forall. intros d Hd. apply in_map_iff in Hd.
    destruct Hd as ([k' w'] & <- & Hin).
    destruct (Hall k' w' (or_intror Hin)) as (a & b & Ha & _). simpl.
    now rewrite Ha. }
  assert (Hends : Forall (fun d => date_isNaN d = false)
                    (map (fun e => TSC.endTime (snd e)) rest)).
  { apply Forall_forall. intros d Hd. apply in_map_iff in Hd.
    destruct Hd as ([k' w'] & <- & Hin).
    destruct (Hall k' w' (or_intror Hin)) as (a & b & _ & Hb & _). simpl.
    now rewrite Hb. }
  cbn [map snd TSC.min_dates TSC.max_dates TSC.globalStartTime
       TSC.globalEndTime TSC.currentTime].
  rewrite Hx, Hy.
  destruct (fold_date_min_valid x Hstarts) as (s & Hs & Hsx & _).
  destruct (fold_date_max_valid y Hends) as (e & He & Hye & _).
  rewrite Hs, He. exists s, e. repeat split; lia.
Qed.

(** Claim C5.  For a time that resolves to the valid instant [t]:
    with a global range [s, e] ([s <= e]) [updateTime] leaves
    [currentTime] at [t] clamped into the range; with no global range it
    stores [t]; and one hour past the global end gives the global end. *)
Theorem updateTime_clamps :
  forall st : TSC.State,
    (forall newTime t s e,
       TSC.resolve_time newTime = Some (ValidDate t) ->
       TSC.globalStartTime st = Some (ValidDate s) ->
       TSC.globalEndTime st = Some (ValidDate e) ->
       s <= e ->
       TSC.currentTime (TSC.updateTime st newTime)
         = Some (ValidDate (Z.max s (Z.min t e))) /\
       (s <= t <= e ->
        TSC.currentTime (TSC.updateTime st newTime) = Some (ValidDate t))) /\
    (forall newTime t,
       TSC.resolve_time newTime = Some (ValidDate t) ->
       TSC.globalStartTime st = None ->
       TSC.globalEndTime st = None ->
       TSC.currentTime (TSC.updateTime st newTime) = Some (ValidDate t)) /\
    (forall s e,
       TSC.globalStartTime st = Some (ValidDate s) ->
       TSC.globalEndTime st = Some (ValidDate e) ->
       s <= e ->
       TSC.currentTime (TSC.updateTime st (at_ms (e + 3600000)))
         = Some (ValidDate e)).
Proof.
  intros st.
  assert (Hmain : forall newTime t s e,
             TSC.resolve_time newTime = Some (ValidDate t) ->
             TSC.globalStartTime st = Some (ValidDate s) ->
             TSC.globalEndTime st = Some (ValidDate e) ->
             s <= e ->
             TSC.currentTime (TSC.updateTime st newTime)
             = Some (ValidDate (Z.max s (Z.min t e)))).
  { intros newTime t s e Ht Hs He Hse. unfold TSC.updateTime.
    rewrite Ht, Hs, He. unfold date_gt. simpl.
    destruct (Z.ltb_spec t s); simpl.
    - do 2 f_equal. lia.
    - destruct (Z.ltb_spec e t); simpl.
      + do 2 f_equal. lia.
      + do 2 f_equal. lia. }
  split; [|split].
  - intros newTime t s e Ht Hs He Hse. split.
    + now apply Hmain.
    + intros Hin. rewrite (Hmain newTime t s e) by assumption.
      do 2 f_equal. lia.
  - intros newTime t Ht Hs He. unfold TSC.updateTime.
    rewrite Ht, Hs, He. reflexivity.
  - intros s e Hs He Hse.
    rewrite (Hmain (at_ms (e + 3600000)) (e + 3600000) s e);
      [do 2 f_equal; lia|reflexivity|assumption|assumption|assumption].
Qed.

End RegistryFacts.

(** The first entity of [Demo.groups] has the window [1000, 5000]. *)
Lemma getActiveShipsAtTime_iff_window_witness :
  exists s e,
    ValidDate 1000 = ValidDate s /\ ValidDate 5000 = ValidDate e /\ s <= e /\
    (In "412000001"
        (TSC.getActiveShipsAtTime (host := UtcHost.utc_host) Demo.registry
           (at_ms 2000))
     <-> s <= 2000 <= e).
Proof.
  apply (getActiveShipsAtTime_iff_window (host := UtcHost.utc_host)
           TSC.create Demo.groups None "412000001"
           (w := TSC.mkShipTimes (ValidDate 1000) (ValidDate 5000))
           (at_ms 2000));
    reflexivity.
Defined.

Lemma updateTime_clamps_witness :
  TSC.currentTime
    (TSC.updateTime (host := UtcHost.utc_host) Demo.registry (at_ms 12000))
    = Some (ValidDate (Z.max 1000 (Z.min 12000 9000))) /\
  TSC.currentTime (TSC.updateTime (host := UtcHost.utc_host) TSC.create (at_ms 7))
    = Some (ValidDate 7) /\
  TSC.currentTime
    (TSC.updateTime (host := UtcHost.utc_host) Demo.registry
       (at_ms (9000 + 3600000)))
    = Some (ValidDate 9000).
Proof.
  split; [|split].
  - apply (proj1 (updateTime_clamps (host := UtcHost.utc_host) Demo.registry)
             (at_ms 12000) 12000 1000 9000);
      [reflexivity|reflexivity|reflexivity|lia].
  - apply (proj1 (proj2 (updateTime_clamps (host := UtcHost.utc_host) TSC.create))
             (at_ms 7) 7); reflexivity.
  - apply (proj2 (proj2 (updateTime_clamps (host := UtcHost.utc_host)
                           Demo.registry))
             1000 9000); [reflexivity|reflexivity|lia].
Defined.

(** ** The two time parsers *)

Section ParserFacts.
Context {host : Host}.

Lemma store_parseTime_valid x d :
  parseTime x = Some d -> exists ms, d = ValidDate ms.
Proof.
  unfold parseTime. destruct (truthy_time x); simpl; [|discriminate].
  destruct x as [[s|[ms|]]|]; simpl; try discriminate.
  - destruct (_ || _); [discriminate|].
    destruct (Date_parse s) as [ms|]; [|discriminate].
    destruct (_ || _); [discriminate|]. intros [= <-]. now exists ms.
  - intros [= <-]. now exists ms.
Qed.

Lemma store_parseTime_falsy x : truthy_time x = false -> parseTime x = None.
Proof. intros H. unfold parseTime. now rewrite H. Qed.

(** Claim C9.  A non-empty string that the host parses to an instant whose
    calendar year is before 1900 or after 2100 is rejected by the store's
    parser and accepted by the registry's; a point stamped with it counts as
    timestamped for the registry and as having no time for the store. *)
Theorem parseTime_year_gate_store_only :
  forall (s : string) (ms : Z) (point : Point),
    s <> "" ->
    Date_parse s = ValidDate ms ->
    getFullYear ms < 1900 \/ 2100 < getFullYear ms ->
    parseTime (Some (TStr s)) = None /\
    TSC.parseTime (Some (TStr s)) = Some (ValidDate ms) /\
    (Pt.postime point = Some (TStr s) ->
     TSC.has_valid_time point = true /\ end_time point = None).
Proof.
  intros s ms point Hs Hparse Hyear.
  assert (Htruthy : truthy_time (Some (TStr s)) = true).
  { simpl. now destruct (String.eqb_spec s ""). }
  assert (Hstore : parseTime (Some (TStr s)) = None).
  { unfold parseTime. rewrite Htruthy. simpl.
    destruct (_ || _); [reflexivity|]. rewrite Hparse.
    destruct (Z.ltb_spec (getFullYear ms) 1900);
      destruct (Z.ltb_spec 2100 (getFullYear ms)); simpl; try reflexivity; lia. }
  assert (Hreg : TSC.parseTime (Some (TStr s)) = Some (ValidDate ms)).
  { unfold TSC.parseTime. rewrite Htruthy. simpl. now rewrite Hparse. }
  split; [exact Hstore|]. split; [exact Hreg|].
  intros Hpt. split.
  - unfold TSC.has_valid_time. rewrite Hpt, Htruthy, Hreg. reflexivity.
  - unfold end_time. rewrite Hpt, Htruthy, Hstore. reflexivity.
Qed.

End ParserFacts.

Lemma parseTime_year_gate_store_only_witness :
  parseTime (host := UtcHost.utc_host) (Some (TStr "1800-06-15T12:00:00Z")) = None /\
  TSC.parseTime (host := UtcHost.utc_host) (Some (TStr "1800-06-15T12:00:00Z"))
    = Some (ValidDate (-5350363200000)) /\
  (Pt.postime (point_at 120 30 (Some (TStr "1800-06-15T12:00:00Z")))
     = Some (TStr "1800-06-15T12:00:00Z") ->
   TSC.has_valid_time (host := UtcHost.utc_host)
     (point_at 120 30 (Some (TStr "1800-06-15T12:00:00Z"))) = true /\
   end_time (host := UtcHost.utc_host)
     (point_at 120 30 (Some (TStr "1800-06-15T12:00:00Z"))) = None).
Proof.
  apply (parseTime_year_gate_store_only (host := UtcHost.utc_host)
           (s := "1800-06-15T12:00:00Z") (ms := -5350363200000)
           (point_at 120 30 (Some (TStr "1800-06-15T12:00:00Z")))).
  - discriminate.
  - vm_compute. reflexivity.
  - left. vm_compute. reflexivity.
Defined.

(** ** Visibility in the store *)

Section VisibilityFacts.
Context {host : Host}.

Lemma visible_loop_open_ended time entries mmsi ship :
  In (mmsi, ship) entries ->
  startTime ship = None \/ endTime ship = None ->
  In mmsi (visible_loop time entries).
Proof.
  intros Hin Hnull. induction entries as [|[k v] rest IH]; [contradiction|].
  simpl. destruct Hin as [[= -> ->]|Hin].
  - destruct Hnull as [H|H]; rewrite H.
    + now left.
    + destruct (startTime ship); now left.
  - specialize (IH Hin).
    destruct (startTime v); [|now right].
    destruct (endTime v); [|now right].
    destruct time; [|now right].
    destruct (_ && _); [now right|exact IH].
Qed.

(** Claim C10.  In multi mode every entity of the store whose [startTime] or
    [endTime] is null is in [getAllVisibleShipsAtTime] at every query time;
    for the entity of [Demo.open_ended_groups] this includes the instant 5000,
    at which the registry does not list it as active. *)
Theorem getAllVisibleShipsAtTime_open_ended :
  (forall st mmsi ship currentTime selectedShipId,
     SMap.get (ships st) mmsi = Some ship ->
     startTime ship = None \/ endTime ship = None ->
     In mmsi (getAllVisibleShipsAtTime st currentTime "multi" selectedShipId)) /\
  (exists ship,
     SMap.get (ships (initializeShips [] Demo.open_ended_groups)) "412000003"
       = Some ship /\
     startTime ship = Some (ValidDate 1000) /\
     endTime ship = None /\
     ~ In "412000003"
         (TSC.getActiveShipsAtTime
            (TSC.initializeShips TSC.create Demo.open_ended_groups None) (at_ms 5000)) /\
     In "412000003"
        (getAllVisibleShipsAtTime (initializeShips [] Demo.open_ended_groups)
           (at_ms 5000) "multi" None)).
Proof.
  split.
  - intros st mmsi ship currentTime selectedShipId Hget Hnull.
    unfold getAllVisibleShipsAtTime. simpl.
    eapply visible_loop_open_ended; [apply smap_get_In; eassumption|assumption].
  - eexists. split; [reflexivity|]. simpl.
    split; [reflexivity|]. split; [reflexivity|]. split.
    + unfold TSC.getActiveShipsAtTime, TSC.initializeShips, Demo.open_ended_groups.
      cbn [TSC.load_ships TSC.ship_window filter TSC.has_valid_time
           TSC.parseTime Pt.postime point_at at_ms truthy_time negb
           date_isNaN map TSC.keep_valid List.length].
      destruct (spreadable 1); vm_compute; intros [].
    + vm_compute. now left.
Qed.

End VisibilityFacts.

Lemma getAllVisibleShipsAtTime_open_ended_witness :
  In "412000003"
     (getAllVisibleShipsAtTime (host := UtcHost.utc_host)
        (initializeShips (host := UtcHost.utc_host) [] Demo.open_ended_groups)
        (at_ms 777777) "multi" None).
Proof.
  eapply (proj1 (getAllVisibleShipsAtTime_open_ended (host := UtcHost.utc_host))).
  - reflexivity.
  - right. reflexivity.
Defined.

(** ** Real arithmetic of the host's [Math] functions *)

Open Scope R_scope.

Lemma Reqb_refl r : Reqb r r = true.
Proof. unfold Reqb. destruct (Req_dec_T r r); [reflexivity|contradiction]. Qed.

Lemma Reqb_true a b : Reqb a b = true <-> a = b.
Proof. unfold Reqb. destruct (Req_dec_T a b); split; congruence. Qed.

Lemma Reqb_false a b : Reqb a b = false <-> a <> b.
Proof. unfold Reqb. destruct (Req_dec_T a b); split; congruence. Qed.

Lemma truthyR_0 : truthyR 0 = false.
Proof. unfold truthyR. now rewrite Reqb_refl. Qed.

Lemma truthyR_nonzero r : r <> 0 -> truthyR r = true.
Proof. intros H. unfold truthyR. apply Reqb_false in H. now rewrite H. Qed.

Lemma truthyR_true r : truthyR r = true <-> r <> 0.
Proof.
  unfold truthyR. rewrite negb_true_iff. apply Reqb_false.
Qed.

(** [r || 0] is [r]. *)
Lemma or0_some_none r : or0 (Some r) None = r.
Proof.
  unfold or0. simpl. unfold truthyR.
  destruct (Reqb r 0) eqn:E; simpl; [|reflexivity].
  apply Reqb_true in E. now subst.
Qed.

Lemma lng_of_point_at lon lat t : lng_of (point_at lon lat t) = lon.
Proof. apply or0_some_none. Qed.

Lemma lat_of_point_at lon lat t : lat_of (point_at lon lat t) = lat.
Proof. apply or0_some_none. Qed.

Lemma atan_nonpos x : x <= 0 -> atan x <= 0.
Proof.
  intros [H | ->]; [|rewrite atan_0; lra].
  left. rewrite <- atan_0. now apply atan_increasing.
Qed.

Lemma atan_pos x : 0 < x -> 0 < atan x.
Proof. intros H. rewrite <- atan_0. now apply atan_increasing. Qed.

Lemma atan2_bound y x : - PI < atan2 y x <= PI.
Proof.
  pose proof PI_RGT_0 as Hpi. unfold atan2.
  destruct (Rlt_dec 0 x) as [Hx|Hx].
  - pose proof (atan_bound (y / x)). lra.
  - destruct (Rlt_dec x 0) as [Hx'|Hx'].
    + assert (Hinv : / x < 0) by now apply Rinv_lt_0_compat.
      destruct (Rle_dec 0 y) as [Hy|Hy].
      * assert (y / x <= 0) by (unfold Rdiv; nra).
        pose proof (atan_nonpos H). pose proof (atan_bound (y / x)). lra.
      * assert (0 < y / x) by (unfold Rdiv; nra).
        pose proof (atan_pos H). pose proof (atan_bound (y / x)). lra.
    + destruct (Rlt_dec 0 y); [lra|]. destruct (Rlt_dec y 0); lra.
Qed.

Lemma Ztrunc_nonneg x : 0 <= x -> Ztrunc x = Zfloor x.
Proof. intros H. unfold Ztrunc. destruct (Rle_dec 0 x); [reflexivity|lra]. Qed.

Lemma js_rem_range x m : 0 <= x -> 0 < m -> 0 <= js_rem x m < m.
Proof.
  intros Hx Hm. unfold js_rem.
  assert (Hq : 0 <= x / m).
  { unfold Rdiv. apply Rmult_le_pos; [exact Hx|]. left. now apply Rinv_0_lt_compat. }
  rewrite (Ztrunc_nonneg Hq).
  pose proof (Zfloor_bound (x / m)) as [Hlo Hhi].
  assert (Hxm : x = x / m * m) by (field; lra).
  split; nra.
Qed.

(** One turn too many is taken off again. *)
Lemma js_rem_one_turn x m : 0 <= x < m -> js_rem (x + m) m = x.
Proof.
  intros [Hx Hm]. unfold js_rem.
  assert (Hq : 0 <= (x + m) / m).
  { unfold Rdiv. apply Rmult_le_pos; [lra|]. left. apply Rinv_0_lt_compat. lra. }
  rewrite (Ztrunc_nonneg Hq).
  assert (Hfl : Zfloor ((x + m) / m) = 1%Z).
  { apply Zfloor_eq.
    assert (Hd : (x + m) / m = x / m + 1) by (field; lra).
    rewrite Hd.
    assert (0 <= x / m < 1).
    { split.
      - unfold Rdiv. apply Rmult_le_pos; [lra|]. left. apply Rinv_0_lt_compat. lra.
      - apply (Rmult_lt_reg_r m); [lra|]. unfold Rdiv.
        rewrite Rmult_assoc, Rinv_l by lra. lra. }
    simpl. lra. }
  rewrite Hfl. simpl. lra.
Qed.

(** ** Bearing *)

Lemma calculateDirection_range point1 point2 :
  0 <= calculateDirection point1 point2 < 360.
Proof.
  unfold calculateDirection.
  destruct (_ && _); [lra|].
  pose proof PI_RGT_0 as Hpi.
  match goal with |- context [atan2 ?y ?x] =>
    pose proof (atan2_bound y x) as [Hlo Hhi]; set (a := atan2 y x) in *
  end.
  apply js_rem_range; [|lra].
  assert (- 180 < a * 180 / PI).
  { apply (Rmult_lt_reg_r PI); [lra|].
    replace (a * 180 / PI * PI) with (a * 180) by (field; lra). lra. }
  lra.
Qed.

Lemma calculateDirection_same point1 point2 :
  lng_of point1 = lng_of point2 -> lat_of point1 = lat_of point2 ->
  calculateDirection point1 point2 = 0.
Proof.
  intros H1 H2. unfold calculateDirection.
  rewrite H1, H2, !Reqb_refl. reflexivity.
Qed.

Lemma calculateDirection_north t1 t2 :
  calculateDirection (point_at 0 0 t1) (point_at 0 1 t2) = 0.
Proof.
  unfold calculateDirection. rewrite !lng_of_point_at, !lat_of_point_at.
  assert (E : Reqb 0 1 = false) by (apply Reqb_false; lra).
  rewrite E, andb_false_r.
  assert (Z0 : 0 * PI / 180 = 0) by lra.
  assert (Z1 : (0 - 0) * PI / 180 = 0) by lra.
  assert (Z2 : 1 * PI / 180 = PI / 180) by lra.
  rewrite Z0, Z1, Z2, sin_0, cos_0.
  pose proof PI_RGT_0 as Hpi.
  assert (Hs : 0 < sin (PI / 180)) by (apply sin_gt_0; lra).
  match goal with |- context [atan2 ?y _] => replace y with 0 by ring end.
  match goal with |- context [atan2 _ ?x] =>
    replace x with (sin (PI / 180)) by ring
  end.
  unfold atan2. destruct (Rlt_dec 0 (sin (PI / 180))); [|contradiction].
  assert (Z3 : 0 / sin (PI / 180) = 0) by (unfold Rdiv; ring).
  rewrite Z3, atan_0.
  replace (0 * 180 / PI + 360) with (0 + 360) by (unfold Rdiv; ring).
  apply js_rem_one_turn. lra.
Qed.

Lemma calculateDirection_east t1 t2 :
  calculateDirection (point_at 0 0 t1) (point_at 1 0 t2) = 90.
Proof.
  unfold calculateDirection. rewrite !lng_of_point_at, !lat_of_point_at.
  assert (E : Reqb 0 1 = false) by (apply Reqb_false; lra).
  rewrite E. cbv [andb].
  assert (Z0 : 0 * PI / 180 = 0) by lra.
  assert (Z1 : (1 - 0) * PI / 180 = PI / 180) by lra.
  rewrite Z0, Z1, sin_0, cos_0.
  pose proof PI_RGT_0 as Hpi.
  assert (Hs : 0 < sin (PI / 180)) by (apply sin_gt_0; lra).
  match goal with |- context [atan2 _ ?x] => replace x with 0 by ring end.
  match goal with |- context [atan2 ?y _] =>
    replace y with (sin (PI / 180)) by ring
  end.
  unfold atan2.
  destruct (Rlt_dec 0 0); [lra|].
  destruct (Rlt_dec 0 (sin (PI / 180))); [|contradiction].
  replace (PI / 2 * 180 / PI + 360) with (90 + 360) by (field; lra).
  apply js_rem_one_turn. lra.
Qed.

(** Due south along a meridian. *)
Lemma calculateDirection_south t1 t2 :
  calculateDirection (point_at 120 31 t1) (point_at 120 30 t2) = 180.
Proof.
  unfold calculateDirection. rewrite !lng_of_point_at, !lat_of_point_at.
  assert (E : Reqb 31 30 = false) by (apply Reqb_false; lra).
  rewrite E, andb_false_r.
  assert (Z0 : (120 - 120) * PI / 180 = 0) by lra.
  rewrite Z0, sin_0, cos_0.
  pose proof PI_RGT_0 as Hpi.
  assert (Hs : 0 < sin (PI / 180)) by (apply sin_gt_0; lra).
  assert (Hx : cos (31 * PI / 180) * sin (30 * PI / 180)
               - sin (31 * PI / 180) * cos (30 * PI / 180) * 1
               = - sin (PI / 180)).
  { rewrite <- sin_neg.
    replace (- (PI / 180)) with (30 * PI / 180 - 31 * PI / 180) by lra.
    rewrite sin_minus. ring. }
  match goal with |- context [atan2 ?y _] => replace y with 0 by ring end.
  rewrite Hx. unfold atan2.
  destruct (Rlt_dec 0 (- sin (PI / 180))); [lra|].
  destruct (Rlt_dec (- sin (PI / 180)) 0); [|lra].
  destruct (Rle_dec 0 0); [|lra].
  assert (Z3 : 0 / - sin (PI / 180) = 0) by (unfold Rdiv; ring).
  rewrite Z3, atan_0.
  replace ((0 + PI) * 180 / PI + 360) with (180 + 360) by (field; lra).
  apply js_rem_one_turn. lra.
Qed.

(** Claim C6.  The bearing of any two points is in [0, 360); it is 0 when
    the two points have the same coordinates; from (lat 0, lon 0) it is 0
    toward (lat 1, lon 0) and 90 toward (lat 0, lon 1). *)
Theorem calculateDirection_bearing :
  (forall point1 point2 : Point,
     0 <= calculateDirection point1 point2 < 360 /\
     (lng_of point1 = lng_of point2 /\ lat_of point1 = lat_of point2 ->
      calculateDirection point1 point2 = 0)) /\
  (forall lon lat t1 t2,
     calculateDirection (point_at lon lat t1) (point_at lon lat t2) = 0) /\
  calculateDirection (point_at 0 0 None) (point_at 0 1 None) = 0 /\
  calculateDirection (point_at 0 0 None) (point_at 1 0 None) = 90.
Proof.
  split; [|split; [|split]].
  - intros point1 point2. split.
    + apply calculateDirection_range.
    + intros [H1 H2]. now apply calculateDirection_same.
  - intros lon lat t1 t2. apply calculateDirection_same.
    + now rewrite !lng_of_point_at.
    + now rewrite !lat_of_point_at.
  - apply calculateDirection_north.
  - apply calculateDirection_east.
Qed.

Lemma calculateDirection_bearing_witness :
  calculateDirection (point_at 7 3 None) (point_at 7 3 (at_ms 5)) = 0.
Proof.
  apply (proj2 (proj1 calculateDirection_bearing
                  (point_at 7 3 None) (point_at 7 3 (at_ms 5)))).
  split; reflexivity.
Defined.

Close Scope R_scope.

(** ** Sorting in [addShip] *)

Lemma key_le_total a b : key_le a b \/ key_le b a.
Proof. destruct a, b; simpl; auto; lia. Qed.

Lemma key_le_trans a b c : key_le a b -> key_le b c -> key_le a c.
Proof. destruct a, b, c; simpl; auto; try lia; contradiction. Qed.

Section SortFacts.
Context {host : Host}.

Lemma parseTime_key point :
  parseTime (Pt.postime point) = option_map ValidDate (time_key point).
Proof.
  unfold time_key.
  destruct (parseTime (Pt.postime point)) as [d|] eqn:E; [|reflexivity].
  destruct (store_parseTime_valid _ E) as [ms ->]. reflexivity.
Qed.

Lemma end_time_key point :
  end_time point = option_map ValidDate (time_key point).
Proof.
  unfold end_time. destruct (truthy_time (Pt.postime point)) eqn:E.
  - rewrite parseTime_key. now destruct (time_key point).
  - unfold time_key. now rewrite (store_parseTime_falsy _ E).
Qed.

(** The comparator is positive exactly when the first key is the later. *)
Lemma comes_after_false a b : comes_after a b = false <-> point_le a b.
Proof.
  unfold comes_after, compare_points, point_le.
  rewrite !parseTime_key.
  destruct (time_key a) as [x|], (time_key b) as [y|]; simpl.
  - rewrite Z.ltb_ge. lia.
  - intuition.
  - intuition discriminate.
  - intuition.
Qed.

Lemma comes_after_true a b : comes_after a b = true -> point_le b a.
Proof.
  intros H. destruct (key_le_total (time_key b) (time_key a)) as [|Hab]; [assumption|].
  apply comes_after_false in Hab. congruence.
Qed.

Lemma insert_point_In x l y : In y (insert_point x l) <-> y = x \/ In y l.
Proof.
  induction l as [|z l IH]; simpl; [intuition|].
  destruct (comes_after x z); simpl; [rewrite IH|]; intuition.
Qed.

Lemma insert_point_length x l : length (insert_point x l) = S (length l).
Proof.
  induction l as [|z l IH]; simpl; [reflexivity|].
  destruct (comes_after x z); simpl; [now rewrite IH|reflexivity].
Qed.

Lemma sort_points_length l : length (sort_points l) = length l.
Proof.
  induction l as [|x l IH]; simpl; [reflexivity|].
  now rewrite insert_point_length, IH.
Qed.

Lemma sort_points_In l y : In y (sort_points l) <-> In y l.
Proof.
  induction l as [|x l IH]; simpl; [reflexivity|].
  rewrite insert_point_In, IH. intuition.
Qed.

Lemma insert_point_sorted x l :
  StronglySorted point_le l -> StronglySorted point_le (insert_point x l).
Proof.
  induction l as [|z l IH]; simpl; intros Hs.
  - constructor; constructor.
  - inversion Hs as [|? ? Hl Hz]; subst.
    destruct (comes_after x z) eqn:E.
    + constructor; [now apply IH|].
      apply Forall_forall. intros y Hy. apply insert_point_In in Hy.
      destruct Hy as [->|Hy]; [now apply comes_after_true|].
      rewrite Forall_forall in Hz. now apply Hz.
    + apply comes_after_false in E. constructor; [assumption|].
      constructor; [assumption|].
      rewrite Forall_forall in Hz |- *. intros y Hy.
      eapply key_le_trans; [exact E|now apply Hz].
Qed.

Lemma sort_points_sorted l : StronglySorted point_le (sort_points l).
Proof.
  induction l as [|x l IH]; simpl; [constructor|now apply insert_point_sorted].
Qed.

(** When no point has a time stamp the order is left alone, and is sorted
    for the trivial reason. *)
Lemma untimed_sorted l :
  existsb (fun point => truthy_time (Pt.postime point)) l = false ->
  StronglySorted point_le l.
Proof.
  induction l as [|x l IH]; simpl; intros H; [constructor|].
  apply orb_false_iff in H. destruct H as [Hx Hl].
  assert (Hkey : forall y, truthy_time (Pt.postime y) = false -> time_key y = None).
  { intros y Hy. unfold time_key. now rewrite (store_parseTime_falsy _ Hy). }
  constructor; [now apply IH|].
  apply Forall_forall. intros y Hy. unfold point_le. rewrite (Hkey x Hx).
  assert (Hy' : truthy_time (Pt.postime y) = false).
  { clear -Hl Hy. induction l as [|z l IH]; [contradiction|].
    simpl in Hl. apply orb_false_iff in Hl. destruct Hl as [Hz Hl].
    destruct Hy as [->|Hy]; [assumption|now apply IH]. }
  now rewrite (Hkey y Hy').
Qed.

Lemma sorted_nth (l : list Point) d :
  StronglySorted point_le l ->
  forall i j, (i < j)%nat -> (j < length l)%nat ->
              point_le (nth i l d) (nth j l d).
Proof.
  induction 1 as [|x l Hs IH Hx]; intros i j Hij Hj; [simpl in Hj; lia|].
  destruct j as [|j]; [lia|]. simpl in Hj.
  destruct i as [|i]; simpl.
  - rewrite Forall_forall in Hx. apply Hx. apply nth_In. lia.
  - apply IH; lia.
Qed.

Lemma last_nth (l : list Point) d : last l d = nth (length l - 1) l d.
Proof.
  induction l as [|x l IH]; [reflexivity|].
  destruct l as [|y l]; [reflexivity|].
  change (last (x :: y :: l) d) with (last (y :: l) d). rewrite IH.
  simpl. now rewrite Nat.sub_0_r.
Qed.

Lemma last_default (l : list Point) x d d' : last (x :: l) d = last (x :: l) d'.
Proof.
  revert x. induction l as [|y l IH]; intros x; [reflexivity|].
  change (last (y :: l) d = last (y :: l) d'). apply IH.
Qed.

(** ** What [addShip] stores *)

Lemma addShip_ok st mmsi data :
  (forall k ship, SMap.get (ships st) k = Some ship -> ship_ok ship) ->
  forall k ship, SMap.get (ships (addShip st mmsi data)) k = Some ship ->
                 ship_ok ship.
Proof.
  intros Hst k ship. unfold addShip.
  destruct (String.eqb mmsi ""); [apply Hst|].
  destruct data as [[|p0 ps]|]; try apply Hst.
  set (sorted := if existsb (fun point => truthy_time (Pt.postime point)) (p0 :: ps)
                 then sort_points (p0 :: ps) else p0 :: ps).
  assert (Hlen : length sorted = S (length ps)).
  { subst sorted. destruct (existsb _ _); [|reflexivity].
    now rewrite sort_points_length. }
  assert (Hsorted : StronglySorted point_le sorted).
  { subst sorted.
    destruct (existsb (fun point => truthy_time (Pt.postime point)) (p0 :: ps))
      eqn:Ex; [apply sort_points_sorted|now apply untimed_sorted]. }
  clearbody sorted.
  destruct (getShipColor _ _) as [c colors']. simpl.
  destruct (string_dec k mmsi) as [->|Hne].
  - rewrite smap_get_set_same. intros [= <-].
    destruct sorted as [|q0 qs]; [discriminate|].
    exists q0, qs. simpl. repeat split; [assumption|].
    f_equal. apply last_default.
  - rewrite smap_get_set_other by assumption. apply Hst.
Qed.

Lemma add_all_ok entries :
  forall st,
    (forall k ship, SMap.get (ships st) k = Some ship -> ship_ok ship) ->
    forall k ship, SMap.get (ships (add_all entries st)) k = Some ship ->
                   ship_ok ship.
Proof.
  induction entries as [|[mmsi d] rest IH]; intros st Hst; simpl; [exact Hst|].
  destruct d as [[|p ps]|]; try (apply IH; exact Hst).
  apply IH. now apply addShip_ok.
Qed.

Lemma initializeShips_ok colors shipGroups k ship :
  SMap.get (ships (initializeShips colors shipGroups)) k = Some ship ->
  ship_ok ship.
Proof.
  apply add_all_ok. intros k' s [=].
Qed.

End SortFacts.

(** ** The search loop *)

Lemma mid_between l r :
  (l < r - 1)%nat -> (l < (l + r) / 2 < r)%nat.
Proof.
  intros H.
  pose proof (Nat.div_mod_eq (l + r) 2) as Hd.
  pose proof (Nat.mod_upper_bound (l + r) 2) as Hm.
  lia.
Qed.

Section SearchFacts.
Context {host : Host}.

(** The loop ends within its fuel, on two neighbouring indices between the
    ones it started from. *)
Lemma search_loop_done trajectory p0 time fuel :
  forall l r,
    (l < r)%nat -> (r - l <= fuel)%nat ->
    (l <= fst (search_loop fuel trajectory p0 time l r))%nat /\
    (snd (search_loop fuel trajectory p0 time l r) <= r)%nat /\
    snd (search_loop fuel trajectory p0 time l r)
      = S (fst (search_loop fuel trajectory p0 time l r)).
Proof.
  induction fuel as [|fuel IH]; intros l r Hlr Hfuel; [lia|].
  cbn [search_loop]. destruct (Nat.ltb_spec l (r - 1)) as [Hlt|Hge].
  - pose proof (@mid_between l r Hlt) as [Hm1 Hm2].
    assert (Hleft : forall res,
               (l <= fst res)%nat /\ (snd res <= (l + r) / 2)%nat /\
               snd res = S (fst res) ->
               (l <= fst res)%nat /\ (snd res <= r)%nat /\ snd res = S (fst res))
      by (intros res; lia).
    assert (Hright : forall res,
               ((l + r) / 2 <= fst res)%nat /\ (snd res <= r)%nat /\
               snd res = S (fst res) ->
               (l <= fst res)%nat /\ (snd res <= r)%nat /\ snd res = S (fst res))
      by (intros res; lia).
    destruct (parseTime _) as [midTime|].
    + destruct (date_le midTime time).
      * apply Hright, IH; lia.
      * apply Hleft, IH; lia.
    + apply Hright, IH; lia.
  - simpl. lia.
Qed.

(** On a trajectory where every point has a time, the loop keeps the query
    time between the times of its two indices. *)
Lemma search_loop_brackets trajectory p0 t fuel :
  (forall i, (i < length trajectory)%nat ->
             exists k, time_key (nth i trajectory p0) = Some k) ->
  forall l r a b,
    (l < r)%nat -> (r < length trajectory)%nat ->
    time_key (nth l trajectory p0) = Some a -> a <= t ->
    time_key (nth r trajectory p0) = Some b -> t <= b ->
    exists a' b',
      time_key (nth (fst (search_loop fuel trajectory p0 (ValidDate t) l r))
                    trajectory p0) = Some a' /\ a' <= t /\
      time_key (nth (snd (search_loop fuel trajectory p0 (ValidDate t) l r))
                    trajectory p0) = Some b' /\ t <= b'.
Proof.
  intros Hkeys.
  induction fuel as [|fuel IH]; intros l r a b Hlr Hr Ha Hat Hb Htb;
    cbn [search_loop].
  - now exists a, b.
  - destruct (Nat.ltb_spec l (r - 1)) as [Hlt|Hge]; [|now exists a, b].
    pose proof (@mid_between l r Hlt) as [Hm1 Hm2].
    destruct (Hkeys ((l + r) / 2)%nat) as [k Hk]; [lia|].
    rewrite parseTime_key, Hk. cbn [option_map date_le].
    destruct (Z.leb_spec k t).
    + apply (IH _ _ k b); try assumption; lia.
    + apply (IH _ _ a k); try assumption; lia.
Qed.

End SearchFacts.

(** ** The host's arithmetic *)

Open Scope R_scope.

Lemma Fin_inj a b : Fin a = Fin b -> a = b.
Proof. now intros [= ->]. Qed.

Lemma Rabs_le_inv a b : Rabs a <= b -> - b <= a <= b.
Proof. unfold Rabs. destruct (Rcase_abs a); lra. Qed.

Lemma round6R_close x : Rabs (round6R x - x) <= / 2000000.
Proof.
  unfold round6R. destruct (Rle_dec 1e21 (Rabs x)).
  - replace (x - x) with 0 by ring. rewrite Rabs_R0. lra.
  - destruct (Rlt_dec x 0).
    + pose proof (Zfloor_bound (- x * 1000000 + / 2)) as [Hlo Hhi].
      set (z := IZR (Zfloor (- x * 1000000 + / 2))) in *.
      apply Rabs_le. split; lra.
    + pose proof (Zfloor_bound (x * 1000000 + / 2)) as [Hlo Hhi].
      set (z := IZR (Zfloor (x * 1000000 + / 2))) in *.
      apply Rabs_le. split; lra.
Qed.

Lemma round6R_within x : - / 2000000 <= round6R x - x <= / 2000000.
Proof. apply Rabs_le_inv, round6R_close. Qed.

Lemma round6R_eval x z :
  0 <= x -> x < 1e21 ->
  IZR z <= x * 1000000 + / 2 < IZR z + 1 ->
  round6R x = IZR z / 1000000.
Proof.
  intros H0 Hbig Hz. unfold round6R.
  destruct (Rle_dec 1e21 (Rabs x)) as [Hb|_].
  - rewrite Rabs_pos_eq in Hb by assumption. lra.
  - destruct (Rlt_dec x 0); [lra|].
    now rewrite (Zfloor_eq z (x * 1000000 + / 2) Hz).
Qed.

Lemma pow2_53 : 2 ^ 53 = 9007199254740992.
Proof. rewrite pow_IZR. apply f_equal. reflexivity. Qed.

Lemma pow2_1075 : / 2 ^ 1075 <= / 1000000000000000000000.
Proof.
  assert (H : 2 ^ 70 <= 2 ^ 1075) by (apply Rle_pow; [lra|lia]).
  assert (H70 : 2 ^ 70 = 1180591620717411303424).
  { rewrite pow_IZR. apply f_equal. reflexivity. }
  apply Rinv_le_contravar; lra.
Qed.

Lemma clamp_unit q :
  0 <= q <= 1 -> math_max (Fin 0) (math_min (Fin 1) (Fin q)) = Fin q.
Proof.
  intros [H0 H1]. unfold math_max, math_min.
  destruct (Rle_dec 1 q).
  - destruct (Rle_dec 0 1); [|lra]. f_equal. lra.
  - destruct (Rle_dec 0 q); [reflexivity|lra].
Qed.

Section ArithmeticFacts.
Context {host : Host} {ieee : IEEE754 host}.

Lemma fl_0 : fl 0 = 0.
Proof. apply (fl_integer 0). simpl. lia. Qed.

(** Rounding does not cross a whole number. *)
Lemma fl_int_le x z : (Z.abs z <= 2 ^ 53)%Z -> x <= IZR z -> fl x <= IZR z.
Proof. intros Hz Hx. rewrite <- (fl_integer z Hz). now apply fl_monotone. Qed.

Lemma fl_int_ge x z : (Z.abs z <= 2 ^ 53)%Z -> IZR z <= x -> IZR z <= fl x.
Proof. intros Hz Hx. rewrite <- (fl_integer z Hz). now apply fl_monotone. Qed.

Lemma fl_nonneg x : 0 <= x -> 0 <= fl x.
Proof. intros H. apply (@fl_int_ge x 0); [simpl; lia|exact H]. Qed.

Lemma fl_nonpos x : x <= 0 -> fl x <= 0.
Proof. intros H. apply (@fl_int_le x 0); [simpl; lia|exact H]. Qed.

Lemma fl_near x : Rabs x <= 4096 -> Rabs (fl x - x) <= / 1000000000000.
Proof.
  intros Hx. pose proof (fl_error x) as He. pose proof pow2_1075.
  rewrite pow2_53 in He. lra.
Qed.

Lemma fl_within x :
  -4096 <= x <= 4096 ->
  - / 1000000000000 <= fl x - x <= / 1000000000000.
Proof. intros Hx. apply Rabs_le_inv, fl_near, Rabs_le. lra. Qed.

Lemma fl_within_million x :
  -1000000 <= x <= 1000000 ->
  - / 1000000000 <= fl x - x <= / 1000000000.
Proof.
  intros Hx. apply Rabs_le_inv.
  assert (Ha : Rabs x <= 1000000) by (apply Rabs_le; lra).
  pose proof (fl_error x) as He. pose proof pow2_1075.
  rewrite pow2_53 in He. lra.
Qed.

Lemma fl_relative x :
  1 <= Rabs x -> Rabs (fl x - x) <= Rabs x * / 4000000000000000.
Proof.
  intros Hx. pose proof (fl_error x) as He. pose proof pow2_1075.
  rewrite pow2_53 in He. lra.
Qed.

(** The progress the host computes between two time stamps is in [0, 1]
    and next to the exact fraction. *)
Lemma time_fraction_close t t1 t2 :
  (t1 < t < t2)%Z ->
  0 <= time_fraction t t1 t2 <= 1 /\
  - / 500000000000 <= time_fraction t t1 t2 - IZR (t - t1) / IZR (t2 - t1)
    <= / 500000000000.
Proof.
  intros [H1 H2]. unfold time_fraction.
  set (a := IZR (t - t1)). set (b := IZR (t2 - t1)).
  assert (Ha : 1 <= a) by (apply (IZR_le 1); lia).
  assert (Hab : a <= b) by (apply IZR_le; lia).
  assert (Ha1 : 1 <= fl a) by (apply (@fl_int_ge a 1); [simpl; lia|exact Ha]).
  assert (Hfab : fl a <= fl b) by now apply fl_monotone.
  pose proof (@fl_relative a) as Ea. pose proof (@fl_relative b) as Eb.
  rewrite (Rabs_pos_eq a) in Ea by lra. rewrite (Rabs_pos_eq b) in Eb by lra.
  specialize (Ea ltac:(lra)). specialize (Eb ltac:(lra)).
  apply Rabs_le_inv in Ea. apply Rabs_le_inv in Eb.
  set (a' := fl a) in *. set (b' := fl b) in *.
  set (lam := a / b). set (r := a' / b').
  assert (Hlam : lam * b = a) by (unfold lam; field; lra).
  assert (Hr : r * b' = a') by (unfold r; field; lra).
  assert (Hlam01 : 0 <= lam <= 1).
  { split.
    - unfold lam. apply Rmult_le_pos; [lra|]. left. apply Rinv_0_lt_compat. lra.
    - apply (Rmult_le_reg_r b); [lra|]. rewrite Hlam. lra. }
  assert (Hr01 : 0 <= r <= 1).
  { split.
    - unfold r. apply Rmult_le_pos; [lra|]. left. apply Rinv_0_lt_compat. lra.
    - apply (Rmult_le_reg_r b'); [lra|]. rewrite Hr. lra. }
  assert (Hclose : - / 1000000000000000 <= r - lam <= / 1000000000000000).
  { assert (Hlb : lam * b' <= lam * (b + b * / 4000000000000000))
      by (apply Rmult_le_compat_l; lra).
    assert (Hlb' : lam * (b - b * / 4000000000000000) <= lam * b')
      by (apply Rmult_le_compat_l; lra).
    replace (lam * (b + b * / 4000000000000000))
      with (a + a * / 4000000000000000) in Hlb by (rewrite <- Hlam; ring).
    replace (lam * (b - b * / 4000000000000000))
      with (a - a * / 4000000000000000) in Hlb' by (rewrite <- Hlam; ring).
    split.
    - apply (Rmult_le_reg_r b'); [lra|].
      replace ((r - lam) * b') with (a' - lam * b') by (rewrite <- Hr; ring).
      nra.
    - apply (Rmult_le_reg_r b'); [lra|].
      replace ((r - lam) * b') with (a' - lam * b') by (rewrite <- Hr; ring).
      nra. }
  split.
  - split.
    + apply fl_nonneg. lra.
    + apply (@fl_int_le r 1); [simpl; lia|lra].
  - pose proof (@fl_within r ltac:(lra)). lra.
Qed.

(** The interpolation the host computes is next to the exact one, before
    and after the rounding to six decimals. *)
Lemma lerp_close x1 x2 lam q :
  -1000 <= x1 <= 1000 -> -1000 <= x2 <= 1000 ->
  0 <= lam <= 1 -> 0 <= q <= 1 ->
  - / 500000000000 <= q - lam <= / 500000000000 ->
  - / 50000000 <= lerp x1 x2 q - (x1 + (x2 - x1) * lam) <= / 50000000 /\
  Rabs (to_fixed6 (lerp x1 x2 q) - (x1 + (x2 - x1) * lam)) <= / 1000000.
Proof.
  intros H1 H2 Hlam Hq Hql. unfold to_fixed6, lerp.
  pose proof (@fl_within (x2 - x1) ltac:(lra)) as Hd.
  set (d := fl (x2 - x1)) in *.
  assert (Hdq : -4096 <= d * q <= 4096) by nra.
  pose proof (@fl_within (d * q) Hdq) as Hm.
  set (m := fl (d * q)) in *.
  assert (Hmb : -2002 <= m <= 2002) by nra.
  pose proof (@fl_within (x1 + m) ltac:(lra)) as Hs.
  set (s := fl (x1 + m)) in *.
  pose proof (round6R_within s) as Hr.
  set (r := round6R s) in *.
  pose proof (@fl_within r ltac:(lra)) as Hres.
  assert (Hprod : - / 100000000 <= d * q - (x2 - x1) * lam <= / 100000000).
  { replace (d * q - (x2 - x1) * lam)
      with ((d - (x2 - x1)) * q + (x2 - x1) * (q - lam)) by ring.
    nra. }
  split; [lra|]. apply Rabs_le. lra.
Qed.

End ArithmeticFacts.

Close Scope R_scope.

(** ** Interpolation in the store *)

Section PairFacts.
Context {host : Host}.

Lemma interpolatePosition_coords point1 point2 q :
  (0 <= q <= 1)%R ->
  Pos.lng (interpolatePosition point1 point2 (Fin q))
    = Fin (to_fixed6 (lerp (lng_of point1) (lng_of point2) q)) /\
  Pos.lat (interpolatePosition point1 point2 (Fin q))
    = Fin (to_fixed6 (lerp (lat_of point1) (lat_of point2) q)) /\
  Pos.lon (interpolatePosition point1 point2 (Fin q))
    = Fin (to_fixed6 (lerp (lng_of point1) (lng_of point2) q)).
Proof.
  intros Hq. unfold interpolatePosition. rewrite (clamp_unit Hq).
  repeat split.
Qed.

(** On one of the two times the point itself is returned. *)
Lemma from_pair_at_first trajectory p0 t l r t2 :
  time_key (nth l trajectory p0) = Some t ->
  time_key (nth r trajectory p0) = Some t2 ->
  Pos.lng (from_pair trajectory p0 (ValidDate t) l r)
    = Fin (lng_of (nth l trajectory p0)) /\
  Pos.lat (from_pair trajectory p0 (ValidDate t) l r)
    = Fin (lat_of (nth l trajectory p0)).
Proof.
  intros H1 H2. unfold from_pair. rewrite !parseTime_key, H1, H2. simpl.
  rewrite Z.eqb_refl.
  destruct (_ <? _)%nat; [|destruct (_ <? _)%nat]; split; reflexivity.
Qed.

Lemma from_pair_at_second trajectory p0 t l r t1 :
  time_key (nth l trajectory p0) = Some t1 ->
  time_key (nth r trajectory p0) = Some t ->
  t1 <> t ->
  Pos.lng (from_pair trajectory p0 (ValidDate t) l r)
    = Fin (lng_of (nth r trajectory p0)) /\
  Pos.lat (from_pair trajectory p0 (ValidDate t) l r)
    = Fin (lat_of (nth r trajectory p0)).
Proof.
  intros H1 H2 Hne. unfold from_pair. rewrite !parseTime_key, H1, H2. simpl.
  destruct (Z.eqb_spec t t1); [congruence|]. rewrite Z.eqb_refl.
  destruct (_ <? _)%nat; split; reflexivity.
Qed.

Context {ieee : IEEE754 host}.

(** Strictly between the two times the pair is interpolated, at the
    progress the host computes, which the clamp leaves as it is. *)
Lemma from_pair_interpolate trajectory p0 t l r t1 t2 :
  time_key (nth l trajectory p0) = Some t1 ->
  time_key (nth r trajectory p0) = Some t2 ->
  t1 < t < t2 ->
  from_pair trajectory p0 (ValidDate t) l r
  = interpolatePosition (nth l trajectory p0) (nth r trajectory p0)
      (Fin (time_fraction t t1 t2)).
Proof.
  intros H1 H2 Ht. unfold from_pair. rewrite !parseTime_key, H1, H2.
  cbn [option_map date_same date_sub progress_of].
  destruct (Z.eqb_spec t t1); [lia|]. destruct (Z.eqb_spec t t2); [lia|].
  assert (Hpos : (1 <= fl (IZR (t2 - t1)))%R).
  { apply (@fl_int_ge _ _ (IZR (t2 - t1)) 1); [simpl; lia|].
    apply (IZR_le 1). lia. }
  destruct (Rlt_dec 0 (fl (IZR (t2 - t1)))); [|lra].
  fold (time_fraction t t1 t2).
  rewrite clamp_unit; [reflexivity|].
  apply (time_fraction_close Ht).
Qed.

End PairFacts.

(** ** The arithmetic of the UTC host *)

(** The three laws of [IEEE754] hold of [Binary64.round], rounding to the
    nearest double with a tie going to the even one. *)

Lemma rne_cases (y : R) :
  Binary64.rne y = Zfloor y \/ Binary64.rne y = Zfloor y + 1.
Proof.
  unfold Binary64.rne. cbv zeta.
  destruct (Rlt_dec _ _); [now left|].
  destruct (Rlt_dec _ _); [now right|].
  destruct (Z.even _); [now left | now right].
Qed.

Lemma rne_error (y : R) : (Rabs (IZR (Binary64.rne y) - y) <= / 2)%R.
Proof.
  pose proof (Zfloor_bound y) as [Hlo Hhi].
  unfold Binary64.rne. cbv zeta.
  destruct (Rlt_dec _ _) as [H1|H1].
  - apply Rabs_le. lra.
  - destruct (Rlt_dec _ _) as [H2|H2].
    + rewrite plus_IZR. apply Rabs_le. lra.
    + destruct (Z.even _).
      * apply Rabs_le. lra.
      * rewrite plus_IZR. apply Rabs_le. lra.
Qed.

Lemma rne_IZR (z : Z) : Binary64.rne (IZR z) = z.
Proof.
  unfold Binary64.rne. cbv zeta. rewrite ZfloorZ.
  destruct (Rlt_dec _ _) as [H1|H1]; [reflexivity|]. lra.
Qed.

Lemma rne_monotone (x y : R) :
  (x <= y)%R -> Binary64.rne x <= Binary64.rne y.
Proof.
  intros Hxy.
  pose proof (Zfloor_le x y Hxy) as Hf.
  destruct (Z.eq_dec (Zfloor x) (Zfloor y)) as [E|E].
  - unfold Binary64.rne. cbv zeta. rewrite E.
    destruct (Rlt_dec (x - _) _) as [H1|H1].
    + destruct (Rlt_dec (y - _) _); [lia|].
      destruct (Rlt_dec _ (y - _)); [lia|].
      destruct (Z.even _); lia.
    + destruct (Rlt_dec _ (x - _)) as [H2|H2].
      * destruct (Rlt_dec (y - _) _); [lra|].
        destruct (Rlt_dec _ (y - _)); [lia|lra].
      * destruct (Rlt_dec (y - _) _); [lra|].
        destruct (Rlt_dec _ (y - _)); [destruct (Z.even _); lia|].
        destruct (Z.even _); lia.
  - destruct (rne_cases x) as [Hx|Hx], (rne_cases y) as [Hy|Hy]; lia.
Qed.

Lemma pow2_nonneg (k : Z) : 0 <= k -> (1 <= powerRZ 2 k)%R.
Proof.
  intros Hk. destruct k as [|p|p]; [simpl; lra| |lia].
  simpl. apply pow_R1_Rle. lra.
Qed.

Lemma pow2_le (a b : Z) : a <= b -> (powerRZ 2 a <= powerRZ 2 b)%R.
Proof.
  intros Hab. replace b with (a + (b - a)) by lia.
  rewrite powerRZ_add by lra.
  pose proof (powerRZ_lt 2 a ltac:(lra)).
  pose proof (@pow2_nonneg (b - a) ltac:(lia)). nra.
Qed.

Lemma pow2_lt_inv (a b : Z) : (powerRZ 2 a < powerRZ 2 b)%R -> a < b.
Proof.
  intros H. destruct (Z_lt_le_dec a b) as [|Hle]; [assumption|].
  pose proof (pow2_le Hle). lra.
Qed.

Lemma pow2_IZR (k : Z) : 0 <= k -> powerRZ 2 k = IZR (2 ^ k).
Proof.
  intros Hk. destruct k as [|p|p]; [reflexivity| |lia].
  symmetry. apply (Zpower_pos_powerRZ 2 p).
Qed.

Lemma ln2_pos : (0 < ln 2)%R.
Proof. pose proof ln_lt_2. lra. Qed.

Lemma pow2_exp (k : Z) : powerRZ 2 k = exp (IZR k * ln 2).
Proof. rewrite powerRZ_Rpower by lra. reflexivity. Qed.

Lemma mag_spec (x : R) :
  x <> 0%R ->
  (powerRZ 2 (Binary64.mag x) <= Rabs x < powerRZ 2 (Binary64.mag x + 1))%R.
Proof.
  intros Hx.
  assert (Hpos : (0 < Rabs x)%R) by (apply Rabs_pos_lt; exact Hx).
  pose proof ln2_pos as Hl.
  unfold Binary64.mag.
  pose proof (Zfloor_bound (ln (Rabs x) / ln 2)) as [Hlo Hhi].
  set (m := Zfloor (ln (Rabs x) / ln 2)) in *.
  assert (E : (ln (Rabs x) / ln 2 * ln 2 = ln (Rabs x))%R) by (field; lra).
  rewrite !pow2_exp, plus_IZR.
  split.
  - destruct (Req_dec (IZR m * ln 2) (ln (Rabs x))) as [Heq|Hne].
    + rewrite Heq, exp_ln by exact Hpos. lra.
    + left. rewrite <- (exp_ln (Rabs x) Hpos) at 1.
      apply exp_increasing. nra.
  - rewrite <- (exp_ln (Rabs x) Hpos) at 1. apply exp_increasing. nra.
Qed.

Lemma mag_le (x y : R) :
  x <> 0%R -> (Rabs x <= Rabs y)%R -> Binary64.mag x <= Binary64.mag y.
Proof.
  intros Hx Hxy.
  assert (Hy : y <> 0%R).
  { intros ->. rewrite Rabs_R0 in Hxy.
    pose proof (Rabs_pos_lt x Hx). lra. }
  destruct (mag_spec Hx) as [Xlo Xhi], (mag_spec Hy) as [Ylo Yhi].
  assert (Binary64.mag x < Binary64.mag y + 1) by (apply pow2_lt_inv; lra).
  lia.
Qed.

Lemma ulp_pos (x : R) : (0 < Binary64.ulp x)%R.
Proof. apply powerRZ_lt. lra. Qed.

Lemma ulp_scale (x : R) :
  (Binary64.ulp x * powerRZ 2 52
   = powerRZ 2 (Z.max (Binary64.mag x) (-1022)))%R.
Proof.
  unfold Binary64.ulp. rewrite <- powerRZ_add by lra.
  f_equal. lia.
Qed.

Lemma round_0 : Binary64.round 0 = 0%R.
Proof. unfold Binary64.round. destruct (Req_dec_T 0 0); [reflexivity|lra]. Qed.

Lemma round_eq (x : R) :
  x <> 0%R ->
  Binary64.round x
  = (IZR (Binary64.rne (x / Binary64.ulp x)) * Binary64.ulp x)%R.
Proof.
  intros Hx. unfold Binary64.round.
  destruct (Req_dec_T x 0); [contradiction|reflexivity].
Qed.

Lemma round_error (x : R) :
  (Rabs (Binary64.round x - x) <= Rabs x / 2 ^ 53 + / 2 ^ 1075)%R.
Proof.
  assert (P53 : (0 < 2 ^ 53)%R) by (apply pow_lt; lra).
  assert (P1075 : (0 < / 2 ^ 1075)%R)
    by (apply Rinv_0_lt_compat, pow_lt; lra).
  destruct (Req_dec x 0) as [->|Hx].
  - rewrite round_0, Rminus_0_r, Rabs_R0.
    unfold Rdiv. rewrite Rmult_0_l. lra.
  - rewrite (round_eq Hx).
    pose proof (ulp_pos x) as Hu.
    pose proof (rne_error (x / Binary64.ulp x)) as He.
    set (n := IZR (Binary64.rne (x / Binary64.ulp x))) in *.
    set (u := Binary64.ulp x) in *.
    assert (Herr : (Rabs (n * u - x) <= u / 2)%R).
    { replace (n * u - x)%R with ((n - x / u) * u)%R by (field; lra).
      rewrite Rabs_mult, (Rabs_pos_eq u) by lra.
      pose proof (Rabs_pos (n - x / u)). nra. }
    pose proof (ulp_scale x) as Hs. fold u in Hs.
    assert (H52 : powerRZ 2 52 = (2 ^ 52)%R) by reflexivity.
    assert (Hhalf : (u / 2 = powerRZ 2 (Z.max (Binary64.mag x) (-1022))
                             / 2 ^ 53)%R).
    { rewrite <- Hs, H52. field. }
    destruct (mag_spec Hx) as [Mlo Mhi].
    pose proof (Rabs_pos x) as Hax.
    destruct (Z.max_spec (Binary64.mag x) (-1022)) as [[Hlt E]|[Hle E]];
      rewrite E in Hhalf.
    + assert (E1 : (powerRZ 2 (-1022) / 2 ^ 53 = / 2 ^ 1075)%R).
      { change (powerRZ 2 (-1022)) with (/ 2 ^ 1022)%R.
        replace (2 ^ 1075)%R with (2 ^ 1022 * 2 ^ 53)%R
          by (rewrite <- pow_add; reflexivity).
        field. }
      rewrite E1 in Hhalf.
      assert (0 <= Rabs x / 2 ^ 53)%R
        by (apply Rmult_le_pos; [lra | left; apply Rinv_0_lt_compat; lra]).
      lra.
    + assert (powerRZ 2 (Binary64.mag x) / 2 ^ 53 <= Rabs x / 2 ^ 53)%R.
      { apply Rmult_le_compat_r; [left; apply Rinv_0_lt_compat; lra | lra]. }
      lra.
Qed.

Lemma round_multiple (x : R) (n : Z) :
  x = (IZR n * Binary64.ulp x)%R -> Binary64.round x = x.
Proof.
  intros E. destruct (Req_dec x 0) as [->|Hx]; [apply round_0|].
  rewrite (round_eq Hx).
  pose proof (ulp_pos x) as Hu.
  replace (x / Binary64.ulp x)%R with (IZR n)
    by (rewrite E at 1; field; lra).
  rewrite rne_IZR. symmetry. exact E.
Qed.

Lemma round_integer (z : Z) :
  Z.abs z <= 2 ^ 53 -> Binary64.round (IZR z) = IZR z.
Proof.
  intros Hz.
  destruct (Z.eq_dec z 0) as [->|Hne]; [apply round_0|].
  assert (Hx : IZR z <> 0%R) by (intros H; apply eq_IZR in H; lia).
  destruct (mag_spec Hx) as [Mlo Mhi].
  rewrite <- abs_IZR in Mlo, Mhi.
  set (m := Binary64.mag (IZR z)) in *.
  assert (Hm0 : 0 <= m).
  { assert (0 < m + 1); [|lia]. apply pow2_lt_inv.
    change (powerRZ 2 0) with 1%R.
    assert (1 <= IZR (Z.abs z))%R by (apply IZR_le; lia). lra. }
  assert (Hm53 : m <= 53).
  { assert (m < 54); [|lia]. apply pow2_lt_inv.
    rewrite (@pow2_IZR 54) by lia.
    assert (IZR (Z.abs z) < IZR (2 ^ 54))%R by (apply IZR_lt; lia). lra. }
  assert (Hu : Binary64.ulp (IZR z) = powerRZ 2 (m - 52)).
  { unfold Binary64.ulp. fold m. f_equal. lia. }
  destruct (Z_le_gt_dec m 52) as [Hle|Hgt].
  - apply (@round_multiple (IZR z) (z * 2 ^ (52 - m))).
    rewrite Hu, mult_IZR, <- pow2_IZR by lia.
    rewrite Rmult_assoc, <- powerRZ_add by lra.
    replace (52 - m + (m - 52)) with 0 by lia.
    change (powerRZ 2 0) with 1%R. lra.
  - assert (m = 53) by lia. subst m.
    assert (Habs : Z.abs z = 2 ^ 53).
    { apply Z.le_antisymm; [exact Hz|]. apply le_IZR.
      rewrite <- (@pow2_IZR 53) by lia.
      replace 53 with (Binary64.mag (IZR z)) at 1 by assumption.
      exact Mlo. }
    apply (@round_multiple (IZR z) (z / 2)).
    rewrite Hu. replace (Binary64.mag (IZR z) - 52) with 1 by lia.
    change (powerRZ 2 1) with (2 * 1)%R.
    rewrite Rmult_1_r. change 2%R with (IZR 2). rewrite <- mult_IZR.
    f_equal.
    assert (Hc : z = 2 ^ 53 \/ z = - 2 ^ 53) by lia.
    destruct Hc as [-> | ->]; reflexivity.
Qed.

Lemma round_above (x : R) (k : Z) :
  x <> 0%R -> (IZR k * Binary64.ulp x <= x)%R ->
  (IZR k * Binary64.ulp x <= Binary64.round x)%R.
Proof.
  intros Hx Hk. rewrite (round_eq Hx).
  pose proof (ulp_pos x) as Hu.
  apply Rmult_le_compat_r; [lra|]. apply IZR_le.
  rewrite <- (rne_IZR k) at 1. apply rne_monotone.
  apply Rmult_le_reg_r with (Binary64.ulp x); [exact Hu|].
  replace (x / Binary64.ulp x * Binary64.ulp x)%R with x by (field; lra).
  exact Hk.
Qed.

Lemma round_below (x : R) (k : Z) :
  x <> 0%R -> (x <= IZR k * Binary64.ulp x)%R ->
  (Binary64.round x <= IZR k * Binary64.ulp x)%R.
Proof.
  intros Hx Hk. rewrite (round_eq Hx).
  pose proof (ulp_pos x) as Hu.
  apply Rmult_le_compat_r; [lra|]. apply IZR_le.
  rewrite <- (rne_IZR k). apply rne_monotone.
  apply Rmult_le_reg_r with (Binary64.ulp x); [exact Hu|].
  replace (x / Binary64.ulp x * Binary64.ulp x)%R with x by (field; lra).
  exact Hk.
Qed.

Lemma round_nonneg (x : R) : (0 <= x)%R -> (0 <= Binary64.round x)%R.
Proof.
  intros H. destruct (Req_dec x 0) as [->|Hx]; [rewrite round_0; lra|].
  pose proof (@round_above x 0 Hx) as Ha. lra.
Qed.

Lemma round_nonpos (x : R) : (x <= 0)%R -> (Binary64.round x <= 0)%R.
Proof.
  intros H. destruct (Req_dec x 0) as [->|Hx]; [rewrite round_0; lra|].
  pose proof (@round_below x 0 Hx) as Ha. lra.
Qed.

(** The exponent of the doubles around [x]. *)
Lemma ulp_53 (x : R) :
  (IZR (2 ^ 53) * Binary64.ulp x
   = powerRZ 2 (Z.max (Binary64.mag x) (-1022) + 1))%R.
Proof.
  rewrite <- (@pow2_IZR 53) by lia. unfold Binary64.ulp.
  rewrite <- powerRZ_add by lra. f_equal. lia.
Qed.

Lemma ulp_52 (x : R) :
  (IZR (2 ^ 52) * Binary64.ulp x
   = powerRZ 2 (Z.max (Binary64.mag x) (-1022)))%R.
Proof.
  rewrite <- (@pow2_IZR 52) by lia. unfold Binary64.ulp.
  rewrite <- powerRZ_add by lra. f_equal. lia.
Qed.

Lemma abs_below_binade (x : R) :
  x <> 0%R ->
  (Rabs x < powerRZ 2 (Z.max (Binary64.mag x) (-1022) + 1))%R.
Proof.
  intros Hx. destruct (mag_spec Hx) as [_ Mhi].
  pose proof (@pow2_le (Binary64.mag x + 1)
                (Z.max (Binary64.mag x) (-1022) + 1) ltac:(lia)).
  lra.
Qed.

Lemma round_monotone_pos (x y : R) :
  (0 < x)%R -> (x <= y)%R -> (Binary64.round x <= Binary64.round y)%R.
Proof.
  intros Hx Hxy.
  assert (Nx : x <> 0%R) by lra. assert (Ny : y <> 0%R) by lra.
  assert (Hm : Binary64.mag x <= Binary64.mag y).
  { apply mag_le; [exact Nx|]. rewrite !Rabs_pos_eq by lra. exact Hxy. }
  pose proof (ulp_pos x) as Hux. pose proof (ulp_pos y) as Huy.
  destruct (Z.eq_dec (Z.max (Binary64.mag x) (-1022))
                     (Z.max (Binary64.mag y) (-1022))) as [E|E].
  - assert (Eu : Binary64.ulp x = Binary64.ulp y)
      by (unfold Binary64.ulp; rewrite E; reflexivity).
    rewrite (round_eq Nx), (round_eq Ny), Eu.
    apply Rmult_le_compat_r; [lra|]. apply IZR_le, rne_monotone.
    apply Rmult_le_compat_r; [left; apply Rinv_0_lt_compat; exact Huy|].
    exact Hxy.
  - assert (Ey : Z.max (Binary64.mag y) (-1022) = Binary64.mag y) by lia.
    apply Rle_trans
      with (powerRZ 2 (Z.max (Binary64.mag x) (-1022) + 1)).
    + rewrite <- ulp_53. apply round_below; [exact Nx|].
      rewrite ulp_53. pose proof (abs_below_binade Nx) as Hb.
      rewrite Rabs_pos_eq in Hb by lra. lra.
    + apply Rle_trans with (powerRZ 2 (Binary64.mag y)).
      * apply pow2_le. lia.
      * rewrite <- Ey at 1. rewrite <- ulp_52.
        apply round_above; [exact Ny|]. rewrite ulp_52, Ey.
        destruct (mag_spec Ny) as [Mlo _].
        rewrite Rabs_pos_eq in Mlo by lra. exact Mlo.
Qed.

Lemma round_monotone_neg (x y : R) :
  (y < 0)%R -> (x <= y)%R -> (Binary64.round x <= Binary64.round y)%R.
Proof.
  intros Hy Hxy.
  assert (Nx : x <> 0%R) by lra. assert (Ny : y <> 0%R) by lra.
  assert (Ax : Rabs x = (- x)%R) by (apply Rabs_left; lra).
  assert (Ay : Rabs y = (- y)%R) by (apply Rabs_left; lra).
  assert (Hm : Binary64.mag y <= Binary64.mag x).
  { apply mag_le; [exact Ny|]. rewrite Ax, Ay. lra. }
  pose proof (ulp_pos x) as Hux. pose proof (ulp_pos y) as Huy.
  destruct (Z.eq_dec (Z.max (Binary64.mag x) (-1022))
                     (Z.max (Binary64.mag y) (-1022))) as [E|E].
  - assert (Eu : Binary64.ulp x = Binary64.ulp y)
      by (unfold Binary64.ulp; rewrite E; reflexivity).
    rewrite (round_eq Nx), (round_eq Ny), Eu.
    apply Rmult_le_compat_r; [lra|]. apply IZR_le, rne_monotone.
    apply Rmult_le_compat_r; [left; apply Rinv_0_lt_compat; exact Huy|].
    exact Hxy.
  - assert (Ex : Z.max (Binary64.mag x) (-1022) = Binary64.mag x) by lia.
    apply Rle_trans
      with (- powerRZ 2 (Z.max (Binary64.mag y) (-1022) + 1))%R.
    + apply Rle_trans with (- powerRZ 2 (Binary64.mag x))%R.
      * rewrite <- Ex at 1. rewrite <- ulp_52.
        replace (- (IZR (2 ^ 52) * Binary64.ulp x))%R
          with (IZR (- 2 ^ 52) * Binary64.ulp x)%R
          by (rewrite opp_IZR; ring).
        apply round_below; [exact Nx|].
        rewrite opp_IZR, <- Ropp_mult_distr_l, ulp_52, Ex.
        destruct (mag_spec Nx) as [Mlo _]. rewrite Ax in Mlo. lra.
      * apply Ropp_le_contravar, pow2_le. lia.
    + rewrite <- ulp_53.
      replace (- (IZR (2 ^ 53) * Binary64.ulp y))%R
        with (IZR (- 2 ^ 53) * Binary64.ulp y)%R
        by (rewrite opp_IZR; ring).
      apply round_above; [exact Ny|].
      rewrite opp_IZR, <- Ropp_mult_distr_l, ulp_53.
      pose proof (abs_below_binade Ny) as Hb. rewrite Ay in Hb. lra.
Qed.

Lemma round_monotone (x y : R) :
  (x <= y)%R -> (Binary64.round x <= Binary64.round y)%R.
Proof.
  intros Hxy.
  destruct (Rlt_le_dec 0 x) as [Hx|Hx].
  - apply round_monotone_pos; assumption.
  - destruct (Rlt_le_dec y 0) as [Hy|Hy].
    + apply round_monotone_neg; assumption.
    + apply Rle_trans with 0%R;
        [apply round_nonpos | apply round_nonneg]; assumption.
Qed.

Lemma utc_ieee : IEEE754 UtcHost.utc_host.
Proof.
  constructor.
  - exact round_error.
  - exact round_integer.
  - exact round_monotone.
Qed.

(** ** Position queries *)

Section QueryFacts.
Context {host : Host}.

(** A query that is not outside the time range of a trajectory of two or
    more points runs the search and examines the pair found. *)
Lemma getShipPositionAtTime_searches st mmsi ship currentTime t p0 rest :
  SMap.get (ships st) mmsi = Some ship ->
  trajectory ship = p0 :: rest ->
  (2 <= length (p0 :: rest))%nat ->
  startTime ship = end_time p0 ->
  endTime ship = end_time (last (p0 :: rest) p0) ->
  resolve_time currentTime = Some (ValidDate t) ->
  (forall s, time_key p0 = Some s -> s <= t) ->
  (forall e, time_key (nth (length (p0 :: rest) - 1) (p0 :: rest) p0) = Some e ->
             t <= e) ->
  getShipPositionAtTime st mmsi currentTime
  = Some (from_pair (p0 :: rest) p0 (ValidDate t)
            (fst (search_loop (length (p0 :: rest)) (p0 :: rest) p0 (ValidDate t)
                    0 (length (p0 :: rest) - 1)))
            (snd (search_loop (length (p0 :: rest)) (p0 :: rest) p0 (ValidDate t)
                    0 (length (p0 :: rest) - 1)))).
Proof.
  intros Hget Htraj Hlen Hstart Hend Htime Hlo Hhi.
  unfold getShipPositionAtTime. rewrite Hget, Htraj, Htime, Hstart, Hend.
  rewrite last_nth, !end_time_key, !parseTime_key.
  set (n := length (p0 :: rest)) in *.
  set (traj := p0 :: rest) in *.
  assert (E1 : match option_map ValidDate (time_key p0) with
               | Some s => date_lt (ValidDate t) s
               | None => false
               end = false).
  { destruct (time_key p0) as [s|] eqn:Ek; [|reflexivity]. simpl.
    apply Z.ltb_ge. now apply Hlo. }
  assert (E2 : match option_map ValidDate (time_key (nth (n - 1) traj p0)) with
               | Some e => date_gt (ValidDate t) e
               | None => false
               end = false).
  { destruct (time_key (nth (n - 1) traj p0)) as [e|] eqn:Ek; [|reflexivity].
    unfold date_gt. simpl. apply Z.ltb_ge. now apply Hhi. }
  rewrite E1, E2.
  destruct (Nat.eqb_spec n 1) as [Hn|_]; [lia|].
  reflexivity.
Qed.

End QueryFacts.

Section InterpolationFacts.
Context {host : Host} {ieee : IEEE754 host}.

(** On a stored trajectory, a pair with times [t1 < t < t2] found by the
    search shows that [t] is inside the time range of the entity. *)
Lemma found_pair_in_range ship p0 rest t t1 t2 :
  ship_ok ship ->
  trajectory ship = p0 :: rest ->
  (2 <= length (p0 :: rest))%nat ->
  time_key (nth (fst (search_loop (length (p0 :: rest)) (p0 :: rest) p0
                        (ValidDate t) 0 (length (p0 :: rest) - 1)))
                (p0 :: rest) p0) = Some t1 ->
  time_key (nth (snd (search_loop (length (p0 :: rest)) (p0 :: rest) p0
                        (ValidDate t) 0 (length (p0 :: rest) - 1)))
                (p0 :: rest) p0) = Some t2 ->
  t1 < t < t2 ->
  (forall s, time_key p0 = Some s -> s <= t) /\
  (forall e, time_key (nth (length (p0 :: rest) - 1) (p0 :: rest) p0) = Some e ->
             t <= e).
Proof.
  intros (q0 & qs & Hq & Hsorted & _) Htraj Hlen H1 H2 Ht.
  rewrite Htraj in Hsorted.
  set (n := length (p0 :: rest)) in *.
  destruct (@search_loop_done host (p0 :: rest) p0 (ValidDate t) n 0 (n - 1))
    as (Hl & Hr & Hlr); [lia|lia|].
  set (l := fst _) in *. set (r := snd _) in *.
  split.
  - intros s Hs. destruct (Nat.eq_dec l 0) as [E|E].
    + rewrite E in H1. simpl in H1. rewrite Hs in H1. injection H1 as ->. lia.
    + assert (Hle : point_le (nth 0 (p0 :: rest) p0) (nth l (p0 :: rest) p0)).
      { apply sorted_nth; [assumption|lia|fold n; lia]. }
      unfold point_le in Hle. rewrite H1 in Hle. simpl in Hle.
      rewrite Hs in Hle. simpl in Hle. lia.
  - intros e He. destruct (Nat.eq_dec r (n - 1)) as [E|E].
    + rewrite E in H2. rewrite He in H2. injection H2 as ->. lia.
    + assert (Hle : point_le (nth r (p0 :: rest) p0) (nth (n - 1) (p0 :: rest) p0)).
      { apply sorted_nth; [assumption|lia|fold n; lia]. }
      unfold point_le in Hle. rewrite H2, He in Hle. simpl in Hle. lia.
Qed.

(** Claim C3, as the code has it.  For an entity of the store and a time [t]
    strictly between the times of the pair [(p1, p2)] found by the search:
    the progress is the quotient [(t - t1) / (t2 - t1)] as the host
    computes it, a double in [0, 1], so that the clamp changes nothing;
    longitude and latitude are the linear interpolation at this progress
    as the host computes it, each step rounded to a double, then rounded
    to six decimals and read back by [parseFloat]; the coordinates of a
    point are read as [lon || lng || 0] and [lat || 0]; the heading is the
    bearing from [p1] to [p2]; speed, draught, status, destination and eta
    are [p1]'s value when it is truthy, else [p2]'s when that is truthy,
    else 0 (speed) or null. *)
Theorem getShipPositionAtTime_interpolates :
  forall colors shipGroups mmsi ship currentTime t p0 rest l r p1 p2 t1 t2,
    SMap.get (ships (initializeShips colors shipGroups)) mmsi = Some ship ->
    trajectory ship = p0 :: rest ->
    (2 <= length (trajectory ship))%nat ->
    resolve_time currentTime = Some (ValidDate t) ->
    search_loop (length (trajectory ship)) (trajectory ship) p0 (ValidDate t)
      0 (length (trajectory ship) - 1) = (l, r) ->
    p1 = nth l (trajectory ship) p0 ->
    p2 = nth r (trajectory ship) p0 ->
    time_key p1 = Some t1 ->
    time_key p2 = Some t2 ->
    t1 < t < t2 ->
    exists pos,
      getShipPositionAtTime (initializeShips colors shipGroups) mmsi currentTime
        = Some pos /\
      (0 <= time_fraction t t1 t2 <= 1)%R /\
      Pos.lng pos
        = Fin (to_fixed6 (lerp (lng_of p1) (lng_of p2) (time_fraction t t1 t2))) /\
      Pos.lat pos
        = Fin (to_fixed6 (lerp (lat_of p1) (lat_of p2) (time_fraction t t1 t2))) /\
      Pos.hdg pos = calculateDirection p1 p2 /\
      Pos.speed pos = or0 (Pt.speed p1) (Pt.speed p2) /\
      Pos.draught pos = or_nullR (Pt.draught p1) (Pt.draught p2) /\
      Pos.status pos = or_null_str (Pt.status p1) (Pt.status p2) /\
      Pos.dest pos = or_null_str (Pt.dest p1) (Pt.dest p2) /\
      Pos.eta pos = or_null_str (Pt.eta p1) (Pt.eta p2).
Proof.
  intros colors shipGroups mmsi ship currentTime t p0 rest l r p1 p2 t1 t2
    Hget Htraj Hlen Htime Hsearch -> -> H1 H2 Ht.
  pose proof (initializeShips_ok _ _ _ Hget) as Hok.
  rewrite Htraj in *.
  assert (Hl : l = fst (search_loop (length (p0 :: rest)) (p0 :: rest) p0
                          (ValidDate t) 0 (length (p0 :: rest) - 1)))
    by now rewrite Hsearch.
  assert (Hr : r = snd (search_loop (length (p0 :: rest)) (p0 :: rest) p0
                          (ValidDate t) 0 (length (p0 :: rest) - 1)))
    by now rewrite Hsearch.
  destruct Hok as (q0 & qs & Hq & Hsorted & Hstart & Hend).
  assert (Hok : ship_ok ship) by (exists q0, qs; auto).
  rewrite Htraj in Hq, Hend. injection Hq as <- <-.
  destruct (@found_pair_in_range ship p0 rest t t1 t2 Hok Htraj Hlen)
    as [Hlo Hhi]; [now rewrite <- Hl|now rewrite <- Hr|assumption|].
  destruct (time_fraction_close Ht) as [Hp _].
  eexists. split.
  - rewrite (@getShipPositionAtTime_searches host _ mmsi ship currentTime t p0
               rest Hget Htraj Hlen Hstart Hend Htime Hlo Hhi).
    rewrite <- Hl, <- Hr.
    rewrite (@from_pair_interpolate host ieee (p0 :: rest) p0 t l r t1 t2
               H1 H2 Ht).
    reflexivity.
  - split; [exact Hp|].
    destruct (interpolatePosition_coords (nth l (p0 :: rest) p0)
                (nth r (p0 :: rest) p0) Hp) as (Hlng & Hlat & _).
    split; [exact Hlng|]. split; [exact Hlat|].
    repeat split.
Qed.

End InterpolationFacts.

Section SegmentFacts.
Context {host : Host} {ieee : IEEE754 host}.

(** When the last point of a stored trajectory has a time, every point has. *)
Lemma all_timed (l : list Point) d e :
  StronglySorted point_le l ->
  time_key (nth (length l - 1) l d) = Some e ->
  forall i, (i < length l)%nat -> exists k, time_key (nth i l d) = Some k.
Proof.
  intros Hs He i Hi.
  destruct (Nat.eq_dec i (length l - 1)) as [->|Hne]; [now exists e|].
  assert (Hle : point_le (nth i l d) (nth (length l - 1) l d))
    by (apply sorted_nth; [assumption|lia|lia]).
  unfold point_le in Hle. rewrite He in Hle.
  destruct (time_key (nth i l d)) as [k|]; [now exists k|contradiction].
Qed.

(** Claim C4, as the code has it.  For an entity of the store with two or
    more points and a time [t] within its [startTime, endTime], there are
    two consecutive points, with times [a <= t <= b], and a [lambda] in
    [0, 1], the fraction [(t - a) / (b - a)] of the leg when [a < b], such
    that each returned coordinate is within 10^-6 of the coordinate of the
    point of the segment at [lambda], when the coordinates of the
    trajectory are at most 1000 in absolute value.  The returned point
    need not lie on the segment: its coordinates are rounded to six
    decimals, each on its own. *)
Theorem getShipPositionAtTime_near_segment :
  forall colors shipGroups mmsi ship currentTime t s e p0 rest,
    SMap.get (ships (initializeShips colors shipGroups)) mmsi = Some ship ->
    trajectory ship = p0 :: rest ->
    (2 <= length (trajectory ship))%nat ->
    startTime ship = Some (ValidDate s) ->
    endTime ship = Some (ValidDate e) ->
    resolve_time currentTime = Some (ValidDate t) ->
    s <= t <= e ->
    (forall point, In point (trajectory ship) ->
                   (-1000 <= lng_of point <= 1000)%R /\
                   (-1000 <= lat_of point <= 1000)%R) ->
    exists pos i a b lambda x y,
      getShipPositionAtTime (initializeShips colors shipGroups) mmsi currentTime
        = Some pos /\
      (S i < length (trajectory ship))%nat /\
      time_key (nth i (trajectory ship) p0) = Some a /\
      time_key (nth (S i) (trajectory ship) p0) = Some b /\
      a <= t <= b /\
      (0 <= lambda <= 1)%R /\
      (a < b -> (lambda = IZR (t - a) / IZR (b - a))%R) /\
      Pos.lng pos = Fin x /\
      Pos.lat pos = Fin y /\
      (Rabs (x - (lng_of (nth i (trajectory ship) p0)
                  + (lng_of (nth (S i) (trajectory ship) p0)
                     - lng_of (nth i (trajectory ship) p0)) * lambda))
       <= / 1000000)%R /\
      (Rabs (y - (lat_of (nth i (trajectory ship) p0)
                  + (lat_of (nth (S i) (trajectory ship) p0)
                     - lat_of (nth i (trajectory ship) p0)) * lambda))
       <= / 1000000)%R.
Proof.
  intros colors shipGroups mmsi ship currentTime t s e p0 rest
    Hget Htraj Hlen Hs He Htime Ht Hbox.
  destruct (initializeShips_ok _ _ _ Hget) as (q0 & qs & Hq & Hsorted & Hstart & Hend).
  rewrite Htraj in *. injection Hq as <- <-.
  set (traj := p0 :: rest) in *. set (n := length traj) in *.
  assert (Hk0 : time_key p0 = Some s).
  { rewrite Hs, end_time_key in Hstart.
    destruct (time_key p0); simpl in Hstart; congruence. }
  assert (Hkn : time_key (nth (n - 1) traj p0) = Some e).
  { rewrite He, last_nth, end_time_key in Hend. fold n in Hend.
    destruct (time_key (nth (n - 1) traj p0)); simpl in Hend; congruence. }
  pose proof (all_timed p0 Hsorted Hkn) as Hkeys.
  destruct (@search_loop_done host traj p0 (ValidDate t) n 0 (n - 1))
    as (Hl & Hr & Hlr); [lia|lia|].
  destruct (@search_loop_brackets host traj p0 t n Hkeys 0%nat (n - 1)%nat s e)
    as (a & b & Ha & Hat & Hb & Htb);
    [lia|fold n; lia|exact Hk0|lia|exact Hkn|lia|].
  assert (Hquery :
    getShipPositionAtTime (initializeShips colors shipGroups) mmsi currentTime
    = Some (from_pair traj p0 (ValidDate t)
              (fst (search_loop n traj p0 (ValidDate t) 0 (n - 1)))
              (snd (search_loop n traj p0 (ValidDate t) 0 (n - 1))))).
  { apply (@getShipPositionAtTime_searches host _ mmsi ship currentTime t p0 rest);
      try assumption.
    - intros s' Hs'. rewrite Hk0 in Hs'. injection Hs' as <-. lia.
    - intros e' He'. fold traj n in He'. rewrite Hkn in He'.
      injection He' as <-. lia. }
  set (l := fst (search_loop n traj p0 (ValidDate t) 0 (n - 1))) in *.
  set (r := snd (search_loop n traj p0 (ValidDate t) 0 (n - 1))) in *.
  assert (Hr' : r = S l) by exact Hlr. clearbody l r. subst r.
  assert (Hbox1 : ((-1000 <= lng_of (nth l traj p0) <= 1000)
                   /\ (-1000 <= lat_of (nth l traj p0) <= 1000))%R)
    by (apply Hbox, nth_In; fold n; lia).
  assert (Hbox2 : ((-1000 <= lng_of (nth (S l) traj p0) <= 1000)
                   /\ (-1000 <= lat_of (nth (S l) traj p0) <= 1000))%R)
    by (apply Hbox, nth_In; fold n; lia).
  exists (from_pair traj p0 (ValidDate t) l (S l)), l, a, b.
  destruct (Z.eq_dec t a) as [Eta|Nta]; [|destruct (Z.eq_dec t b) as [Etb|Ntb]].
  - subst a.
    destruct (@from_pair_at_first host traj p0 t l (S l) b Ha Hb) as [Hx Hy].
    exists 0%R, (lng_of (nth l traj p0)), (lat_of (nth l traj p0)).
    split; [exact Hquery|]. split; [lia|]. split; [exact Ha|].
    split; [exact Hb|]. split; [lia|]. split; [lra|]. split.
    { intros _. replace (t - t) with 0 by lia. unfold Rdiv. ring. }
    split; [exact Hx|]. split; [exact Hy|].
    split; (match goal with |- (Rabs ?v <= _)%R =>
              replace v with 0%R by ring end; rewrite Rabs_R0; lra).
  - subst b.
    destruct (@from_pair_at_second host traj p0 t l (S l) a Ha Hb) as [Hx Hy];
      [congruence|].
    exists 1%R, (lng_of (nth (S l) traj p0)), (lat_of (nth (S l) traj p0)).
    split; [exact Hquery|]. split; [lia|]. split; [exact Ha|].
    split; [exact Hb|]. split; [lia|]. split; [lra|]. split.
    { intros Hlt. assert (IZR (t - a) <> 0)%R by (apply not_0_IZR; lia).
      field. assumption. }
    split; [exact Hx|]. split; [exact Hy|].
    split; (match goal with |- (Rabs ?v <= _)%R =>
              replace v with 0%R by ring end; rewrite Rabs_R0; lra).
  - assert (Hab : a < t < b) by lia.
    destruct (time_fraction_close Hab) as [Hp Hpl].
    destruct (interpolatePosition_coords (nth l traj p0) (nth (S l) traj p0) Hp)
      as (Hx & Hy & _).
    rewrite <- (@from_pair_interpolate host ieee traj p0 t l (S l) a b Ha Hb Hab)
      in Hx, Hy.
    assert (Hlam : (0 <= IZR (t - a) / IZR (b - a) <= 1)%R).
    { assert (0 < IZR (t - a))%R by (apply IZR_lt; lia).
      assert (IZR (t - a) < IZR (b - a))%R by (apply IZR_lt; lia).
      split.
      - apply Rmult_le_pos; [lra|]. left. apply Rinv_0_lt_compat. lra.
      - apply (Rmult_le_reg_r (IZR (b - a))); [lra|].
        unfold Rdiv. rewrite Rmult_assoc, Rinv_l by lra. lra. }
    eexists (IZR (t - a) / IZR (b - a))%R, _, _.
    split; [exact Hquery|]. split; [lia|]. split; [exact Ha|].
    split; [exact Hb|]. split; [lia|]. split; [exact Hlam|].
    split; [reflexivity|].
    split; [exact Hx|]. split; [exact Hy|].
    split.
    + apply (@lerp_close host ieee); [apply Hbox1|apply Hbox2|exact Hlam|exact Hp
                                     |exact Hpl].
    + apply (@lerp_close host ieee); [apply Hbox1|apply Hbox2|exact Hlam|exact Hp
                                     |exact Hpl].
Qed.

End SegmentFacts.

(** ** The statements on concrete trajectories *)

Lemma getShipPositionAtTime_interpolates_witness :
  exists pos,
    getShipPositionAtTime (host := UtcHost.utc_host) Demo.thirds_store
      "412000004" (at_ms 1000) = Some pos /\
    Pos.lng pos
      = Fin (to_fixed6 (host := UtcHost.utc_host)
               (lerp (host := UtcHost.utc_host)
                  (lng_of Demo.third_a) (lng_of Demo.third_b)
                  (time_fraction (host := UtcHost.utc_host) 1000 0 3000))) /\
    Pos.hdg pos = calculateDirection Demo.third_a Demo.third_b.
Proof.
  destruct (@getShipPositionAtTime_interpolates UtcHost.utc_host utc_ieee
              [] [("412000004", Some [Demo.third_a; Demo.third_b])]
              "412000004"
              {| trajectory := [Demo.third_a; Demo.third_b];
                 startTime := Some (ValidDate 0);
                 endTime := Some (ValidDate 3000);
                 vesselType := ""; flagCtry := ""; color := defaultColor;
                 dest := ""; iconSize := 30 |}
              (at_ms 1000) 1000 Demo.third_a [Demo.third_b] 0%nat 1%nat
              Demo.third_a Demo.third_b 0 3000)
    as (pos & Hq & _ & Hlng & _ & Hhdg & _);
    [reflexivity|reflexivity|simpl; lia|reflexivity|reflexivity|reflexivity
    |reflexivity|reflexivity|reflexivity|lia|].
  exists pos. split; [exact Hq|]. split; [exact Hlng|exact Hhdg].
Defined.

(** Claim C3 as stated fails.  One second into the three-second leg from
    (1, 1) to (2, 2) the longitude returned is the double of 1.333333: it
    is neither 1 + (2 - 1) * (1/3) nor what the host computes for
    [p1.lon + (p2.lon - p1.lon) * progress], which is within 2e-8 of 4/3;
    and the speed returned is that of the second point, although the first
    point has a speed (zero). *)
Lemma interpolated_longitude_is_rounded :
  exists pos,
    getShipPositionAtTime (host := UtcHost.utc_host) Demo.thirds_store
      "412000004" (at_ms 1000) = Some pos /\
    Pos.lng pos = Fin (fl (Host := UtcHost.utc_host) (1333333 / 1000000)) /\
    Pos.lng pos <> Fin (1 + (2 - 1) * (IZR (1000 - 0) / IZR (3000 - 0))) /\
    Pos.lng pos
    <> Fin (lerp (host := UtcHost.utc_host) 1 2
              (time_fraction (host := UtcHost.utc_host) 1000 0 3000)) /\
    Pt.speed Demo.third_a = Some 0%R /\
    Pos.speed pos = 5%R.
Proof.
  pose proof utc_ieee as ieee.
  assert (Hq :
    getShipPositionAtTime (host := UtcHost.utc_host) Demo.thirds_store
      "412000004" (at_ms 1000)
    = Some (interpolatePosition (host := UtcHost.utc_host)
              Demo.third_a Demo.third_b
              (Fin (time_fraction (host := UtcHost.utc_host) 1000 0 3000)))).
  { transitivity
      (Some (from_pair (host := UtcHost.utc_host) [Demo.third_a; Demo.third_b]
               Demo.third_a (ValidDate 1000) 0 1)); [reflexivity|].
    f_equal.
    apply (@from_pair_interpolate UtcHost.utc_host ieee
             [Demo.third_a; Demo.third_b] Demo.third_a 1000 0%nat 1%nat 0 3000);
      [reflexivity|reflexivity|lia]. }
  destruct (@time_fraction_close UtcHost.utc_host ieee 1000 0 3000 ltac:(lia))
    as [Hp Hpl].
  destruct (@interpolatePosition_coords UtcHost.utc_host
              Demo.third_a Demo.third_b _ Hp) as (Hlng & _ & _).
  assert (Ea : lng_of Demo.third_a = 1%R)
    by (unfold lng_of, Demo.third_a; cbn [Pt.lon Pt.lng]; apply or0_some_none).
  assert (Eb : lng_of Demo.third_b = 2%R)
    by (unfold lng_of, Demo.third_b; cbn [Pt.lon Pt.lng]; apply or0_some_none).
  rewrite Ea, Eb in Hlng.
  change (1000 - 0) with 1000 in *. change (3000 - 0) with 3000 in *.
  set (q := time_fraction (host := UtcHost.utc_host) 1000 0 3000) in *.
  destruct (@lerp_close UtcHost.utc_host ieee 1 2 (1000 / 3000) q
              ltac:(lra) ltac:(lra) ltac:(lra) Hp Hpl) as [Hnear _].
  set (x := lerp (host := UtcHost.utc_host) 1 2 q) in *.
  assert (Hval : (round6R x = 1333333 / 1000000)%R).
  { apply (@round6R_eval _ 1333333); simpl; lra. }
  pose proof (@fl_within UtcHost.utc_host ieee (1333333 / 1000000)%R
                ltac:(lra)) as Hfl.
  eexists. split; [exact Hq|]. split; [|split; [|split; [|split]]].
  - rewrite Hlng. unfold to_fixed6. now rewrite Hval.
  - rewrite Hlng. unfold to_fixed6. rewrite Hval. intros H.
    apply Fin_inj in H. lra.
  - rewrite Hlng. unfold to_fixed6. rewrite Hval. intros H.
    apply Fin_inj in H. lra.
  - reflexivity.
  - unfold interpolatePosition, Demo.third_a, Demo.third_b.
    cbn [Pos.speed Pt.speed]. unfold or0. cbn [truthy_optR].
    rewrite truthyR_0. rewrite truthyR_nonzero by lra. reflexivity.
Qed.

Lemma getShipPositionAtTime_near_segment_witness :
  exists pos,
    getShipPositionAtTime (host := UtcHost.utc_host) Demo.thirds_store
      "412000004" (at_ms 1000) = Some pos.
Proof.
  destruct (@getShipPositionAtTime_near_segment UtcHost.utc_host utc_ieee
              [] [("412000004", Some [Demo.third_a; Demo.third_b])]
              "412000004"
              {| trajectory := [Demo.third_a; Demo.third_b];
                 startTime := Some (ValidDate 0);
                 endTime := Some (ValidDate 3000);
                 vesselType := ""; flagCtry := ""; color := defaultColor;
                 dest := ""; iconSize := 30 |}
              (at_ms 1000) 1000 0 3000 Demo.third_a [Demo.third_b])
    as (pos & i & a & b & lambda & x & y & Hq & _);
    [reflexivity|reflexivity|simpl; lia|reflexivity|reflexivity|reflexivity
    |lia| |].
  - intros point [<-|[<-|[]]];
      unfold lng_of, lat_of, Demo.third_a, Demo.third_b;
      cbn [Pt.lon Pt.lng Pt.lat]; rewrite !or0_some_none;
      split; lra.
  - exists pos. exact Hq.
Defined.

(** Claim C4 as stated fails.  Both points of the entity have the longitude
    121.1234130859375, so every point of the segment between them has it;
    at 1000 ms, inside the time range [0, 2000], the longitude returned is
    the double of 121.123413. *)
Lemma rounded_position_leaves_segment :
  exists ship pos,
    SMap.get (ships Demo.north_store) "412000005" = Some ship /\
    trajectory ship = [Demo.north_a; Demo.north_b] /\
    startTime ship = Some (ValidDate 0) /\
    endTime ship = Some (ValidDate 2000) /\
    getShipPositionAtTime (host := UtcHost.utc_host) Demo.north_store
      "412000005" (at_ms 1000) = Some pos /\
    Pos.lng pos = Fin (fl (Host := UtcHost.utc_host) (121123413 / 1000000)) /\
    forall (i : nat) (lambda : R),
      (S i < length (trajectory ship))%nat ->
      (0 <= lambda <= 1)%R ->
      Pos.lng pos
      <> Fin (lng_of (nth i (trajectory ship) Demo.north_a)
              + (lng_of (nth (S i) (trajectory ship) Demo.north_a)
                 - lng_of (nth i (trajectory ship) Demo.north_a)) * lambda).
Proof.
  pose proof utc_ieee as ieee.
  assert (Hq :
    getShipPositionAtTime (host := UtcHost.utc_host) Demo.north_store
      "412000005" (at_ms 1000)
    = Some (interpolatePosition (host := UtcHost.utc_host)
              Demo.north_a Demo.north_b
              (Fin (time_fraction (host := UtcHost.utc_host) 1000 0 2000)))).
  { transitivity
      (Some (from_pair (host := UtcHost.utc_host) [Demo.north_a; Demo.north_b]
               Demo.north_a (ValidDate 1000) 0 1)); [reflexivity|].
    f_equal.
    apply (@from_pair_interpolate UtcHost.utc_host ieee
             [Demo.north_a; Demo.north_b] Demo.north_a 1000 0%nat 1%nat 0 2000);
      [reflexivity|reflexivity|lia]. }
  destruct (@time_fraction_close UtcHost.utc_host ieee 1000 0 2000 ltac:(lia))
    as [Hp Hpl].
  destruct (@interpolatePosition_coords UtcHost.utc_host
              Demo.north_a Demo.north_b _ Hp) as (Hlng & _ & _).
  assert (Ea : lng_of Demo.north_a = (121 + 1011 / 8192)%R)
    by (unfold Demo.north_a; apply lng_of_point_at).
  assert (Eb : lng_of Demo.north_b = (121 + 1011 / 8192)%R)
    by (unfold Demo.north_b; apply lng_of_point_at).
  rewrite Ea, Eb in Hlng.
  change (1000 - 0) with 1000 in *. change (2000 - 0) with 2000 in *.
  set (q := time_fraction (host := UtcHost.utc_host) 1000 0 2000) in *.
  destruct (@lerp_close UtcHost.utc_host ieee (121 + 1011 / 8192)
              (121 + 1011 / 8192) (1000 / 2000) q
              ltac:(lra) ltac:(lra) ltac:(lra) Hp Hpl) as [Hnear _].
  set (x := lerp (host := UtcHost.utc_host)
              (121 + 1011 / 8192) (121 + 1011 / 8192) q) in *.
  assert (Hval : (round6R x = 121123413 / 1000000)%R).
  { apply (@round6R_eval _ 121123413); simpl; lra. }
  pose proof (@fl_within UtcHost.utc_host ieee (121123413 / 1000000)%R
                ltac:(lra)) as Hfl.
  exists {| trajectory := [Demo.north_a; Demo.north_b];
            startTime := Some (ValidDate 0);
            endTime := Some (ValidDate 2000);
            vesselType := ""; flagCtry := ""; color := defaultColor;
            dest := ""; iconSize := 30 |}.
  eexists.
  split; [reflexivity|]. split; [reflexivity|]. split; [reflexivity|].
  split; [reflexivity|]. split; [exact Hq|]. split.
  - rewrite Hlng. unfold to_fixed6. now rewrite Hval.
  - intros i lambda Hi Hl. rewrite Hlng. unfold to_fixed6. rewrite Hval.
    assert (i = 0%nat) by (simpl in Hi; lia). subst i.
    cbn [trajectory nth]. rewrite Ea, Eb. intros H. apply Fin_inj in H. lra.
Qed.

(** ** Queries outside the time range *)

Section OutsideFacts.
Context {host : Host}.

(** Before [startTime] the first point is returned as [formatPosition] builds
    it, heading 0. *)
Lemma getShipPositionAtTime_before_start st mmsi ship currentTime t s p0 rest :
  SMap.get (ships st) mmsi = Some ship ->
  trajectory ship = p0 :: rest ->
  startTime ship = Some (ValidDate s) ->
  resolve_time currentTime = Some (ValidDate t) ->
  t < s ->
  getShipPositionAtTime st mmsi currentTime = Some (formatPosition p0).
Proof.
  intros Hget Htraj Hs Htime Hlt. unfold getShipPositionAtTime.
  rewrite Hget, Htraj, Htime, Hs. simpl.
  destruct (Z.ltb_spec t s); [reflexivity|lia].
Qed.

(** After [endTime] the last point is returned the same way. *)
Lemma getShipPositionAtTime_after_end st mmsi ship currentTime t e p0 rest :
  SMap.get (ships st) mmsi = Some ship ->
  trajectory ship = p0 :: rest ->
  (forall s, startTime ship = Some (ValidDate s) -> s <= t) ->
  endTime ship = Some (ValidDate e) ->
  resolve_time currentTime = Some (ValidDate t) ->
  e < t ->
  getShipPositionAtTime st mmsi currentTime
  = Some (formatPosition (last (p0 :: rest) p0)).
Proof.
  intros Hget Htraj Hs He Htime Hlt. unfold getShipPositionAtTime.
  rewrite Hget, Htraj, Htime, He.
  assert (E : match startTime ship with
              | Some s => date_lt (ValidDate t) s
              | None => false
              end = false).
  { destruct (startTime ship) as [[s|]|] eqn:Es; try reflexivity.
    simpl. apply Z.ltb_ge. now apply Hs. }
  rewrite E. unfold date_gt. cbn [date_lt].
  destruct (Z.ltb_spec e t); [reflexivity|lia].
Qed.

End OutsideFacts.

(** Claim C2 on the code.  The entity sails due south, bearing 180, from its
    first point (1000 ms) to its second (2000 ms).  Queried at 500 ms it is
    at the first point and queried at 2500 ms at the last point, as claimed,
    but both times with heading 0 instead of 180. *)
Theorem getShipPositionAtTime_outside_range_heading :
  calculateDirection Demo.south_a Demo.south_b = 180%R /\
  (exists pos,
     getShipPositionAtTime (host := UtcHost.utc_host) Demo.south_store
       "412000006" (at_ms 500) = Some pos /\
     Pos.lng pos = Fin (lng_of Demo.south_a) /\
     Pos.lat pos = Fin (lat_of Demo.south_a) /\
     Pos.hdg pos = 0%R /\ Pos.cog pos = 0%R) /\
  (exists pos,
     getShipPositionAtTime (host := UtcHost.utc_host) Demo.south_store
       "412000006" (at_ms 2500) = Some pos /\
     Pos.lng pos = Fin (lng_of Demo.south_b) /\
     Pos.lat pos = Fin (lat_of Demo.south_b) /\
     Pos.hdg pos = 0%R /\ Pos.cog pos = 0%R).
Proof.
  split; [apply calculateDirection_south|]. split.
  - exists (formatPosition Demo.south_a). split; [|repeat split].
    apply (@getShipPositionAtTime_before_start UtcHost.utc_host _ _
             {| trajectory := [Demo.south_a; Demo.south_b];
                startTime := Some (ValidDate 1000);
                endTime := Some (ValidDate 2000);
                vesselType := ""; flagCtry := ""; color := defaultColor;
                dest := ""; iconSize := 30 |} _ 500 1000
             Demo.south_a [Demo.south_b]);
      [reflexivity|reflexivity|reflexivity|reflexivity|lia].
  - exists (formatPosition Demo.south_b). split; [|repeat split].
    apply (@getShipPositionAtTime_after_end UtcHost.utc_host _ _
             {| trajectory := [Demo.south_a; Demo.south_b];
                startTime := Some (ValidDate 1000);
                endTime := Some (ValidDate 2000);
                vesselType := ""; flagCtry := ""; color := defaultColor;
                dest := ""; iconSize := 30 |} _ 2500 2000
             Demo.south_a [Demo.south_b]);
      [reflexivity|reflexivity| |reflexivity|reflexivity|lia].
    intros s [= <-]. lia.
Qed.

(** ** The snapshot *)

Lemma truthy_num_true n :
  truthy_num n = true <-> exists r, n = Fin r /\ r <> 0%R.
Proof.
  destruct n as [r|]; simpl.
  - rewrite truthyR_true. split.
    + intros H. now exists r.
    + intros (r' & [= <-] & H). exact H.
  - split; [discriminate|intros (r & [=] & _)].
Qed.

Lemma invalid_position_false position :
  Playback.invalid_position position = false <->
  (truthy_num (Pos.lng position) = true \/ truthy_num (Pos.lon position) = true)
  /\ truthy_num (Pos.lat position) = true.
Proof.
  unfold Playback.invalid_position.
  destruct (truthy_num (Pos.lng position)), (truthy_num (Pos.lon position)),
    (truthy_num (Pos.lat position)); simpl; intuition discriminate.
Qed.

Section SnapshotFacts.
Context {host : Host}.

Lemma position_has_ship st mmsi currentTime pos :
  getShipPositionAtTime st mmsi currentTime = Some pos ->
  exists ship, getShip st mmsi = Some ship.
Proof.
  unfold getShipPositionAtTime, getShip.
  destruct (SMap.get (ships st) mmsi) as [ship|]; [|discriminate].
  intros _. now exists ship.
Qed.

(** The keys the loop leaves in [shipPositions]. *)
Lemma positions_loop_keys store currentTime activeShips :
  forall shipPositions k,
    In k (SMap.keys (Playback.positions_loop store currentTime activeShips
                       shipPositions))
    <-> In k (SMap.keys shipPositions) \/
        (In k activeShips /\ k <> "" /\
         exists pos, getShipPositionAtTime store k currentTime = Some pos /\
                     Playback.invalid_position pos = false).
Proof.
  induction activeShips as [|mmsi rest IH]; intros shipPositions k; simpl.
  - intuition.
  - assert (Hskip :
      (forall pos, getShipPositionAtTime store mmsi currentTime = Some pos ->
                   Playback.invalid_position pos = false -> mmsi = "") ->
      In k (SMap.keys (Playback.positions_loop store currentTime rest
                         shipPositions))
      <-> In k (SMap.keys shipPositions) \/
          ((mmsi = k \/ In k rest) /\ k <> "" /\
           exists pos, getShipPositionAtTime store k currentTime = Some pos /\
                       Playback.invalid_position pos = false)).
    { intros Hno. rewrite IH. split.
      - intros [H|(H1 & H2 & H3)]; [now left|right; auto].
      - intros [H|([->|H1] & H2 & pos & H3 & H4)]; [now left| |right; eauto].
        exfalso. apply H2. eapply Hno; eassumption. }
    destruct (String.eqb_spec mmsi "") as [->|Hne].
    { apply Hskip. reflexivity. }
    destruct (getShipPositionAtTime store mmsi currentTime) as [position|] eqn:Ep.
    2:{ apply Hskip. intros pos [=]. }
    destruct (Playback.invalid_position position) eqn:Ei.
    { apply Hskip. intros pos [= <-] H. congruence. }
    destruct (position_has_ship _ _ _ Ep) as [shipInfo Hship].
    rewrite Hship, IH, smap_keys_set. split.
    + intros [[->|H]|(H1 & H2 & H3)].
      * right. split; [now left|]. split; [assumption|]. now exists position.
      * now left.
      * right. auto.
    + intros [H|([->|H1] & H2 & H3)].
      * left. now right.
      * left. now left.
      * right. auto.
Qed.

(** The marker stored for an id holds the position queried for that id. *)
Lemma positions_loop_get store currentTime activeShips :
  forall shipPositions k m,
    SMap.get (Playback.positions_loop store currentTime activeShips
                shipPositions) k = Some m ->
    SMap.get shipPositions k = Some m \/
    getShipPositionAtTime store k currentTime = Some (Playback.position m).
Proof.
  induction activeShips as [|mmsi rest IH]; intros shipPositions k m; simpl.
  - now left.
  - destruct (String.eqb mmsi ""); [apply IH|].
    destruct (getShipPositionAtTime store mmsi currentTime) as [position|] eqn:Ep;
      [|apply IH].
    destruct (Playback.invalid_position position); [apply IH|].
    destruct (getShip store mmsi) as [shipInfo|]; [|apply IH].
    intros H. apply IH in H. destruct H as [H|H]; [|now right].
    destruct (string_dec k mmsi) as [->|Hne].
    + rewrite smap_get_set_same in H. injection H as <-. right. exact Ep.
    + rewrite smap_get_set_other in H by assumption. now left.
Qed.

(** With no active entity the loop has nothing to do either. *)
Lemma updateAllShipsPositions_loop timeSyncController multiShipManager currentTime :
  Playback.updateAllShipsPositions timeSyncController multiShipManager currentTime
  = Playback.positions_loop multiShipManager currentTime
      (TSC.getActiveShipsAtTime timeSyncController currentTime) [].
Proof.
  unfold Playback.updateAllShipsPositions.
  destruct (TSC.getActiveShipsAtTime timeSyncController currentTime); reflexivity.
Qed.

(** Claim C8, as the code has it.  An id is in the snapshot exactly when it
    is active, is not the empty string, and the position queried for it is
    not null, has a longitude ([lng] or [lon]) that is a number other than
    zero and a latitude that is a number other than zero; the marker stored
    for it holds that position.  So an active entity is left out, silently,
    exactly when its position is null or a coordinate is [NaN] or zero. *)
Theorem updateAllShipsPositions_members :
  forall (timeSyncController : TSC.State) (multiShipManager : State)
         (currentTime : option TimeArg) (mmsi : string),
    (In mmsi (SMap.keys (Playback.updateAllShipsPositions timeSyncController
                           multiShipManager currentTime))
     <-> In mmsi (TSC.getActiveShipsAtTime timeSyncController currentTime) /\
         mmsi <> "" /\
         exists pos,
           getShipPositionAtTime multiShipManager mmsi currentTime = Some pos /\
           ((exists r, Pos.lng pos = Fin r /\ r <> 0%R) \/
            (exists r, Pos.lon pos = Fin r /\ r <> 0%R)) /\
           (exists r, Pos.lat pos = Fin r /\ r <> 0%R)) /\
    (forall m,
       SMap.get (Playback.updateAllShipsPositions timeSyncController
                   multiShipManager currentTime) mmsi = Some m ->
       getShipPositionAtTime multiShipManager mmsi currentTime
         = Some (Playback.position m)).
Proof.
  intros timeSyncController multiShipManager currentTime mmsi.
  rewrite updateAllShipsPositions_loop. split.
  - rewrite positions_loop_keys. simpl.
    setoid_rewrite invalid_position_false.
    setoid_rewrite truthy_num_true.
    split.
    + intros [[]|H]. exact H.
    + intros H. now right.
  - intros m Hm. apply positions_loop_get in Hm.
    destruct Hm as [Hm|Hm]; [discriminate|exact Hm].
Qed.

End SnapshotFacts.

Lemma updateAllShipsPositions_members_witness :
  In "412000001"
     (SMap.keys (Playback.updateAllShipsPositions (host := UtcHost.utc_host)
                   Demo.registry Demo.store (at_ms 1000))).
Proof.
  apply (proj1 (@updateAllShipsPositions_members UtcHost.utc_host
                  Demo.registry Demo.store (at_ms 1000) "412000001")).
  split; [vm_compute; now left|]. split; [discriminate|].
  exists (with_direction (formatPosition (point_at 121 31 (at_ms 1000)))
            (calculateDirection (point_at 121 31 (at_ms 1000))
               (point_at 120 30 (at_ms 5000)))).
  split; [reflexivity|]. split.
  - left. exists 121%R. split; [|lra].
    cbn [with_direction formatPosition Pos.lng]. now rewrite lng_of_point_at.
  - exists 31%R. split; [|lra].
    cbn [with_direction formatPosition Pos.lat]. now rewrite lat_of_point_at.
Defined.

(** Claim C8 as stated fails.  The entity reports once, on the equator at
    longitude 5.  At the time of the report it is active and its position
    has the finite coordinates (5, 0), yet it is not in the snapshot. *)
Lemma equator_entity_left_out :
  In "412000007"
     (TSC.getActiveShipsAtTime (host := UtcHost.utc_host) Demo.equator_registry
        (at_ms 1000)) /\
  (exists pos,
     getShipPositionAtTime (host := UtcHost.utc_host) Demo.equator_store
       "412000007" (at_ms 1000) = Some pos /\
     Pos.lng pos = Fin 5 /\ Pos.lon pos = Fin 5 /\ Pos.lat pos = Fin 0) /\
  ~ In "412000007"
      (SMap.keys (Playback.updateAllShipsPositions (host := UtcHost.utc_host)
                    Demo.equator_registry Demo.equator_store (at_ms 1000))).
Proof.
  assert (Hq :
    getShipPositionAtTime (host := UtcHost.utc_host) Demo.equator_store
      "412000007" (at_ms 1000)
    = Some (formatPosition (point_at 5 0 (at_ms 1000)))) by reflexivity.
  split; [vm_compute; now left|]. split.
  - eexists. split; [exact Hq|].
    cbn [formatPosition Pos.lng Pos.lon Pos.lat].
    now rewrite lng_of_point_at, lat_of_point_at.
  - change (Playback.updateAllShipsPositions (host := UtcHost.utc_host)
              Demo.equator_registry Demo.equator_store (at_ms 1000))
      with (Playback.positions_loop (host := UtcHost.utc_host)
              Demo.equator_store (at_ms 1000) ["412000007"] []).
    rewrite positions_loop_keys.
    intros [[]|(_ & _ & pos & Hpos & Hinv)].
    rewrite Hq in Hpos. injection Hpos as <-.
    unfold Playback.invalid_position in Hinv.
    cbn [formatPosition Pos.lng Pos.lon Pos.lat] in Hinv.
    rewrite lat_of_point_at in Hinv. cbn [truthy_num] in Hinv.
    rewrite truthyR_0 in Hinv. rewrite orb_true_r in Hinv. discriminate.
Qed.

(* ================================================================== *)
(** * Further properties of the code *)

(** ** The registry after a load *)

Section RegistryLoadFacts.
Context {host : Host}.

Lemma keep_valid_nonempty l d :
  In (Some d) l -> date_isNaN d = false -> TSC.keep_valid l <> [].
Proof.
  induction l as [|[x|] l IH]; simpl; intros Hin Hd; [contradiction| |].
  - destruct (date_isNaN x) eqn:Ex; [|discriminate].
    destruct Hin as [[= ->]|Hin]; [congruence|now apply IH].
  - destruct Hin as [[=]|Hin]. now apply IH.
Qed.

Lemma has_valid_time_parses point :
  TSC.has_valid_time point = true ->
  exists d, TSC.parseTime (Pt.postime point) = Some d /\ date_isNaN d = false.
Proof.
  unfold TSC.has_valid_time.
  destruct (truthy_time (Pt.postime point)); simpl; [|discriminate].
  destruct (TSC.parseTime (Pt.postime point)) as [d|]; [|discriminate].
  intros H. exists d. split; [reflexivity|]. now apply negb_true_iff.
Qed.

(** The time stamps the loop of [initializeShips] collects are the parsed
    times of the points. *)
Lemma valid_times_parsed trajectory :
  TSC.keep_valid (map (fun point => TSC.parseTime (Pt.postime point))
                      (filter TSC.has_valid_time trajectory))
  = map ValidDate (parsed_times trajectory).
Proof.
  induction trajectory as [|p ps IH]; [reflexivity|].
  cbn [filter parsed_times flat_map]. fold (parsed_times ps).
  unfold TSC.has_valid_time at 1.
  destruct (truthy_time (Pt.postime p)) eqn:Et; cbn [negb].
  - destruct (TSC.parseTime (Pt.postime p)) as [[ms|]|] eqn:Ep;
      cbn [date_isNaN negb app]; [|exact IH|exact IH].
    cbn [map TSC.keep_valid]. rewrite Ep. cbn [date_isNaN map].
    now rewrite IH.
  - assert (Ep : TSC.parseTime (Pt.postime p) = None)
      by (unfold TSC.parseTime; now rewrite Et).
    rewrite Ep. exact IH.
Qed.

Lemma parsed_times_In trajectory y :
  In y (parsed_times trajectory) <->
  exists point,
    In point trajectory /\
    TSC.parseTime (Pt.postime point) = Some (ValidDate y).
Proof.
  unfold parsed_times. rewrite in_flat_map. split.
  - intros (point & Hin & Hy). exists point. split; [exact Hin|].
    destruct (TSC.parseTime (Pt.postime point)) as [[ms|]|];
      [|contradiction|contradiction].
    destruct Hy as [->|[]]. reflexivity.
  - intros (point & Hin & Hy). exists point. split; [exact Hin|].
    rewrite Hy. now left.
Qed.

(** An entity gets a window exactly when one of its points has a time stamp
    the registry can parse and the engine takes the time stamps as the
    arguments of one call; the window then runs from the least to the
    greatest of them. *)
Lemma ship_window_cases trajectory :
  match TSC.ship_window trajectory with
  | None =>
      parsed_times trajectory = [] \/
      spreadable (List.length (parsed_times trajectory)) = false
  | Some w =>
      parsed_times trajectory <> [] /\
      spreadable (List.length (parsed_times trajectory)) = true /\
      exists s e,
        w = TSC.mkShipTimes (ValidDate s) (ValidDate e) /\
        In s (parsed_times trajectory) /\ In e (parsed_times trajectory) /\
        forall y, In y (parsed_times trajectory) -> s <= y <= e
  end.
Proof.
  pose proof (valid_times_parsed trajectory) as Hvt.
  unfold TSC.ship_window.
  destruct trajectory as [|p0 ps]; [now left|].
  destruct (filter TSC.has_valid_time (p0 :: ps)) as [|q qs].
  { left. cbn [map TSC.keep_valid] in Hvt. symmetry in Hvt.
    now apply map_eq_nil in Hvt. }
  destruct (parsed_times (p0 :: ps)) as [|x r] eqn:Ep.
  { rewrite Hvt. now left. }
  rewrite Hvt, length_map. cbn [map].
  destruct (spreadable (List.length (x :: r))) eqn:Esp; cbn [negb];
    [|now right].
  assert (Hall : Forall (fun d => date_isNaN d = false) (map ValidDate r)).
  { apply Forall_forall. intros d Hd. apply in_map_iff in Hd.
    now destruct Hd as (k & <- & _). }
  unfold TSC.min_dates, TSC.max_dates.
  destruct (fold_date_min_valid x Hall) as (s & Hs & Hsx & Hsall & Hsin).
  destruct (fold_date_max_valid x Hall) as (e & He & Hxe & Heall & Hein).
  rewrite Hs, He. cbn [date_isNaN orb]. unfold date_gt. cbn [date_lt].
  destruct (Z.ltb_spec e s); [lia|].
  assert (Hdate : forall y, In (ValidDate y) (map ValidDate r) -> In y r).
  { intros y Hy. apply in_map_iff in Hy. destruct Hy as (k & [= ->] & Hk).
    exact Hk. }
  split; [discriminate|]. split; [reflexivity|].
  exists s, e. split; [reflexivity|]. split; [|split].
  - destruct Hsin as [->|Hin]; [now left|right; now apply Hdate].
  - destruct Hein as [->|Hin]; [now left|right; now apply Hdate].
  - intros y [<-|Hy]; [lia|].
    assert (In (ValidDate y) (map ValidDate r)) by now apply in_map.
    split; [now apply Hsall|now apply Heall].
Qed.

Lemma load_ships_get_other entries :
  forall acc k,
    ~ In k (map fst entries) ->
    SMap.get (TSC.load_ships entries acc) k = SMap.get acc k.
Proof.
  induction entries as [|[m g] rest IH]; intros acc k Hk; simpl; [reflexivity|].
  simpl in Hk.
  destruct g as [trajectory|]; [|apply IH; tauto].
  destruct (TSC.ship_window trajectory) as [w|]; [|apply IH; tauto].
  rewrite IH by tauto. apply smap_get_set_other. intros ->. tauto.
Qed.

Lemma load_ships_get entries :
  forall acc k g,
    NoDup (map fst entries) -> In (k, g) entries ->
    SMap.get (TSC.load_ships entries acc) k
    = match g with
      | Some trajectory =>
          match TSC.ship_window trajectory with
          | Some w => Some w
          | None => SMap.get acc k
          end
      | None => SMap.get acc k
      end.
Proof.
  induction entries as [|[m g0] rest IH]; intros acc k g Hnd Hin;
    [contradiction|].
  simpl in Hnd. inversion Hnd as [|? ? Hnotin Hnd']; subst.
  destruct Hin as [[= -> ->]|Hin].
  - simpl. destruct g as [trajectory|]; [|now apply load_ships_get_other].
    destruct (TSC.ship_window trajectory) as [w|];
      [|now apply load_ships_get_other].
    rewrite load_ships_get_other by assumption. apply smap_get_set_same.
  - assert (Hne : k <> m).
    { intros ->. apply Hnotin. apply (in_map fst) in Hin. exact Hin. }
    simpl. destruct g0 as [trajectory0|]; [|now apply IH].
    destruct (TSC.ship_window trajectory0) as [w0|]; [|now apply IH].
    rewrite (@IH _ k g Hnd' Hin). rewrite smap_get_set_other by assumption.
    reflexivity.
Qed.

Lemma initializeShips_ships st0 shipGroups globalTimeRange :
  TSC.ships (TSC.initializeShips st0 shipGroups globalTimeRange)
  = TSC.load_ships shipGroups [].
Proof.
  unfold TSC.initializeShips.
  destruct globalTimeRange as [[a b]|];
    repeat match goal with
           | |- context [if ?c then _ else _] => destruct c
           | |- context [match TSC.load_ships ?e ?a with _ => _ end] =>
               destruct (TSC.load_ships e a) eqn:?
           end; reflexivity.
Qed.

(** X1.  With distinct ids, what the registry holds for an id after
    [initializeShips]: nothing for a group without data; for a group with
    data an entry exactly when some point has a [postime] the registry
    parses and the engine takes the parsed times as the arguments of one
    call; the entry then runs from the least to the greatest parsed time.
    An id without entry is never active. *)
Theorem initializeShips_registers :
  forall st0 shipGroups globalTimeRange mmsi g,
    NoDup (map fst shipGroups) ->
    In (mmsi, g) shipGroups ->
    let registered :=
      SMap.get (TSC.ships (TSC.initializeShips st0 shipGroups globalTimeRange))
               mmsi in
    (g = None -> registered = None) /\
    (forall trajectory,
       g = Some trajectory ->
       (registered = None <->
        parsed_times trajectory = [] \/
        spreadable (List.length (parsed_times trajectory)) = false) /\
       (forall w,
          registered = Some w ->
          exists s e,
            w = TSC.mkShipTimes (ValidDate s) (ValidDate e) /\
            In s (parsed_times trajectory) /\
            In e (parsed_times trajectory) /\
            forall y, In y (parsed_times trajectory) -> s <= y <= e)) /\
    (registered = None ->
     forall currentTime,
       ~ In mmsi (TSC.getActiveShipsAtTime
                    (TSC.initializeShips st0 shipGroups globalTimeRange)
                    currentTime)).
Proof.
  intros st0 shipGroups globalTimeRange mmsi g Hnd Hin registered.
  assert (Hget :
    registered = match g with
                 | Some trajectory => TSC.ship_window trajectory
                 | None => None
                 end).
  { subst registered.
    rewrite initializeShips_ships, (@load_ships_get shipGroups [] mmsi g Hnd Hin).
    destruct g as [trajectory|]; [|reflexivity].
    now destruct (TSC.ship_window trajectory). }
  split; [|split].
  - intros ->. exact Hget.
  - intros trajectory ->. rewrite Hget.
    pose proof (ship_window_cases trajectory) as Hcases.
    destruct (TSC.ship_window trajectory) as [w|].
    + destruct Hcases as (Hne & Hsp & s & e & Hw & Hs & He & Hall).
      split.
      * split; [discriminate|]. intros [Hnil|Hno]; [contradiction|congruence].
      * intros w' [= <-]. now exists s, e.
    + split; [tauto|discriminate].
  - intros Hnone currentTime Hact.
    unfold TSC.getActiveShipsAtTime in Hact.
    destruct (TSC.resolve_time currentTime) as [time|]; [|contradiction].
    apply active_loop_In in Hact. destruct Hact as (w & Hw & _).
    destruct (initializeShips_inv st0 shipGroups globalTimeRange) as [Hnd' _].
    apply (smap_In_get _ _ _ Hnd') in Hw. subst registered. congruence.
Qed.


(** X3.  With a global range [s, e], [s <= e], after [updateTime] of a valid
    instant [t] the clock is at the end exactly when [e <= t] and at the
    start exactly when [t <= s] (at both for the one-instant range
    [s = e]); [reset] puts the clock at the start, paused, with the entities
    untouched. *)
Theorem clock_ends :
  forall st s e,
    TSC.globalStartTime st = Some (ValidDate s) ->
    TSC.globalEndTime st = Some (ValidDate e) ->
    s <= e ->
    (forall newTime t,
       TSC.resolve_time newTime = Some (ValidDate t) ->
       (TSC.isAtEnd (TSC.updateTime st newTime) = true <-> e <= t \/ s = e) /\
       (TSC.isAtStart (TSC.updateTime st newTime) = true <-> t <= s \/ s = e)) /\
    TSC.getCurrentTime (TSC.reset st) = Some (ValidDate s) /\
    TSC.isPlaying (TSC.reset st) = false /\
    TSC.isAtStart (TSC.reset st) = true /\
    TSC.ships (TSC.reset st) = TSC.ships st.
Proof.
  intros st s e Hs He Hse. split.
  - intros newTime t Ht.
    unfold TSC.isAtEnd, TSC.isAtStart, TSC.updateTime.
    rewrite Ht, Hs, He. unfold date_gt, date_ge. cbn [date_lt].
    destruct (Z.ltb_spec t s);
      [|destruct (Z.ltb_spec e t)]; cbn; rewrite ?Hs, ?He; cbn;
      rewrite !Z.leb_le; lia.
  - unfold TSC.reset, TSC.getCurrentTime, TSC.isAtStart. rewrite Hs. cbn.
    rewrite Hs. cbn. rewrite Z.leb_refl. repeat split.
Qed.

End RegistryLoadFacts.

Lemma initializeShips_registers_witness :
  exists s e,
    SMap.get (TSC.ships Demo.registry) "412000002"
    = Some (TSC.mkShipTimes (ValidDate s) (ValidDate e)) /\
    In s (parsed_times (host := UtcHost.utc_host)
            [point_at 110 20 (at_ms 3000); point_at 111 21 (at_ms 9000)]) /\
    In e (parsed_times (host := UtcHost.utc_host)
            [point_at 110 20 (at_ms 3000); point_at 111 21 (at_ms 9000)]).
Proof.
  destruct (proj2 (proj1 (proj2
              (@initializeShips_registers UtcHost.utc_host TSC.create
                 Demo.groups None "412000002"
                 (Some [point_at 110 20 (at_ms 3000);
                        point_at 111 21 (at_ms 9000)])
                 ltac:(repeat constructor; simpl; intuition discriminate)
                 ltac:(simpl; tauto)))
              _ eq_refl)
            (TSC.mkShipTimes (ValidDate 3000) (ValidDate 9000)) eq_refl)
    as (s & e & Hw & Hs & He & _).
  exists s, e. split; [now rewrite <- Hw|]. split; [exact Hs|exact He].
Defined.


Lemma clock_ends_witness :
  TSC.isAtEnd (TSC.updateTime (host := UtcHost.utc_host) Demo.registry
                 (at_ms 9000)) = true.
Proof.
  apply (proj1 (proj1 (@clock_ends UtcHost.utc_host Demo.registry 1000 9000
                         eq_refl eq_refl ltac:(lia))
                  (at_ms 9000) 9000 eq_refl)).
  left. lia.
Defined.

(** ** What the store keeps of a trajectory *)

Section StoreLoadFacts.
Context {host : Host}.

Lemma insert_point_perm x l : Permutation (x :: l) (insert_point x l).
Proof.
  induction l as [|y l IH]; simpl; [apply Permutation_refl|].
  destruct (comes_after x y); [|apply Permutation_refl].
  eapply perm_trans; [apply perm_swap|]. now apply perm_skip.
Qed.

Lemma sort_points_perm l : Permutation l (sort_points l).
Proof.
  induction l as [|x l IH]; simpl; [constructor|].
  eapply perm_trans; [apply perm_skip, IH|apply insert_point_perm].
Qed.

(** Sorting leaves a sorted list as it is: the sort is stable. *)
Lemma insert_point_head x l :
  Forall (point_le x) l -> insert_point x l = x :: l.
Proof.
  destruct l as [|y l]; [reflexivity|]. intros H. simpl.
  inversion H as [|? ? Hxy _]; subst. apply comes_after_false in Hxy.
  now rewrite Hxy.
Qed.

Lemma sort_points_sorted_id l :
  StronglySorted point_le l -> sort_points l = l.
Proof.
  induction 1 as [|x l Hs IH Hx]; [reflexivity|]. simpl. rewrite IH.
  now apply insert_point_head.
Qed.

(** The record [addShip] stores for a non-empty trajectory. *)
Lemma addShip_get st mmsi p0 ps :
  mmsi <> "" ->
  exists ship,
    SMap.get (ships (addShip st mmsi (Some (p0 :: ps)))) mmsi = Some ship /\
    trajectory ship
    = (if existsb (fun point => truthy_time (Pt.postime point)) (p0 :: ps)
       then sort_points (p0 :: ps) else p0 :: ps) /\
    ship_ok ship.
Proof.
  intros Hne. unfold addShip.
  destruct (String.eqb_spec mmsi ""); [contradiction|].
  set (sorted := if existsb (fun point => truthy_time (Pt.postime point)) (p0 :: ps)
                 then sort_points (p0 :: ps) else p0 :: ps).
  assert (Hlen : length sorted = S (length ps)).
  { subst sorted. destruct (existsb _ _); [|reflexivity].
    now rewrite sort_points_length. }
  assert (Hsorted : StronglySorted point_le sorted).
  { subst sorted.
    destruct (existsb (fun point => truthy_time (Pt.postime point)) (p0 :: ps))
      eqn:Ex; [apply sort_points_sorted|now apply untimed_sorted]. }
  destruct (getShipColor _ _) as [c colors']. cbn [ships].
  eexists. split; [apply smap_get_set_same|]. split; [reflexivity|].
  clearbody sorted. destruct sorted as [|q0 qs]; [discriminate|].
  exists q0, qs. cbn. repeat split; [assumption|].
  f_equal. apply last_default.
Qed.

(** X4.  [addShip] stores the points of a non-empty trajectory, all of them
    and no others, in ascending order of their parsed time stamps with the
    points that have none at the end; a trajectory already in that order is
    stored as it is. *)
Theorem addShip_sorts :
  forall st mmsi p0 ps,
    mmsi <> "" ->
    exists ship,
      SMap.get (ships (addShip st mmsi (Some (p0 :: ps)))) mmsi = Some ship /\
      Permutation (p0 :: ps) (trajectory ship) /\
      StronglySorted point_le (trajectory ship) /\
      (StronglySorted point_le (p0 :: ps) -> trajectory ship = p0 :: ps).
Proof.
  intros st mmsi p0 ps Hne.
  destruct (addShip_get st p0 ps Hne) as (ship & Hget & Htraj & Hok).
  exists ship. split; [exact Hget|].
  destruct Hok as (q0 & qs & _ & Hsorted & _).
  split; [|split; [exact Hsorted|]].
  - rewrite Htraj. destruct (existsb _ _);
      [apply sort_points_perm|apply Permutation_refl].
  - intros Hs. rewrite Htraj. destruct (existsb _ _); [|reflexivity].
    now apply sort_points_sorted_id.
Qed.

(** A time stamp the store accepts is accepted by the registry, with the
    same time value. *)
Lemma time_key_registry point k :
  time_key point = Some k ->
  TSC.parseTime (Pt.postime point) = Some (ValidDate k) /\
  TSC.has_valid_time point = true /\
  truthy_time (Pt.postime point) = true.
Proof.
  unfold time_key, parseTime, TSC.has_valid_time, TSC.parseTime.
  destruct (truthy_time (Pt.postime point)) eqn:Et; simpl; [|discriminate].
  destruct (Pt.postime point) as [[s|[ms|]]|]; simpl; try discriminate.
  - destruct (_ || _); [discriminate|].
    destruct (Date_parse s) as [ms|]; [|discriminate].
    destruct (_ || _); [discriminate|]. intros [= ->]. auto.
  - intros [= ->]. auto.
Qed.

Lemma keep_valid_all l :
  TSC.keep_valid (map (fun k => Some (ValidDate k)) l) = map ValidDate l.
Proof. induction l as [|k l IH]; simpl; [reflexivity|now rewrite IH]. Qed.

(** X5.  When the store can parse the time stamp of every point of a
    non-empty trajectory, it stores a window [s, e] for the entity, the
    times of the first and the last point of its sorted trajectory; the
    registry loaded with the same trajectory has this very window when
    the engine takes as many arguments as there are points, and no entry
    for the entity otherwise. *)
Theorem windows_agree :
  forall st0 st mmsi p0 ps,
    mmsi <> "" ->
    (forall point, In point (p0 :: ps) -> time_key point <> None) ->
    exists s e ship,
      SMap.get (ships (addShip st mmsi (Some (p0 :: ps)))) mmsi = Some ship /\
      startTime ship = Some (ValidDate s) /\
      endTime ship = Some (ValidDate e) /\
      s <= e /\
      SMap.get
        (TSC.ships (TSC.initializeShips st0 [(mmsi, Some (p0 :: ps))] None))
        mmsi
      = if spreadable (List.length (p0 :: ps))
        then Some (TSC.mkShipTimes (ValidDate s) (ValidDate e))
        else None.
Proof.
  intros st0 st mmsi p0 ps Hne Hkeys.
  destruct (addShip_get st p0 ps Hne) as (ship & Hget & Htraj & Hok).
  destruct Hok as (q0 & qs & Hq & Hsorted & Hstart & Hend).
  assert (Hperm : Permutation (p0 :: ps) (trajectory ship)).
  { rewrite Htraj. destruct (existsb _ _);
      [apply sort_points_perm|apply Permutation_refl]. }
  assert (Hkey : forall point, In point (p0 :: ps) ->
                               exists k, time_key point = Some k).
  { intros point Hin. specialize (Hkeys point Hin).
    destruct (time_key point) as [k|]; [now exists k|congruence]. }
  (* the time stamps the registry reads *)
  assert (Htimes : forall k,
             In k (parsed_times (p0 :: ps))
             <-> exists point, In point (p0 :: ps) /\ time_key point = Some k).
  { intros k. rewrite parsed_times_In. split.
    - intros (point & Hin & Hp). exists point. split; [exact Hin|].
      destruct (Hkey point Hin) as [k' Hk'].
      destruct (time_key_registry _ Hk') as (Hp' & _). congruence.
    - intros (point & Hin & Hk). exists point. split; [exact Hin|].
      now destruct (time_key_registry _ Hk) as (Hp & _). }
  assert (Hcount : List.length (parsed_times (p0 :: ps))
                   = List.length (p0 :: ps)).
  { generalize dependent (p0 :: ps). intros l. intros.
    clear - Hkey. induction l as [|x l IH]; [reflexivity|].
    destruct (Hkey x (or_introl eq_refl)) as [kx Hkx].
    destruct (time_key_registry _ Hkx) as (Hpx & _).
    cbn [parsed_times flat_map]. rewrite Hpx. cbn [app List.length].
    f_equal. apply IH. intros y Hy. apply Hkey. now right. }
  (* the store *)
  rewrite Hq in Hsorted, Hperm, Hend.
  assert (Hin_q : forall point, In point (q0 :: qs) <-> In point (p0 :: ps)).
  { intros point. split; intros H.
    - eapply Permutation_in; [apply Permutation_sym, Hperm|exact H].
    - eapply Permutation_in; [exact Hperm|exact H]. }
  set (ql := last (q0 :: qs) q0) in *.
  assert (Hql : In ql (q0 :: qs)).
  { subst ql. rewrite last_nth. apply nth_In. simpl. lia. }
  destruct (Hkey q0 (proj1 (Hin_q q0) (or_introl eq_refl))) as [s Hfirst].
  destruct (Hkey ql (proj1 (Hin_q ql) Hql)) as [e Hlast].
  assert (Hlow : forall point k, In point (p0 :: ps) -> time_key point = Some k ->
                                 s <= k).
  { intros point k Hp Hk. apply Hin_q in Hp.
    destruct Hp as [<-|Hp]; [assert (k = s) by congruence; lia|].
    inversion Hsorted as [|? ? _ Hfa]; subst.
    rewrite Forall_forall in Hfa. specialize (Hfa point Hp).
    unfold point_le in Hfa. rewrite Hfirst, Hk in Hfa. exact Hfa. }
  assert (Hhigh : forall point k, In point (p0 :: ps) -> time_key point = Some k ->
                                  k <= e).
  { intros point k Hp Hk. apply Hin_q in Hp.
    apply In_nth with (d := q0) in Hp. destruct Hp as (j & Hj & Hnth).
    destruct (Nat.eq_dec j (length (q0 :: qs) - 1)) as [->|Hjn].
    - unfold ql in Hlast. rewrite last_nth, Hnth in Hlast.
      assert (k = e) by congruence. lia.
    - assert (Hle : point_le (nth j (q0 :: qs) q0)
                             (nth (length (q0 :: qs) - 1) (q0 :: qs) q0))
        by (apply sorted_nth; [assumption|lia|simpl; lia]).
      rewrite <- last_nth in Hle. fold ql in Hle. rewrite Hnth in Hle.
      unfold point_le in Hle. rewrite Hk, Hlast in Hle. exact Hle. }
  assert (Hse : s <= e)
    by (apply (Hlow ql e); [now apply Hin_q|exact Hlast]).
  exists s, e, ship.
  split; [exact Hget|].
  split; [rewrite Hstart, end_time_key, Hfirst; reflexivity|].
  split; [rewrite Hend, end_time_key, Hlast; reflexivity|].
  split; [exact Hse|].
  (* the registry *)
  rewrite initializeShips_ships. cbn [TSC.load_ships].
  pose proof (ship_window_cases (p0 :: ps)) as Hcases.
  rewrite Hcount in Hcases.
  destruct (TSC.ship_window (p0 :: ps)) as [w|].
  - destruct Hcases as (_ & Hsp & s' & e' & -> & Hs' & He' & Hall).
    rewrite Hsp, smap_get_set_same.
    apply Htimes in Hs'. apply Htimes in He'.
    destruct Hs' as (ps' & Hps & Hks). destruct He' as (pe & Hpe & Hke).
    assert (s' <= s /\ e <= e').
    { split.
      - apply (Hall s). apply Htimes. exists q0.
        split; [apply Hin_q; now left|exact Hfirst].
      - apply (Hall e). apply Htimes. exists ql.
        split; [now apply Hin_q|exact Hlast]. }
    pose proof (Hlow ps' s' Hps Hks). pose proof (Hhigh pe e' Hpe Hke).
    do 2 f_equal; f_equal; lia.
  - destruct Hcases as [Hnil|Hsp].
    + exfalso. assert (In s (parsed_times (p0 :: ps))).
      { apply Htimes. exists q0. split; [apply Hin_q; now left|exact Hfirst]. }
      rewrite Hnil in H. contradiction.
    + rewrite Hsp. reflexivity.
Qed.

End StoreLoadFacts.

Lemma addShip_sorts_witness :
  exists ship,
    SMap.get (ships (addShip (host := UtcHost.utc_host) create "412000001"
                       (Some [point_at 120 30 (at_ms 5000);
                              point_at 121 31 (at_ms 1000)])))
             "412000001" = Some ship /\
    StronglySorted (point_le (host := UtcHost.utc_host)) (trajectory ship).
Proof.
  destruct (@addShip_sorts UtcHost.utc_host create "412000001"
              (point_at 120 30 (at_ms 5000)) [point_at 121 31 (at_ms 1000)]
              ltac:(discriminate))
    as (ship & Hget & _ & Hs & _).
  exists ship. split; [exact Hget|exact Hs].
Defined.

Lemma windows_agree_witness :
  exists s e,
    SMap.get
      (TSC.ships
         (TSC.initializeShips (host := UtcHost.utc_host) TSC.create
            [("412000001",
              Some [point_at 120 30 (at_ms 5000); point_at 121 31 (at_ms 1000)])]
            None))
      "412000001"
    = (if spreadable (Host := UtcHost.utc_host) 2
       then Some (TSC.mkShipTimes (ValidDate s) (ValidDate e))
       else None).
Proof.
  destruct (@windows_agree UtcHost.utc_host TSC.create create "412000001"
              (point_at 120 30 (at_ms 5000)) [point_at 121 31 (at_ms 1000)]
              ltac:(discriminate)
              ltac:(intros point [<-|[<-|[]]]; vm_compute; discriminate))
    as (s & e & ship & _ & _ & _ & _ & Hw).
  exists s, e. exact Hw.
Defined.

(** ** Position queries in general *)

Section QueryShapeFacts.
Context {host : Host}.

Lemma with_direction_heading position d :
  Pos.hdg (with_direction position d) = d /\
  Pos.cog (with_direction position d) = d.
Proof. split; reflexivity. Qed.

(** Every position the pair examination builds has its heading, equal to its
    course, in [0, 360). *)
Lemma from_pair_heading trajectory p0 time l r :
  (0 <= Pos.hdg (from_pair trajectory p0 time l r) < 360)%R /\
  Pos.cog (from_pair trajectory p0 time l r)
  = Pos.hdg (from_pair trajectory p0 time l r).
Proof.
  unfold from_pair.
  repeat match goal with
         | |- context [match ?x with _ => _ end] => destruct x
         end;
    cbn [with_direction interpolatePosition Pos.hdg Pos.cog];
    (split; [apply calculateDirection_range|reflexivity]).
Qed.

(** X6.  A position returned by [getShipPositionAtTime] always has a heading
    in [0, 360), and its course equals its heading. *)
Theorem getShipPositionAtTime_heading :
  forall st mmsi currentTime pos,
    getShipPositionAtTime st mmsi currentTime = Some pos ->
    (0 <= Pos.hdg pos < 360)%R /\ Pos.cog pos = Pos.hdg pos.
Proof.
  intros st mmsi currentTime pos. unfold getShipPositionAtTime.
  assert (Hfmt : forall point,
             (0 <= Pos.hdg (formatPosition point) < 360)%R /\
             Pos.cog (formatPosition point) = Pos.hdg (formatPosition point)).
  { intros point. cbn. split; [lra|reflexivity]. }
  assert (Hdir : forall position a b,
             (0 <= Pos.hdg (with_direction position (calculateDirection a b)) < 360)%R /\
             Pos.cog (with_direction position (calculateDirection a b))
             = Pos.hdg (with_direction position (calculateDirection a b))).
  { intros position a b. cbn. split; [apply calculateDirection_range|reflexivity]. }
  destruct (SMap.get (ships st) mmsi) as [shipData|]; [|discriminate].
  destruct (trajectory shipData) as [|p0 rest]; [discriminate|].
  destruct (resolve_time currentTime) as [time|].
  - repeat match goal with
           | |- context [if ?c then _ else _] => destruct c
           end; intros [= <-];
      first [apply Hfmt | apply Hdir | apply from_pair_heading].
  - destruct rest; intros [= <-]; [apply Hfmt|apply Hdir].
Qed.

(** X7.  For an entity stored with a single point every query, whatever the
    time, returns that point as [formatPosition] builds it: its coordinates
    and heading 0. *)
Theorem getShipPositionAtTime_single_point :
  forall st mmsi ship p0 currentTime,
    SMap.get (ships st) mmsi = Some ship ->
    trajectory ship = [p0] ->
    getShipPositionAtTime st mmsi currentTime = Some (formatPosition p0) /\
    Pos.lng (formatPosition p0) = Fin (lng_of p0) /\
    Pos.lat (formatPosition p0) = Fin (lat_of p0) /\
    Pos.hdg (formatPosition p0) = 0%R.
Proof.
  intros st mmsi ship p0 currentTime Hget Htraj.
  split; [|repeat split].
  unfold getShipPositionAtTime. rewrite Hget, Htraj.
  destruct (resolve_time currentTime) as [time|]; [|reflexivity].
  destruct (match startTime ship with Some s => date_lt time s | None => false end);
    [reflexivity|].
  destruct (match endTime ship with Some e => date_gt time e | None => false end);
    reflexivity.
Qed.

(** X8.  After [initializeShips] the store has a position for an id at every
    query time exactly when the id is stored; an unknown id gives null. *)
Theorem getShipPositionAtTime_defined :
  forall colors shipGroups mmsi currentTime,
    getShipPositionAtTime (initializeShips colors shipGroups) mmsi currentTime
      = None
    <-> getShip (initializeShips colors shipGroups) mmsi = None.
Proof.
  intros colors shipGroups mmsi currentTime. unfold getShip.
  destruct (SMap.get (ships (initializeShips colors shipGroups)) mmsi)
    as [ship|] eqn:Hget.
  - split; [|discriminate]. intros Hnone. exfalso.
    destruct (initializeShips_ok _ _ _ Hget) as (p0 & rest & Htraj & _).
    unfold getShipPositionAtTime in Hnone. rewrite Hget, Htraj in Hnone.
    destruct (resolve_time currentTime) as [time|].
    + repeat match type of Hnone with
             | context [if ?c then _ else _] => destruct c
             end; discriminate.
    + destruct rest; discriminate.
  - split; [reflexivity|]. intros _. unfold getShipPositionAtTime.
    now rewrite Hget.
Qed.

(** The common part of the queries inside the time range of an entity all
    of whose points have a time: the search ends on two neighbours whose
    times enclose the query time. *)
Lemma query_brackets colors shipGroups mmsi ship currentTime t s e p0 rest :
  SMap.get (ships (initializeShips colors shipGroups)) mmsi = Some ship ->
  trajectory ship = p0 :: rest ->
  (2 <= length (trajectory ship))%nat ->
  startTime ship = Some (ValidDate s) ->
  endTime ship = Some (ValidDate e) ->
  resolve_time currentTime = Some (ValidDate t) ->
  s <= t <= e ->
  StronglySorted point_le (trajectory ship) /\
  exists l a b,
    getShipPositionAtTime (initializeShips colors shipGroups) mmsi currentTime
      = Some (from_pair (trajectory ship) p0 (ValidDate t) l (S l)) /\
    (S l < length (trajectory ship))%nat /\
    time_key (nth l (trajectory ship) p0) = Some a /\
    time_key (nth (S l) (trajectory ship) p0) = Some b /\
    a <= t <= b.
Proof.
  intros Hget Htraj Hlen Hs He Htime Ht.
  destruct (initializeShips_ok _ _ _ Hget) as (q0 & qs & Hq & Hsorted & Hstart & Hend).
  split; [exact Hsorted|].
  rewrite Htraj in *. injection Hq as <- <-.
  set (traj := p0 :: rest) in *. set (n := length traj) in *.
  assert (Hk0 : time_key p0 = Some s).
  { rewrite Hs, end_time_key in Hstart.
    destruct (time_key p0); simpl in Hstart; congruence. }
  assert (Hkn : time_key (nth (n - 1) traj p0) = Some e).
  { rewrite He, last_nth, end_time_key in Hend. fold n in Hend.
    destruct (time_key (nth (n - 1) traj p0)); simpl in Hend; congruence. }
  pose proof (all_timed p0 Hsorted Hkn) as Hkeys.
  destruct (@search_loop_done host traj p0 (ValidDate t) n 0 (n - 1))
    as (Hl & Hr & Hlr); [lia|lia|].
  destruct (@search_loop_brackets host traj p0 t n Hkeys 0%nat (n - 1)%nat s e)
    as (a & b & Ha & Hat & Hb & Htb);
    [lia|fold n; lia|exact Hk0|lia|exact Hkn|lia|].
  assert (Hquery :
    getShipPositionAtTime (initializeShips colors shipGroups) mmsi currentTime
    = Some (from_pair traj p0 (ValidDate t)
              (fst (search_loop n traj p0 (ValidDate t) 0 (n - 1)))
              (snd (search_loop n traj p0 (ValidDate t) 0 (n - 1))))).
  { apply (@getShipPositionAtTime_searches host _ mmsi ship currentTime t p0 rest);
      try assumption.
    - intros s' Hs'. rewrite Hk0 in Hs'. injection Hs' as <-. lia.
    - intros e' He'. fold traj n in He'. rewrite Hkn in He'.
      injection He' as <-. lia. }
  set (l := fst (search_loop n traj p0 (ValidDate t) 0 (n - 1))) in *.
  set (r := snd (search_loop n traj p0 (ValidDate t) 0 (n - 1))) in *.
  assert (Hr' : r = S l) by exact Hlr. clearbody l r. subst r.
  exists l, a, b. repeat split; try assumption; lia.
Qed.

(** X9.  Inside the time range of an entity, at the time of one of its
    points, the query returns a point of the trajectory that has this time,
    with its coordinates as they are (not rounded) and its attributes; only
    the heading is computed. *)
Theorem getShipPositionAtTime_at_sample :
  forall colors shipGroups mmsi ship currentTime t s e p0 rest q,
    SMap.get (ships (initializeShips colors shipGroups)) mmsi = Some ship ->
    trajectory ship = p0 :: rest ->
    (2 <= length (trajectory ship))%nat ->
    startTime ship = Some (ValidDate s) ->
    endTime ship = Some (ValidDate e) ->
    resolve_time currentTime = Some (ValidDate t) ->
    s <= t <= e ->
    In q (trajectory ship) ->
    time_key q = Some t ->
    exists q' heading,
      In q' (trajectory ship) /\
      time_key q' = Some t /\
      getShipPositionAtTime (initializeShips colors shipGroups) mmsi currentTime
        = Some (with_direction (formatPosition q') heading).
Proof.
  intros colors shipGroups mmsi ship currentTime t s e p0 rest q
    Hget Htraj Hlen Hs He Htime Ht Hq Hkq.
  destruct (query_brackets _ _ _ _ Hget Htraj Hlen Hs He Htime Ht)
    as (Hsorted & l & a & b & Hquery & Hl & Ha & Hb & Hab).
  set (traj := trajectory ship) in *.
  assert (Hcase : t = a \/ t = b).
  { destruct (Z.eq_dec t a) as [|Hna]; [now left|].
    destruct (Z.eq_dec t b) as [|Hnb]; [now right|]. exfalso.
    apply In_nth with (d := p0) in Hq. destruct Hq as (j & Hj & Hnth).
    destruct (Nat.le_gt_cases j l) as [Hjl|Hjl].
    - destruct (Nat.eq_dec j l) as [->|Hne]; [congruence|].
      assert (Hle : point_le (nth j traj p0) (nth l traj p0))
        by (apply sorted_nth; [assumption|lia|lia]).
      unfold point_le in Hle. rewrite Hnth, Hkq, Ha in Hle. simpl in Hle. lia.
    - destruct (Nat.eq_dec j (S l)) as [->|Hne]; [congruence|].
      assert (Hle : point_le (nth (S l) traj p0) (nth j traj p0))
        by (apply sorted_nth; [assumption|lia|lia]).
      unfold point_le in Hle. rewrite Hnth, Hkq, Hb in Hle. simpl in Hle. lia. }
  rewrite Hquery. unfold from_pair. rewrite !parseTime_key, Ha, Hb.
  cbn [option_map date_same].
  destruct (Z.eqb_spec t a) as [Eta|Nta].
  - exists (nth l traj p0). subst a.
    destruct (_ <? _)%nat; [|destruct (_ <? _)%nat];
      eexists; (split; [apply nth_In; lia|split; [exact Ha|reflexivity]]).
  - destruct Hcase as [|Etb]; [contradiction|]. subst b.
    rewrite Z.eqb_refl. exists (nth (S l) traj p0).
    destruct (_ <? _)%nat;
      eexists; (split; [apply nth_In; lia|split; [exact Hb|reflexivity]]).
Qed.

End QueryShapeFacts.

Lemma getShipPositionAtTime_heading_witness :
  (0 <= Pos.hdg (formatPosition (point_at 5 0 (at_ms 1000))) < 360)%R.
Proof.
  apply (@getShipPositionAtTime_heading UtcHost.utc_host Demo.equator_store
           "412000007" (at_ms 1000)
           (formatPosition (point_at 5 0 (at_ms 1000))) eq_refl).
Defined.

Lemma getShipPositionAtTime_single_point_witness :
  getShipPositionAtTime (host := UtcHost.utc_host) Demo.equator_store
    "412000007" (at_ms 777)
  = Some (formatPosition (point_at 5 0 (at_ms 1000))).
Proof.
  apply (@getShipPositionAtTime_single_point UtcHost.utc_host
           Demo.equator_store "412000007"
           {| trajectory := [point_at 5 0 (at_ms 1000)];
              startTime := Some (ValidDate 1000);
              endTime := Some (ValidDate 1000);
              vesselType := ""; flagCtry := ""; color := defaultColor;
              dest := ""; iconSize := 30 |}
           (point_at 5 0 (at_ms 1000)) (at_ms 777) eq_refl eq_refl).
Defined.

Lemma getShipPositionAtTime_at_sample_witness :
  exists q' heading,
    getShipPositionAtTime (host := UtcHost.utc_host) Demo.thirds_store
      "412000004" (at_ms 3000)
    = Some (with_direction (formatPosition q') heading).
Proof.
  destruct (@getShipPositionAtTime_at_sample UtcHost.utc_host
              [] [("412000004", Some [Demo.third_a; Demo.third_b])]
              "412000004"
              {| trajectory := [Demo.third_a; Demo.third_b];
                 startTime := Some (ValidDate 0);
                 endTime := Some (ValidDate 3000);
                 vesselType := ""; flagCtry := ""; color := defaultColor;
                 dest := ""; iconSize := 30 |}
              (at_ms 3000) 3000 0 3000 Demo.third_a [Demo.third_b] Demo.third_b)
    as (q' & heading & _ & _ & Hq);
    [reflexivity|reflexivity|simpl; lia|reflexivity|reflexivity|reflexivity
    |lia|simpl; tauto|reflexivity|].
  exists q', heading. exact Hq.
Defined.

(** ** Bounds *)

Open Scope R_scope.










Close Scope R_scope.



(** ** Colours *)

Lemma to_int32_range z : -2147483648 <= to_int32 z < 2147483648.
Proof.
  unfold to_int32.
  pose proof (Z.mod_pos_bound z 4294967296 ltac:(lia)).
  destruct (Z.ltb_spec (z mod 4294967296) 2147483648); lia.
Qed.

Lemma hash_loop_range str :
  forall hash,
    -2147483648 <= hash < 2147483648 ->
    -2147483648 <= hash_loop str hash < 2147483648.
Proof.
  induction str as [|c str IH]; intros hash Hh; simpl; [exact Hh|].
  apply IH, to_int32_range.
Qed.

(** X12.  [hashString] is between 0 and 2^31, so the hue [getShipColor]
    derives from it is a whole number of degrees in [0, 360): for a flag
    that is not blank and not yet in the table, the colour returned is
    "hsl(h, 80%, 55%)" with that hue and the table remembers it. *)
Theorem getShipColor_hashed :
  forall colors flagCtry,
    0 <= hashString flagCtry <= 2147483648 /\
    (blank_flag flagCtry = false ->
     SMap.get colors flagCtry = None ->
     exists hue,
       0 <= hue < 360 /\
       fst (getShipColor colors flagCtry)
       = "hsl(" ++ NilZero.string_of_int (Z.to_int hue) ++ ", 80%, 55%)" /\
       SMap.get (snd (getShipColor colors flagCtry)) flagCtry
       = Some (fst (getShipColor colors flagCtry))).
Proof.
  intros colors flagCtry.
  assert (Hh : 0 <= hashString flagCtry <= 2147483648).
  { unfold hashString.
    pose proof (hash_loop_range flagCtry (hash := 0) ltac:(lia)). lia. }
  split; [exact Hh|]. intros Hblank Hnone.
  exists (hashString flagCtry mod 360). split.
  - apply Z.mod_pos_bound. lia.
  - unfold getShipColor. unfold blank_flag in Hblank. rewrite Hblank, Hnone.
    cbn [fst snd]. split; [reflexivity|apply smap_get_set_same].
Qed.

Lemma getShipColor_spec colors flagCtry :
  (blank_flag flagCtry = true ->
   getShipColor colors flagCtry = (defaultColor, colors)) /\
  (blank_flag flagCtry = false ->
   SMap.get (snd (getShipColor colors flagCtry)) flagCtry
   = Some (fst (getShipColor colors flagCtry))) /\
  (forall k v, SMap.get colors k = Some v ->
               SMap.get (snd (getShipColor colors flagCtry)) k = Some v).
Proof.
  unfold getShipColor, blank_flag.
  destruct (_ || _); [repeat split; [discriminate|auto]|].
  destruct (SMap.get colors flagCtry) as [c|] eqn:Hget; cbn [fst snd].
  - repeat split; [discriminate|auto|auto].
  - split; [discriminate|]. split; [intros _; apply smap_get_set_same|].
    intros k v Hk. rewrite smap_get_set_other; [exact Hk|]. congruence.
Qed.

Section ColourFacts.
Context {host : Host}.

Lemma addShip_shipColors st mmsi data :
  forall k v, SMap.get (shipColors st) k = Some v ->
              SMap.get (shipColors (addShip st mmsi data)) k = Some v.
Proof.
  intros k v Hk. unfold addShip.
  destruct (String.eqb mmsi ""); [exact Hk|].
  destruct data as [[|p0 ps]|]; try exact Hk.
  match goal with |- context [getShipColor ?c ?f] =>
    destruct (getShipColor_spec c f) as (_ & _ & Hkeep);
    destruct (getShipColor c f) as [col colors'] end.
  cbn [shipColors snd] in *. now apply Hkeep.
Qed.

Lemma addShip_colors_ok st mmsi data :
  colors_ok st -> colors_ok (addShip st mmsi data).
Proof.
  intros Hst k ship Hget.
  pose proof (addShip_shipColors st mmsi data) as Hkeep.
  unfold addShip in *.
  destruct (String.eqb mmsi ""); [exact (Hst k ship Hget)|].
  destruct data as [[|p0 ps]|]; try exact (Hst k ship Hget).
  match type of Hget with context [getShipColor ?c ?f] =>
    destruct (getShipColor_spec c f) as (Hb & Hn & _);
    destruct (getShipColor c f) as [col colors'] end.
  cbn [ships shipColors fst snd] in *.
  destruct (string_dec k mmsi) as [->|Hne].
  - rewrite smap_get_set_same in Hget. injection Hget as <-.
    cbn [flagCtry color]. split.
    + intros Hblank. specialize (Hb Hblank). congruence.
    + intros Hblank. now apply Hn.
  - rewrite smap_get_set_other in Hget by assumption.
    destruct (Hst k ship Hget) as [H1 H2]. split; [exact H1|].
    intros Hblank. apply Hkeep. now apply H2.
Qed.

Lemma add_all_colors_ok entries :
  forall st, colors_ok st -> colors_ok (add_all entries st).
Proof.
  induction entries as [|[mmsi d] rest IH]; intros st Hst; simpl; [exact Hst|].
  destruct d as [[|p ps]|]; try (apply IH; exact Hst).
  apply IH. now apply addShip_colors_ok.
Qed.

Lemma add_all_shipColors entries :
  forall st k v,
    SMap.get (shipColors st) k = Some v ->
    SMap.get (shipColors (add_all entries st)) k = Some v.
Proof.
  induction entries as [|[mmsi d] rest IH]; intros st k v Hk; simpl; [exact Hk|].
  destruct d as [[|p ps]|]; try (apply IH; exact Hk).
  apply IH. now apply addShip_shipColors.
Qed.

(** X13.  After [initializeShips] the colour of an entity is a function of
    its flag: entities with the same flag have the same colour, an entity
    with a blank flag has the default colour, and a flag that the colour
    table handed in already knows keeps the colour it has there. *)
Theorem initializeShips_colours :
  forall colors shipGroups,
    (forall k1 k2 ship1 ship2,
       SMap.get (ships (initializeShips colors shipGroups)) k1 = Some ship1 ->
       SMap.get (ships (initializeShips colors shipGroups)) k2 = Some ship2 ->
       flagCtry ship1 = flagCtry ship2 ->
       color ship1 = color ship2) /\
    (forall k ship,
       SMap.get (ships (initializeShips colors shipGroups)) k = Some ship ->
       (blank_flag (flagCtry ship) = true -> color ship = defaultColor) /\
       (forall c, blank_flag (flagCtry ship) = false ->
                  SMap.get colors (flagCtry ship) = Some c ->
                  color ship = c)).
Proof.
  intros colors shipGroups.
  assert (Hok : colors_ok (initializeShips colors shipGroups)).
  { apply add_all_colors_ok. intros k ship [=]. }
  split.
  - intros k1 k2 ship1 ship2 H1 H2 Hflag.
    destruct (Hok k1 ship1 H1) as [B1 N1]. destruct (Hok k2 ship2 H2) as [B2 N2].
    destruct (blank_flag (flagCtry ship1)) eqn:E1.
    + rewrite B1 by reflexivity. rewrite <- Hflag in B2.
      rewrite E1 in B2. now rewrite B2.
    + specialize (N1 eq_refl). rewrite <- Hflag in N2. rewrite E1 in N2.
      specialize (N2 eq_refl). congruence.
  - intros k ship Hget. destruct (Hok k ship Hget) as [B N].
    split; [exact B|]. intros c Hblank Hc. specialize (N Hblank).
    pose proof (add_all_shipColors shipGroups
                  {| ships := []; shipColors := colors |} _ Hc) as Hkept.
    unfold initializeShips in N. congruence.
Qed.

End ColourFacts.

Lemma getShipColor_hashed_witness :
  exists hue,
    0 <= hue < 360 /\
    fst (getShipColor [] "PA")
    = "hsl(" ++ NilZero.string_of_int (Z.to_int hue) ++ ", 80%, 55%)".
Proof.
  destruct (proj2 (getShipColor_hashed [] "PA") eq_refl eq_refl)
    as (hue & Hh & Hc & _).
  exists hue. split; [exact Hh|exact Hc].
Defined.

Lemma initializeShips_colours_witness :
  color {| trajectory := [Demo.third_a; Demo.third_b];
           startTime := Some (ValidDate 0);
           endTime := Some (ValidDate 3000);
           vesselType := ""; flagCtry := ""; color := defaultColor;
           dest := ""; iconSize := 30 |} = defaultColor.
Proof.
  apply (proj1 (proj2 (@initializeShips_colours UtcHost.utc_host []
                         [("412000004", Some [Demo.third_a; Demo.third_b])])
                  "412000004" _ eq_refl)).
  reflexivity.
Defined.

(** ** Angles *)

Open Scope R_scope.

Lemma js_rem_neg_range x m : x < 0 -> 0 < m -> - m < js_rem x m <= 0.
Proof.
  intros Hx Hm. unfold js_rem, Ztrunc.
  assert (Hq : x / m < 0) by (apply Rdiv_neg_pos; lra).
  destruct (Rle_dec 0 (x / m)); [lra|].
  pose proof (Zfloor_bound (- (x / m))) as [Hlo Hhi].
  rewrite opp_IZR.
  assert (Hxm : x = x / m * m) by (field; lra).
  split; nra.
Qed.

Lemma js_rem_congruent x m : exists k : Z, js_rem x m = x + m * IZR k.
Proof.
  exists (- Ztrunc (x / m))%Z. unfold js_rem. rewrite opp_IZR. ring.
Qed.

Lemma js_rem_bounds x m : 0 < m -> - m < js_rem x m < m.
Proof.
  intros Hm. destruct (Rle_dec 0 x) as [Hpos|Hneg].
  - pose proof (@js_rem_range x m Hpos Hm). lra.
  - pose proof (@js_rem_neg_range x m ltac:(lra) Hm). lra.
Qed.

Section AngleFacts.
Context {host : Host} {ieee : IEEE754 host}.

Lemma normalize_range angle : 0 <= normalize angle <= 360.
Proof.
  unfold normalize. pose proof (@js_rem_bounds angle 360 ltac:(lra)) as Hb.
  destruct (Rlt_dec (js_rem angle 360) 0).
  - split.
    + apply fl_nonneg. lra.
    + apply (@fl_int_le _ _ _ 360); [simpl; lia|lra].
  - lra.
Qed.

(** X14.  [interpolateAngle] returns an angle between 0 and 360, the ends
    included (a remainder just below zero plus 360 can round to 360): it
    is the first angle, brought between 0 and 360, turned by [progress]
    times a difference of at most 180 degrees either way, the result
    brought between 0 and 360 again.  The difference is the one the host
    computes between the two angles brought between 0 and 360, less 360
    when it is above 180 and plus 360 when it is below -180. *)
Theorem interpolateAngle_short_way :
  forall angle1 angle2 progress,
    0 <= interpolateAngle angle1 angle2 progress <= 360 /\
    0 <= normalize angle1 <= 360 /\
    exists diff,
      -180 <= diff <= 180 /\
      (let d := fl (normalize angle2 - normalize angle1) in
       (180 < d -> diff = fl (d - 360)) /\
       (d < -180 -> diff = fl (d + 360)) /\
       (-180 <= d <= 180 -> diff = d)) /\
      interpolateAngle angle1 angle2 progress
      = normalize (fl (normalize angle1 + fl (diff * progress))).
Proof.
  intros angle1 angle2 progress. unfold interpolateAngle.
  pose proof (normalize_range angle1) as H1.
  pose proof (normalize_range angle2) as H2.
  set (a1 := normalize angle1) in *. set (a2 := normalize angle2) in *.
  assert (Hd0 : -360 <= fl (a2 - a1) <= 360).
  { split.
    - apply (@fl_int_ge _ _ _ (-360)); [simpl; lia|lra].
    - apply (@fl_int_le _ _ _ 360); [simpl; lia|lra]. }
  set (d0 := fl (a2 - a1)) in *.
  split; [apply normalize_range|]. split; [exact H1|].
  destruct (Rlt_dec 180 d0) as [Hbig|Hbig].
  - exists (fl (d0 - 360)). split; [split|split; [|reflexivity]].
    + apply (@fl_int_ge _ _ _ (-180)); [simpl; lia|lra].
    + apply (@fl_int_le _ _ _ 180); [simpl; lia|lra].
    + cbv zeta. repeat split; intros; try reflexivity; exfalso; lra.
  - destruct (Rlt_dec d0 (-180)) as [Hsmall|Hsmall].
    + exists (fl (d0 + 360)). split; [split|split; [|reflexivity]].
      * apply (@fl_int_ge _ _ _ (-180)); [simpl; lia|lra].
      * apply (@fl_int_le _ _ _ 180); [simpl; lia|lra].
      * cbv zeta. repeat split; intros; try reflexivity; exfalso; lra.
    + exists d0. split; [lra|split; [|reflexivity]].
      cbv zeta. repeat split; intros; try reflexivity; exfalso; lra.
Qed.

End AngleFacts.

Lemma interpolateAngle_short_way_witness :
  0 <= interpolateAngle (host := UtcHost.utc_host) 350 10 (1 / 2) <= 360.
Proof.
  apply (@interpolateAngle_short_way UtcHost.utc_host utc_ieee 350 10 (1 / 2)).
Defined.

Close Scope R_scope.

(** ** The component's helper *)

Section TimeDifferenceFacts.
Context {host : Host} {ieee : IEEE754 host}.

(** A number that is not tiny stays positive when it is rounded. *)
Lemma fl_positive x : (/ 60000 <= x)%R -> (0 < fl x)%R.
Proof.
  intros Hx. pose proof (fl_error x) as He. pose proof pow2_1075.
  rewrite pow2_53, (Rabs_pos_eq x) in He by lra.
  apply Rabs_le_inv in He. lra.
Qed.

(** X15.  [getTimeDifference] is always positive: when both records are
    there, both have a time stamp that parses and the second is the later
    one, it is their difference over 60000 as the host computes it; in
    every other case it is 5. *)
Theorem getTimeDifference_positive :
  forall point1 point2,
    (0 < Playback.getTimeDifference point1 point2)%R /\
    (forall p1 p2 ts1 ts2 time1 time2,
       point1 = Some p1 -> point2 = Some p2 ->
       Pt.timestamp p1 = Some ts1 ->
       Pt.timestamp p2 = Some ts2 ->
       truthy_time (Some ts1) = true ->
       truthy_time (Some ts2) = true ->
       Playback.date_of ts1 = ValidDate time1 ->
       Playback.date_of ts2 = ValidDate time2 ->
       time1 < time2 ->
       Playback.getTimeDifference point1 point2
       = fl (fl (IZR (time2 - time1)) / 60000)) /\
    ((~ exists p1 p2 ts1 ts2 time1 time2,
          point1 = Some p1 /\ point2 = Some p2 /\
          Pt.timestamp p1 = Some ts1 /\
          Pt.timestamp p2 = Some ts2 /\
          truthy_time (Some ts1) = true /\
          truthy_time (Some ts2) = true /\
          Playback.date_of ts1 = ValidDate time1 /\
          Playback.date_of ts2 = ValidDate time2 /\
          time1 < time2) ->
     Playback.getTimeDifference point1 point2 = 5%R).
Proof.
  intros point1 point2. split; [|split].
  - unfold Playback.getTimeDifference.
    destruct point1 as [p1|]; [|lra]. destruct point2 as [p2|]; [|lra].
    destruct (_ && _); [|lra].
    destruct (Pt.timestamp p1) as [ts1|]; [|lra].
    destruct (Pt.timestamp p2) as [ts2|]; [|lra].
    destruct (Playback.date_of ts1) as [time1|]; [|lra].
    destruct (Playback.date_of ts2) as [time2|]; [|lra].
    destruct (Z.ltb_spec time1 time2); [|lra].
    apply fl_positive.
    assert (1 <= fl (IZR (time2 - time1)))%R.
    { apply (@fl_int_ge _ _ _ 1); [simpl; lia|]. apply (IZR_le 1). lia. }
    lra.
  - intros p1 p2 ts1 ts2 time1 time2 -> -> H1 H2 T1 T2 D1 D2 Hlt.
    unfold Playback.getTimeDifference. rewrite H1, H2, T1, T2, D1, D2.
    cbn [andb]. destruct (Z.ltb_spec time1 time2); [|lia].
    do 2 f_equal. lra.
  - intros Hnot. unfold Playback.getTimeDifference.
    destruct point1 as [p1|]; [|reflexivity].
    destruct point2 as [p2|]; [|reflexivity].
    destruct (Pt.timestamp p1) as [ts1|] eqn:H1;
      [|now destruct (truthy_time None && _)].
    destruct (Pt.timestamp p2) as [ts2|] eqn:H2;
      [|now destruct (_ && truthy_time None)].
    destruct (truthy_time (Some ts1)) eqn:T1; [|reflexivity].
    destruct (truthy_time (Some ts2)) eqn:T2; [|reflexivity].
    cbn [andb].
    destruct (Playback.date_of ts1) as [time1|] eqn:D1; [|reflexivity].
    destruct (Playback.date_of ts2) as [time2|] eqn:D2; [|reflexivity].
    destruct (Z.ltb_spec time1 time2) as [Hlt|]; [|reflexivity].
    exfalso. apply Hnot. exists p1, p2, ts1, ts2, time1, time2.
    repeat split; assumption || reflexivity.
Qed.

End TimeDifferenceFacts.

Lemma getTimeDifference_positive_witness :
  Playback.getTimeDifference (host := UtcHost.utc_host)
    (Some {| Pt.lon := None; Pt.lng := Some 1%R; Pt.lat := Some 1%R;
             Pt.postime := None;
             Pt.timestamp := Some (TStr "2024-03-01T00:00:00Z");
             Pt.speed := None; Pt.rot := None; Pt.draught := None;
             Pt.status := None; Pt.dest := None; Pt.eta := None;
             Pt.vessel_type := None; Pt.flag_ctry := None |})
    (Some {| Pt.lon := None; Pt.lng := Some 2%R; Pt.lat := Some 2%R;
             Pt.postime := None;
             Pt.timestamp := Some (TStr "2024-03-01T00:10:00Z");
             Pt.speed := None; Pt.rot := None; Pt.draught := None;
             Pt.status := None; Pt.dest := None; Pt.eta := None;
             Pt.vessel_type := None; Pt.flag_ctry := None |})
  = fl (Host := UtcHost.utc_host)
       (fl (Host := UtcHost.utc_host) (IZR (1709251800000 - 1709251200000))
        / 60000).
Proof.
  apply (proj1 (proj2 (@getTimeDifference_positive UtcHost.utc_host utc_ieee
                         _ _))
           _ _ (TStr "2024-03-01T00:00:00Z") (TStr "2024-03-01T00:10:00Z")
           1709251200000 1709251800000 eq_refl eq_refl);
    try reflexivity; try (vm_compute; reflexivity).
Defined.

(** ** Visibility of entities with a full window *)

Section WindowVisibilityFacts.
Context {host : Host}.

Lemma visible_loop_In t entries mmsi :
  In mmsi (visible_loop (Some t) entries) <->
  exists ship,
    In (mmsi, ship) entries /\
    (forall s e, startTime ship = Some s -> endTime ship = Some e ->
                 date_ge t s && date_le t e = true).
Proof.
  induction entries as [|[k v] rest IH]; cbn [visible_loop].
  - split; [intros []|intros (ship & [] & _)].
  - assert (Hin_head :
      In mmsi (k :: visible_loop (Some t) rest) <->
      k = mmsi \/ In mmsi (visible_loop (Some t) rest)) by reflexivity.
    assert (Hkeep :
      (forall s e, startTime v = Some s -> endTime v = Some e ->
                   date_ge t s && date_le t e = true) ->
      (k = mmsi \/ In mmsi (visible_loop (Some t) rest)) <->
      exists ship,
        In (mmsi, ship) ((k, v) :: rest) /\
        (forall s e, startTime ship = Some s -> endTime ship = Some e ->
                     date_ge t s && date_le t e = true)).
    { intros Hv. rewrite IH. split.
      - intros [->|(ship & Hin & H)].
        + exists v. split; [now left|exact Hv].
        + exists ship. split; [now right|exact H].
      - intros (ship & [Heq|Hin] & H).
        + injection Heq as -> ->. now left.
        + right. exists ship. split; assumption. }
    destruct (startTime v) as [s|] eqn:Es;
      [destruct (endTime v) as [e|] eqn:Ee;
       [destruct (date_ge t s && date_le t e) eqn:Ein|]|];
      try (rewrite Hin_head; apply Hkeep; intros; congruence).
    rewrite IH. split.
    + intros (ship & Hin & H). exists ship. split; [now right|exact H].
    + intros (ship & [Heq|Hin] & H).
      * injection Heq as -> ->. rewrite (H s e Es Ee) in Ein. discriminate.
      * exists ship. split; assumption.
Qed.

Lemma addShip_NoDup st mmsi data :
  NoDup (SMap.keys (ships st)) -> NoDup (SMap.keys (ships (addShip st mmsi data))).
Proof.
  intros Hnd. unfold addShip.
  destruct (String.eqb mmsi ""); [exact Hnd|].
  destruct data as [[|p0 ps]|]; try exact Hnd.
  destruct (getShipColor _ _) as [c colors']. cbn [ships].
  now apply smap_set_NoDup.
Qed.

Lemma add_all_NoDup entries :
  forall st, NoDup (SMap.keys (ships st)) ->
             NoDup (SMap.keys (ships (add_all entries st))).
Proof.
  induction entries as [|[mmsi d] rest IH]; intros st Hst; simpl; [exact Hst|].
  destruct d as [[|p ps]|]; try (apply IH; exact Hst).
  apply IH. now apply addShip_NoDup.
Qed.

(** X16.  For a stored entity with both [startTime] and [endTime] and a
    query that resolves to the valid instant [t]: in multi mode the entity
    is visible exactly when [startTime <= t <= endTime]; in single mode
    with the entity selected the answer is the entity alone under the same
    condition and nothing otherwise; in single mode with another id
    selected the entity is not in the answer. *)
Theorem getAllVisibleShipsAtTime_window :
  forall colors shipGroups mmsi ship currentTime t s e,
    SMap.get (ships (initializeShips colors shipGroups)) mmsi = Some ship ->
    startTime ship = Some (ValidDate s) ->
    endTime ship = Some (ValidDate e) ->
    resolve_time currentTime = Some (ValidDate t) ->
    mmsi <> "" ->
    (forall selectedShipId,
       In mmsi (getAllVisibleShipsAtTime (initializeShips colors shipGroups)
                  currentTime "multi" selectedShipId)
       <-> s <= t <= e) /\
    getAllVisibleShipsAtTime (initializeShips colors shipGroups)
      currentTime "single" (Some mmsi)
    = (if (s <=? t) && (t <=? e) then [mmsi] else []) /\
    (forall other,
       other <> mmsi -> other <> "" ->
       ~ In mmsi (getAllVisibleShipsAtTime (initializeShips colors shipGroups)
                    currentTime "single" (Some other))).
Proof.
  intros colors shipGroups mmsi ship currentTime t s e Hget Hs He Htime Hne.
  assert (Hnd : NoDup (SMap.keys (ships (initializeShips colors shipGroups)))).
  { apply add_all_NoDup. constructor. }
  assert (Htruthy : forall k, k <> "" -> truthy_str (Some k) = true).
  { intros k Hk. simpl. now destruct (String.eqb_spec k ""). }
  split; [|split].
  - intros selectedShipId. unfold getAllVisibleShipsAtTime.
    replace ("multi" =? "single")%string with false by reflexivity.
    cbn [andb]. rewrite Htime, visible_loop_In. split.
    + intros (ship' & Hin & Hvis).
      apply (smap_In_get _ _ _ Hnd) in Hin. rewrite Hget in Hin.
      injection Hin as <-. specialize (Hvis _ _ Hs He).
      unfold date_ge in Hvis. cbn [date_le] in Hvis.
      apply andb_true_iff in Hvis. rewrite !Z.leb_le in Hvis. exact Hvis.
    + intros Hin. exists ship. split; [now apply smap_get_In|].
      intros s' e' Hs' He'. rewrite Hs in Hs'. rewrite He in He'.
      injection Hs' as <-. injection He' as <-.
      unfold date_ge. cbn [date_le].
      apply andb_true_iff. rewrite !Z.leb_le. exact Hin.
  - unfold getAllVisibleShipsAtTime.
    replace ("single" =? "single")%string with true by reflexivity.
    rewrite (Htruthy mmsi Hne). cbn [andb].
    rewrite Hget, Htime, Hs, He. reflexivity.
  - intros other Ho Hoe. unfold getAllVisibleShipsAtTime.
    replace ("single" =? "single")%string with true by reflexivity.
    rewrite (Htruthy other Hoe). cbn [andb].
    destruct (SMap.get _ other) as [shipo|]; [|intros []].
    repeat match goal with
           | |- context [match ?x with _ => _ end] => destruct x
           end; simpl; intuition congruence.
Qed.

End WindowVisibilityFacts.

Lemma getAllVisibleShipsAtTime_window_witness :
  getAllVisibleShipsAtTime (host := UtcHost.utc_host) Demo.thirds_store
    (at_ms 1000) "single" (Some "412000004")
  = (if (0 <=? 1000) && (1000 <=? 3000) then ["412000004"] else []).
Proof.
  apply (proj1 (proj2
    (@getAllVisibleShipsAtTime_window UtcHost.utc_host
       [] [("412000004", Some [Demo.third_a; Demo.third_b])] "412000004"
       {| trajectory := [Demo.third_a; Demo.third_b];
          startTime := Some (ValidDate 0);
          endTime := Some (ValidDate 3000);
          vesselType := ""; flagCtry := ""; color := defaultColor;
          dest := ""; iconSize := 30 |}
       (at_ms 1000) 1000 0 3000 eq_refl eq_refl eq_refl eq_refl
       ltac:(discriminate)))).
Defined.

(** ** One round of the animation loop *)

Lemma Ztrunc_above (z : Z) (x : R) : (IZR z <= x)%R -> z <= Ztrunc x.
Proof.
  intros H. unfold Ztrunc. destruct (Rle_dec 0 x).
  - pose proof (Zfloor_bound x) as [_ Hhi].
    assert (Hlt : (IZR z < IZR (Zfloor x + 1))%R) by (rewrite plus_IZR; lra).
    apply lt_IZR in Hlt. lia.
  - pose proof (Zfloor_bound (- x)) as [Hlo _].
    apply le_IZR. rewrite opp_IZR. lra.
Qed.

Lemma Ztrunc_below (z : Z) (x : R) : (x <= IZR z)%R -> Ztrunc x <= z.
Proof.
  intros H. unfold Ztrunc. destruct (Rle_dec 0 x).
  - pose proof (Zfloor_bound x) as [Hlo _].
    apply le_IZR. lra.
  - pose proof (Zfloor_bound (- x)) as [_ Hhi].
    assert (Hlt : (IZR (- z) < IZR (Zfloor (- x) + 1))%R)
      by (rewrite plus_IZR, opp_IZR; lra).
    apply lt_IZR in Hlt. lia.
Qed.

Lemma Ztrunc_IZR z : Ztrunc (IZR z) = z.
Proof.
  pose proof (@Ztrunc_above z (IZR z) ltac:(lra)).
  pose proof (@Ztrunc_below z (IZR z) ltac:(lra)). lia.
Qed.

Section AnimationFacts.
Context {host : Host} {ieee : IEEE754 host}.

(** X17.  A round of [animate] on a running loop whose previous frame time
    is set and not later than the present one, with a speed that is not
    negative and the registry's clock, a time value, inside its range
    [s, e]: the clock never goes back and never leaves the range.  With
    [next] the time value the round asks for ([tick_target]) truncated to
    a whole millisecond, the clock is set to [min next e]; up to the end
    the loop goes on and remembers the frame time; past the end it stops,
    clears the frame time, sets [isPlaying] to false and the registry is
    at its end.  In both cases the snapshot is the one of the new clock
    time. *)
Theorem animate_advances :
  forall animationSpeed multiShipManager c now last cur s e,
    Playback.animationFrame c = true ->
    Playback.lastAnimationTime c = Some last ->
    (last <> 0)%R -> (last <= now)%R -> (0 <= animationSpeed)%R ->
    TSC.currentTime (Playback.timeSyncController c) = Some (ValidDate cur) ->
    TSC.globalStartTime (Playback.timeSyncController c) = Some (ValidDate s) ->
    TSC.globalEndTime (Playback.timeSyncController c) = Some (ValidDate e) ->
    s <= cur <= e ->
    Z.abs cur <= 8640000000000000 ->
    (Rabs (tick_target cur last now animationSpeed) <= 8640000000000000)%R ->
    let next := Ztrunc (tick_target cur last now animationSpeed) in
    let c' := fst (Playback.animate animationSpeed multiShipManager c now) in
    cur <= next /\
    TSC.currentTime (Playback.timeSyncController c')
    = Some (ValidDate (Z.min next e)) /\
    (next <= e ->
     Playback.animationFrame c' = true /\
     Playback.lastAnimationTime c' = Some now /\
     TSC.isPlaying (Playback.timeSyncController c')
     = TSC.isPlaying (Playback.timeSyncController c)) /\
    (e < next ->
     Playback.animationFrame c' = false /\
     Playback.lastAnimationTime c' = None /\
     TSC.isPlaying (Playback.timeSyncController c') = false /\
     TSC.isAtEnd (Playback.timeSyncController c') = true) /\
    snd (Playback.animate animationSpeed multiShipManager c now)
    = Some (Playback.updateAllShipsPositions (Playback.timeSyncController c')
              multiShipManager (at_ms (Z.min next e))).
Proof.
  intros animationSpeed multiShipManager c now last cur s e
         Hrun Hlast Hl0 Hln Hsp Hcur Hs He Hrange Hvalue Hfit next c'.
  assert (Hnext : cur <= next).
  { apply Ztrunc_above. unfold tick_target, Playback.BASE_TIME_RATIO.
    assert (H1 : (0 <= fl (fl (now - last) / 1000))%R).
    { apply fl_nonneg. pose proof (@fl_nonneg _ _ (now - last)%R ltac:(lra)).
      lra. }
    assert (H2 : (0 <= fl (fl (fl (now - last) / 1000) * 300))%R)
      by (apply fl_nonneg; lra).
    assert (H3 : (0 <= fl (fl (fl (fl (now - last) / 1000) * 300)
                           * animationSpeed))%R)
      by (apply fl_nonneg; now apply Rmult_le_pos).
    assert (H4 : (0 <= fl (fl (fl (fl (fl (now - last) / 1000) * 300)
                               * animationSpeed) * 1000))%R)
      by (apply fl_nonneg; lra).
    apply fl_int_ge; [lia|lra]. }
  split; [exact Hnext|].
  assert (Hanimate :
    Playback.animate animationSpeed multiShipManager c now
    = if e <? next
      then
        let tsc1 :=
          TSC.updateTime (Playback.timeSyncController c) (at_ms e) in
        ({| Playback.timeSyncController := TSC.setPlaying tsc1 false;
            Playback.animationFrame := false;
            Playback.lastAnimationTime := None |},
         Some (Playback.updateAllShipsPositions tsc1 multiShipManager
                 (at_ms e)))
      else
        let tsc1 :=
          TSC.updateTime (Playback.timeSyncController c) (at_ms next) in
        ({| Playback.timeSyncController := tsc1;
            Playback.animationFrame := true;
            Playback.lastAnimationTime := Some now |},
         Some (Playback.updateAllShipsPositions tsc1 multiShipManager
                 (at_ms next)))).
  { unfold Playback.animate. rewrite Hrun, Hlast.
    cbn [negb truthy_optR]. rewrite (truthyR_nonzero Hl0). cbn [negb].
    unfold TSC.getCurrentTime. rewrite Hcur, He.
    cbn [Playback.getTime num_add fl_num Playback.date_of_number option_map].
    fold (tick_target cur last now animationSpeed).
    destruct (Rle_dec _ _) as [_|Hno]; [|contradiction].
    fold next. unfold date_gt. cbn [date_lt]. reflexivity. }
  subst c'. rewrite Hanimate.
  destruct (Z.ltb_spec e next) as [Hpast|Hin]; cbn [fst snd Playback.timeSyncController
    Playback.animationFrame Playback.lastAnimationTime].
  - assert (Hupd : TSC.updateTime (Playback.timeSyncController c) (at_ms e)
                   = TSC.set_currentTime (Playback.timeSyncController c)
                       (Some (ValidDate e))).
    { unfold TSC.updateTime, at_ms. cbn [TSC.resolve_time].
      rewrite Hs, He. unfold date_gt. cbn [date_lt].
      destruct (Z.ltb_spec e s); [lia|].
      rewrite Z.ltb_irrefl. reflexivity. }
    rewrite Hupd. replace (Z.min next e) with e by lia.
    split; [reflexivity|]. split; [intros; lia|]. split.
    + intros _. repeat split.
      unfold TSC.isAtEnd. cbn. rewrite He. unfold date_ge. cbn [date_le].
      apply Z.leb_refl.
    + reflexivity.
  - assert (Hupd : TSC.updateTime (Playback.timeSyncController c) (at_ms next)
                   = TSC.set_currentTime (Playback.timeSyncController c)
                       (Some (ValidDate next))).
    { unfold TSC.updateTime, at_ms. cbn [TSC.resolve_time].
      rewrite Hs, He. unfold date_gt. cbn [date_lt].
      destruct (Z.ltb_spec next s); [lia|].
      destruct (Z.ltb_spec e next); [lia|]. reflexivity. }
    rewrite Hupd. replace (Z.min next e) with next by lia.
    split; [reflexivity|]. split; [|split].
    + intros _. repeat split.
    + intros; lia.
    + reflexivity.
Qed.

End AnimationFacts.

(** The target of a 16 ms frame at speed 1 from the clock value 1000 is
    near 5800. *)
Lemma tick_target_demo :
  (5799 <= tick_target (host := UtcHost.utc_host) 1000 16 32 1 <= 5801)%R.
Proof.
  pose proof utc_ieee as ieee. unfold tick_target, Playback.BASE_TIME_RATIO.
  pose proof (@fl_within _ ieee (32 - 16)%R ltac:(lra)) as H1.
  set (d := fl (32 - 16)) in *.
  pose proof (@fl_within _ ieee (d / 1000)%R ltac:(lra)) as H2.
  set (r := fl (d / 1000)) in *.
  pose proof (@fl_within _ ieee (r * 300)%R ltac:(lra)) as H3.
  set (r3 := fl (r * 300)) in *.
  pose proof (@fl_within _ ieee (r3 * 1)%R ltac:(lra)) as H4.
  set (st := fl (r3 * 1)) in *.
  pose proof (@fl_within_million _ ieee (st * 1000)%R ltac:(lra)) as H5.
  set (ms := fl (st * 1000)) in *.
  split.
  - apply (@fl_int_ge _ ieee _ 5799); [simpl; lia|lra].
  - apply (@fl_int_le _ ieee _ 5801); [simpl; lia|lra].
Qed.

Lemma animate_advances_witness :
  TSC.currentTime
    (Playback.timeSyncController
       (fst (Playback.animate (host := UtcHost.utc_host) 1
               Demo.store
               {| Playback.timeSyncController := Demo.registry;
                  Playback.animationFrame := true;
                  Playback.lastAnimationTime := Some 16%R |}
               32)))
  = Some (ValidDate
            (Z.min (Ztrunc (tick_target (host := UtcHost.utc_host) 1000 16 32 1))
                   9000)).
Proof.
  apply (@animate_advances UtcHost.utc_host utc_ieee 1%R Demo.store
           {| Playback.timeSyncController := Demo.registry;
              Playback.animationFrame := true;
              Playback.lastAnimationTime := Some 16%R |}
           32%R 16%R 1000 1000 9000 eq_refl eq_refl).
  - lra.
  - lra.
  - lra.
  - reflexivity.
  - reflexivity.
  - reflexivity.
  - lia.
  - lia.
  - pose proof tick_target_demo. apply Rabs_le. lra.
Defined.

(** ** The frame-rate monitor *)

Section MonitorFacts.
Context {host : Host}.

Lemma push_frame_skipn times maxHistory frameTime :
  (List.length times <= maxHistory)%nat ->
  PM.push_frame times maxHistory frameTime
  = skipn (List.length times + 1 - maxHistory) (times ++ [frameTime])%list.
Proof.
  intros Hlen. unfold PM.push_frame. rewrite length_app. cbn [List.length].
  destruct (Nat.ltb_spec maxHistory (List.length times + 1)).
  - replace (List.length times + 1 - maxHistory)%nat with 1%nat by lia.
    now destruct (times ++ [frameTime])%list.
  - replace (List.length times + 1 - maxHistory)%nat with 0%nat by lia.
    reflexivity.
Qed.

Lemma recordFrame_history_step m frameTime now :
  PM.isMonitoring m = true ->
  PM.frameTimes (PM.recordFrame m frameTime now)
  = PM.push_frame (PM.frameTimes m) (PM.maxFrameTimeHistory m) frameTime /\
  PM.isMonitoring (PM.recordFrame m frameTime now) = true /\
  PM.maxFrameTimeHistory (PM.recordFrame m frameTime now)
  = PM.maxFrameTimeHistory m.
Proof.
  intros Hon. unfold PM.recordFrame. rewrite Hon. cbn [negb].
  destruct (Rle_dec _ _); repeat split.
Qed.

Lemma record_all_history frames :
  forall m,
    PM.isMonitoring m = true ->
    (List.length (PM.frameTimes m) <= PM.maxFrameTimeHistory m)%nat ->
    PM.frameTimes (record_all m frames)
    = skipn (List.length (PM.frameTimes m ++ map fst frames)%list
             - PM.maxFrameTimeHistory m)
            (PM.frameTimes m ++ map fst frames)%list /\
    PM.isMonitoring (record_all m frames) = true /\
    PM.maxFrameTimeHistory (record_all m frames) = PM.maxFrameTimeHistory m.
Proof.
  induction frames as [|[frameTime now] rest IH]; intros m Hon Hlen.
  - cbn [record_all fold_left map]. rewrite app_nil_r.
    replace (List.length (PM.frameTimes m) - PM.maxFrameTimeHistory m)%nat
      with 0%nat by lia.
    repeat split. exact Hon.
  - destruct (@recordFrame_history_step m frameTime now Hon)
      as (Hft & Hon1 & Hmax1).
    rewrite (@push_frame_skipn _ _ frameTime Hlen) in Hft.
    assert (Hlen1 : (List.length (PM.frameTimes (PM.recordFrame m frameTime now))
                     <= PM.maxFrameTimeHistory (PM.recordFrame m frameTime now))%nat).
    { rewrite Hft, Hmax1, length_skipn, length_app. cbn [List.length]. lia. }
    destruct (IH _ Hon1 Hlen1) as (Hft' & Hon' & Hmax').
    change (record_all m ((frameTime, now) :: rest))
      with (record_all (PM.recordFrame m frameTime now) rest).
    split; [|split; [exact Hon'|congruence]].
    rewrite Hft', Hmax1, Hft. cbn [map fst].
    replace (PM.frameTimes m ++ frameTime :: map fst rest)%list
      with ((PM.frameTimes m ++ [frameTime]) ++ map fst rest)%list
      by (now rewrite <- app_assoc).
    set (L := (PM.frameTimes m ++ [frameTime])%list).
    set (k := (List.length (PM.frameTimes m) + 1 - PM.maxFrameTimeHistory m)%nat).
    assert (HL : List.length L = (List.length (PM.frameTimes m) + 1)%nat).
    { subst L. rewrite length_app. reflexivity. }
    assert (Hk : (skipn k L ++ map fst rest)%list
                 = skipn k (L ++ map fst rest)%list).
    { rewrite skipn_app.
      replace (k - List.length L)%nat with 0%nat by lia. reflexivity. }
    rewrite Hk, skipn_skipn. f_equal.
    rewrite length_skipn, !length_app. lia.
Qed.

Lemma record_all_stopped m frames : record_all (PM.stop m) frames = PM.stop m.
Proof.
  induction frames as [|[frameTime now] rest IH]; [reflexivity|].
  exact IH.
Qed.

(** X18.  After [start], the monitor keeps the frame times of the last
    [maxFrameTimeHistory] calls of [recordFrame] (60 for a monitor as the
    constructor makes it), oldest first, and never more; it stays on.  A
    stopped monitor ignores every call. *)
Theorem recordFrame_history :
  forall m now0 frames,
    PM.frameTimes (record_all (PM.start m now0) frames)
    = skipn (List.length frames - PM.maxFrameTimeHistory m) (map fst frames) /\
    (List.length (PM.frameTimes (record_all (PM.start m now0) frames))
     <= PM.maxFrameTimeHistory m)%nat /\
    PM.isMonitoring (record_all (PM.start m now0) frames) = true /\
    (forall t0,
       PM.frameTimes (record_all (PM.start (PM.create t0) now0) frames)
       = skipn (List.length frames - 60) (map fst frames)) /\
    record_all (PM.stop m) frames = PM.stop m.
Proof.
  intros m now0 frames.
  assert (Hstart : forall m0,
    PM.frameTimes (record_all (PM.start m0 now0) frames)
    = skipn (List.length frames - PM.maxFrameTimeHistory m0) (map fst frames) /\
    PM.isMonitoring (record_all (PM.start m0 now0) frames) = true).
  { intros m0.
    destruct (@record_all_history frames (PM.start m0 now0) eq_refl)
      as (Hft & Hon & _); [cbn; lia|].
    cbn [PM.start PM.frameTimes PM.maxFrameTimeHistory app] in Hft.
    rewrite length_map in Hft. split; [exact Hft|exact Hon]. }
  destruct (Hstart m) as [Hft Hon].
  split; [exact Hft|]. split; [|split; [exact Hon|split]].
  - rewrite Hft, length_skipn, length_map. lia.
  - intros t0. exact (proj1 (Hstart (PM.create t0))).
  - apply record_all_stopped.
Qed.

Open Scope R_scope.

Lemma fold_Rmin_spec r :
  forall x,
    fold_left Rmin r x <= x /\
    (forall y, In y r -> fold_left Rmin r x <= y) /\
    In (fold_left Rmin r x) (x :: r).
Proof.
  induction r as [|z r IH]; intros x; cbn [fold_left].
  - split; [lra|]. split; [intros y []|now left].
  - destruct (IH (Rmin x z)) as (Hle & Hall & Hin).
    pose proof (Rmin_l x z). pose proof (Rmin_r x z).
    split; [lra|]. split.
    + intros y [<-|Hy]; [lra|now apply Hall].
    + destruct Hin as [Hin|Hin]; [|now right; right].
      rewrite <- Hin. unfold Rmin. destruct (Rle_dec x z); [now left|right; now left].
Qed.

Lemma fold_Rmax_spec r :
  forall x,
    x <= fold_left Rmax r x /\
    (forall y, In y r -> y <= fold_left Rmax r x) /\
    In (fold_left Rmax r x) (x :: r).
Proof.
  induction r as [|z r IH]; intros x; cbn [fold_left].
  - split; [lra|]. split; [intros y []|now left].
  - destruct (IH (Rmax x z)) as (Hle & Hall & Hin).
    pose proof (Rmax_l x z). pose proof (Rmax_r x z).
    split; [lra|]. split.
    + intros y [<-|Hy]; [lra|now apply Hall].
    + destruct Hin as [Hin|Hin]; [|now right; right].
      rewrite <- Hin. unfold Rmax. destruct (Rle_dec x z); [right; now left|now left].
Qed.

(** X19.  The least and the greatest frame time of [getStats]: both are 0,
    like the average, for an empty history; for a history that is not
    empty they are there exactly when the engine takes the history as the
    arguments of one call, and then they are frame times of the history,
    the least not above the greatest, that bound all the others. *)
Theorem getStats_frame_times :
  forall m,
    (PM.frameTimes m = [] ->
     PM.minFrameTime m = Some 0 /\ PM.maxFrameTime m = Some 0 /\
     PM.avgFrameTime m = 0) /\
    (PM.frameTimes m <> [] ->
     (PM.minFrameTime m = None <->
      spreadable (List.length (PM.frameTimes m)) = false) /\
     (PM.maxFrameTime m = None <->
      spreadable (List.length (PM.frameTimes m)) = false)) /\
    (forall lo hi x,
       PM.minFrameTime m = Some lo ->
       PM.maxFrameTime m = Some hi ->
       In x (PM.frameTimes m) ->
       In lo (PM.frameTimes m) /\ In hi (PM.frameTimes m) /\
       lo <= x <= hi /\ lo <= hi).
Proof.
  intros m. unfold PM.minFrameTime, PM.maxFrameTime, PM.avgFrameTime.
  destruct (PM.frameTimes m) as [|x0 r] eqn:E.
  - split; [intros _; repeat split|]. split; [intros H; now elim H|].
    intros lo hi x _ _ [].
  - split; [discriminate|]. split.
    + intros _. destruct (spreadable _); split; split; congruence.
    + intros lo hi x Hlo Hhi Hx.
      destruct (spreadable _); [|discriminate].
      injection Hlo as <-. injection Hhi as <-.
      destruct (fold_Rmin_spec r x0) as (Hlo0 & Hlo & Hloin).
      destruct (fold_Rmax_spec r x0) as (Hhi0 & Hhi & Hhiin).
      split; [exact Hloin|]. split; [exact Hhiin|].
      assert (fold_left Rmin r x0 <= x <= fold_left Rmax r x0).
      { destruct Hx as [<-|Hx]; [lra|].
        split; [now apply Hlo|now apply Hhi]. }
      split; [assumption|lra].
Qed.

Close Scope R_scope.

Lemma recordFrame_statistics_step count m frameTime now :
  statistics_ok count m ->
  statistics_ok (count + 1) (PM.recordFrame m frameTime now).
Proof.
  intros (Hon & Hfc & Htf & Hcount & Hrates).
  unfold PM.recordFrame. rewrite Hon. cbn [negb].
  destruct (Rle_dec 1000 (fl (now - PM.lastFpsUpdate m))) as [Hel|Hel].
  - set (c := fl (IZR (PM.frameCount m + 1)
                  / fl (fl (now - PM.lastFpsUpdate m) / 1000))).
    unfold statistics_ok.
    cbn [PM.isMonitoring PM.frameCount PM.stats PM.totalFrames PM.totalTime
         PM.lastFpsUpdate PM.minFps PM.maxFps PM.avgFps PM.fps].
    split; [reflexivity|]. split; [lia|]. split; [lia|]. split; [lia|].
    destruct (PM.minFps (PM.stats m)) as [lo|] eqn:Emin.
    + destruct Hrates as (Hone & Hfps).
      destruct (Rlt_dec c lo), (Rlt_dec (PM.maxFps (PM.stats m)) c);
        (split; [lia|lra]).
    + destruct (Rlt_dec (PM.maxFps (PM.stats m)) c); (split; [lia|lra]).
  - unfold statistics_ok.
    cbn [PM.isMonitoring PM.frameCount PM.stats PM.lastFpsUpdate PM.fps].
    split; [reflexivity|]. split; [lia|]. split; [exact Htf|].
    split; [lia|exact Hrates].
Qed.

(** X20.  The books of the monitor are kept through every run of
    [recordFrame] after [start]: each recorded frame is counted once, in
    the running counter or in the statistics; until the rate is first
    updated the statistics are those of the start; from then on at least
    one frame is in them and the present rate lies between the lowest and
    the highest rate. *)
Theorem recordFrame_statistics :
  forall m now0 frames,
    statistics_ok (Z.of_nat (List.length frames))
      (record_all (PM.start m now0) frames).
Proof.
  intros m now0 frames.
  assert (Hgen : forall frames m0 count,
            statistics_ok count m0 ->
            statistics_ok (count + Z.of_nat (List.length frames))
              (record_all m0 frames)).
  { clear. induction frames as [|[frameTime now] rest IH]; intros m0 count H.
    - cbn [List.length record_all fold_left Z.of_nat].
      now rewrite Z.add_0_r.
    - change (record_all m0 ((frameTime, now) :: rest))
        with (record_all (PM.recordFrame m0 frameTime now) rest).
      replace (count + Z.of_nat (List.length ((frameTime, now) :: rest)))%Z
        with (count + 1 + Z.of_nat (List.length rest))%Z
        by (cbn [List.length]; lia).
      apply IH. now apply recordFrame_statistics_step. }
  apply (Hgen frames (PM.start m now0) 0%Z).
  unfold statistics_ok, PM.start.
  cbn [PM.isMonitoring PM.frameCount PM.stats PM.fresh_stats
       PM.totalFrames PM.minFps].
  repeat split; lia.
Qed.

End MonitorFacts.

Lemma recordFrame_history_witness :
  PM.frameTimes
    (record_all (host := UtcHost.utc_host) (PM.start (PM.create 0) 0)
       [(16%R, 20%R); (17%R, 40%R)])
  = skipn (2 - 60) (map fst [(16%R, 20%R); (17%R, 40%R)]).
Proof.
  apply (proj1 (proj2 (proj2 (proj2
    (@recordFrame_history UtcHost.utc_host (PM.create 0) 0%R
       [(16%R, 20%R); (17%R, 40%R)]))))).
Defined.

Lemma getStats_frame_times_witness :
  exists lo hi,
    PM.minFrameTime (host := UtcHost.utc_host)
      (record_all (host := UtcHost.utc_host) (PM.start (PM.create 0) 0)
         [(16, 20); (17, 40)]%R) = Some lo /\
    PM.maxFrameTime (host := UtcHost.utc_host)
      (record_all (host := UtcHost.utc_host) (PM.start (PM.create 0) 0)
         [(16, 20); (17, 40)]%R) = Some hi /\
    (lo <= 17 <= hi)%R.
Proof.
  pose proof (proj1 (@record_all_history UtcHost.utc_host
                       [(16, 20); (17, 40)]%R
                       (PM.start (PM.create 0) 0) eq_refl
                       ltac:(cbn; lia))) as Hft.
  cbn [PM.start PM.create PM.frameTimes PM.maxFrameTimeHistory app map fst
       List.length Nat.sub skipn] in Hft.
  eexists. eexists.
  assert (Hlo : PM.minFrameTime (host := UtcHost.utc_host)
                  (record_all (host := UtcHost.utc_host)
                     (PM.start (PM.create 0) 0) [(16, 20); (17, 40)]%R)
                = Some (fold_left Rmin [17%R] 16%R)).
  { unfold PM.minFrameTime. rewrite Hft. reflexivity. }
  assert (Hhi : PM.maxFrameTime (host := UtcHost.utc_host)
                  (record_all (host := UtcHost.utc_host)
                     (PM.start (PM.create 0) 0) [(16, 20); (17, 40)]%R)
                = Some (fold_left Rmax [17%R] 16%R)).
  { unfold PM.maxFrameTime. rewrite Hft. reflexivity. }
  split; [exact Hlo|]. split; [exact Hhi|].
  apply (proj2 (proj2 (@getStats_frame_times UtcHost.utc_host
                         (record_all (host := UtcHost.utc_host)
                            (PM.start (PM.create 0) 0)
                            [(16, 20); (17, 40)]%R)))
           _ _ 17%R Hlo Hhi).
  rewrite Hft. right. now left.
Defined.

(** ** The component's interpolation of a single track *)

Open Scope R_scope.

Lemma clamp_cases p :
  exists q,
    math_max (Fin 0) (math_min (Fin 1) (Fin p)) = Fin q /\
    0 <= q <= 1 /\
    (p <= 0 -> q = 0) /\ (1 <= p -> q = 1) /\ (0 <= p <= 1 -> q = p).
Proof.
  unfold math_max, math_min. destruct (Rle_dec 1 p).
  - exists 1. destruct (Rle_dec 0 1); [|lra].
    repeat split; intros; lra.
  - destruct (Rle_dec 0 p).
    + exists p. repeat split; intros; lra.
    + exists 0. repeat split; intros; lra.
Qed.

Section TrackFacts.
Context {host : Host} {ieee : IEEE754 host}.

(** The sum in the middle is at least zero, also after rounding, so the
    outer remainder is in [0, 360). *)
Lemma double_rem_range x : 0 <= js_rem (fl (js_rem x 360 + 360)) 360 < 360.
Proof.
  apply js_rem_range; [|lra]. apply fl_nonneg.
  pose proof (@js_rem_bounds x 360 ltac:(lra)). lra.
Qed.

(** X21.  The component's [interpolatePosition] on two records and a
    finite progress [p] builds a new object whose [lon] repeats [lng] and
    whose [cog] repeats [hdg]; the heading is a number in [0, 360); with
    [q] the progress cut to [0, 1], finite coordinates are interpolated at
    [q] as the host computes it, rounded to six decimals and read back;
    for coordinates of at most 1000 in absolute value the result is
    within 10^-6 of the exact interpolation at [q]; and when both records
    carry a heading in [0, 360] that is not zero, the heading returned is
    the first heading turned by [q] times a difference of at most 180
    degrees either way, brought into [0, 360); the difference is the one
    the host computes between the two headings, less 360 when it is above
    180 and plus 360 when it is below -180. *)
Theorem track_interpolatePosition :
  forall (point1 point2 : Playback.TrackPoint) (p : R),
  exists r q,
    Playback.interpolatePosition (Some point1) (Some point2) (Fin p)
    = Playback.Between r /\
    0 <= q <= 1 /\
    (p <= 0 -> q = 0) /\ (1 <= p -> q = 1) /\ (0 <= p <= 1 -> q = p) /\
    Playback.Ip.lon r = Playback.Ip.lng r /\
    Playback.Ip.cog r = Playback.Ip.hdg r /\
    (exists h, Playback.Ip.hdg r = Fin h /\ 0 <= h < 360) /\
    (forall x1 x2,
       Playback.Tp.lng point1 = Fin x1 -> Playback.Tp.lng point2 = Fin x2 ->
       Playback.Ip.lng r = Fin (to_fixed6 (lerp x1 x2 q)) /\
       (-1000 <= x1 <= 1000 -> -1000 <= x2 <= 1000 ->
        Rabs (to_fixed6 (lerp x1 x2 q) - (x1 + (x2 - x1) * q)) <= / 1000000)) /\
    (forall y1 y2,
       Playback.Tp.lat point1 = Fin y1 -> Playback.Tp.lat point2 = Fin y2 ->
       Playback.Ip.lat r = Fin (to_fixed6 (lerp y1 y2 q)) /\
       (-1000 <= y1 <= 1000 -> -1000 <= y2 <= 1000 ->
        Rabs (to_fixed6 (lerp y1 y2 q) - (y1 + (y2 - y1) * q)) <= / 1000000)) /\
    (forall h1 h2,
       Playback.Tp.hdg point1 = Some h1 -> h1 <> 0 -> 0 <= h1 <= 360 ->
       Playback.Tp.hdg point2 = Some h2 -> h2 <> 0 -> 0 <= h2 <= 360 ->
       exists diff,
         -180 <= diff <= 180 /\
         (let d := fl (h2 - h1) in
          (180 < d -> diff = fl (d - 360)) /\
          (d < -180 -> diff = fl (d + 360)) /\
          (-180 <= d <= 180 -> diff = d)) /\
         Playback.Ip.hdg r
         = Playback.normalizedHdg (Fin (fl (h1 + fl (diff * q))))).
Proof.
  intros point1 point2 p.
  destruct (clamp_cases p) as (q & Hq & Hrange & Hlow & Hhigh & Hmid).
  unfold Playback.interpolatePosition. rewrite Hq.
  eexists. exists q. split; [reflexivity|].
  cbn [Playback.Ip.lon Playback.Ip.lng Playback.Ip.lat Playback.Ip.cog
       Playback.Ip.hdg num_add num_mul fl_num].
  split; [exact Hrange|]. split; [exact Hlow|]. split; [exact Hhigh|].
  split; [exact Hmid|]. split; [reflexivity|]. split; [reflexivity|].
  split.
  { unfold Playback.normalizedHdg. eexists.
    split; [reflexivity|apply double_rem_range]. }
  split; [|split].
  - intros x1 x2 -> ->. split; [reflexivity|].
    intros H1 H2.
    apply (@lerp_close host ieee x1 x2 q q H1 H2 Hrange Hrange).
    replace (q - q) with 0 by ring. lra.
  - intros y1 y2 -> ->. split; [reflexivity|].
    intros H1 H2.
    apply (@lerp_close host ieee y1 y2 q q H1 H2 Hrange Hrange).
    replace (q - q) with 0 by ring. lra.
  - intros h1 h2 H1 N1 B1 H2 N2 B2.
    rewrite H2. cbn [truthy_optR]. rewrite (truthyR_nonzero N2).
    unfold or0. rewrite H1. cbn [truthy_optR]. rewrite (truthyR_nonzero N1).
    assert (Hd0 : -360 <= fl (h2 - h1) <= 360).
    { split.
      - apply (@fl_int_ge _ _ _ (-360)); [simpl; lia|lra].
      - apply (@fl_int_le _ _ _ 360); [simpl; lia|lra]. }
    set (d0 := fl (h2 - h1)) in *.
    destruct (Rlt_dec 180 d0) as [Hbig|Hbig].
    + assert (Hd1 : -180 <= fl (d0 - 360) <= 0).
      { split.
        - apply (@fl_int_ge _ _ _ (-180)); [simpl; lia|lra].
        - apply (@fl_int_le _ _ _ 0); [simpl; lia|lra]. }
      destruct (Rlt_dec (fl (d0 - 360)) (-180)); [lra|].
      exists (fl (d0 - 360)). split; [lra|split; [|reflexivity]].
      cbv zeta. repeat split; intros; try reflexivity; exfalso; lra.
    + destruct (Rlt_dec d0 (-180)) as [Hsmall|Hsmall].
      * assert (Hd1 : 0 <= fl (d0 + 360) <= 180).
        { split.
          - apply (@fl_int_ge _ _ _ 0); [simpl; lia|lra].
          - apply (@fl_int_le _ _ _ 180); [simpl; lia|lra]. }
        exists (fl (d0 + 360)). split; [lra|split; [|reflexivity]].
        cbv zeta. repeat split; intros; try reflexivity; exfalso; lra.
      * exists d0. split; [lra|split].
        -- cbv zeta. repeat split; intros; try reflexivity; exfalso; lra.
        -- destruct (Rlt_dec d0 (-180)); [lra|reflexivity].
Qed.

End TrackFacts.

Close Scope R_scope.

Lemma track_interpolatePosition_witness :
  exists r q,
    Playback.interpolatePosition (host := UtcHost.utc_host)
      (Some Demo.track_a) (Some Demo.track_b) (Fin (1 / 2))
    = Playback.Between r /\
    (q = 1 / 2)%R /\
    exists diff,
      (-180 <= diff <= 180)%R /\
      Playback.Ip.hdg r
      = Playback.normalizedHdg (host := UtcHost.utc_host)
          (Fin (fl (Host := UtcHost.utc_host)
                  (350 + fl (Host := UtcHost.utc_host) (diff * q)))).
Proof.
  destruct (@track_interpolatePosition UtcHost.utc_host utc_ieee
              Demo.track_a Demo.track_b (1 / 2))
    as (r & q & Hr & _ & _ & _ & Hq & _ & _ & _ & _ & _ & Hh).
  exists r, q. split; [exact Hr|]. split; [apply Hq; lra|].
  destruct (Hh 350%R 10%R eq_refl ltac:(lra) ltac:(lra) eq_refl ltac:(lra)
              ltac:(lra))
    as (diff & Hhalf & _ & Hhdg).
  exists diff. split; [exact Hhalf|exact Hhdg].
Defined.

(** ** The time slider *)

Section SliderFacts.
Context {host : Host} {ieee : IEEE754 host}.

(** On a range of at most 9 * 10^13 ms between two time values, the time
    value the slider asks for stays in the range. *)
Lemma slider_target_range a b v :
  a <= b -> b - a <= 90000000000000 ->
  - 8640000000000000 <= a -> b <= 8640000000000000 ->
  (0 <= v <= 100)%R ->
  (IZR a <= slider_target a b v <= IZR b)%R /\
  (v = 0%R -> slider_target a b v = IZR a) /\
  (v = 100%R -> slider_target a b v = IZR b).
Proof.
  intros Hab Hspan Hlo Hhi Hv. unfold slider_target.
  rewrite (fl_integer (b - a)) by lia.
  assert (Hd : (0 <= IZR (b - a))%R) by (apply IZR_le; lia).
  assert (Hb : (IZR a + IZR (b - a) = IZR b)%R) by (rewrite minus_IZR; ring).
  assert (Hp : (0 <= fl (IZR (b - a) * v)
                <= IZR (100 * (b - a)))%R).
  { split.
    - apply fl_nonneg. apply Rmult_le_pos; lra.
    - apply fl_int_le; [lia|]. rewrite mult_IZR. nra. }
  assert (Hq : (0 <= fl (fl (IZR (b - a) * v) / 100) <= IZR (b - a))%R).
  { split.
    - apply fl_nonneg. lra.
    - apply fl_int_le; [lia|]. rewrite mult_IZR in Hp. lra. }
  split; [|split].
  - split.
    + apply fl_int_ge; [lia|lra].
    + apply fl_int_le; [lia|lra].
  - intros ->. rewrite Rmult_0_r, fl_0.
    replace (0 / 100)%R with 0%R by field. rewrite fl_0, Rplus_0_r.
    apply fl_integer. lia.
  - intros ->.
    replace (IZR (b - a) * 100)%R with (IZR (100 * (b - a)))
      by (rewrite mult_IZR; ring).
    rewrite (fl_integer (100 * (b - a))) by lia.
    replace (IZR (100 * (b - a)) / 100)%R with (IZR (b - a))
      by (rewrite mult_IZR; field).
    rewrite (fl_integer (b - a)) by lia. rewrite Hb.
    apply fl_integer. lia.
Qed.

(** X22.  Moving the time slider on the unified time axis: with a range
    whose two ends parse to the time values [a <= b], at most 9 * 10^13 ms
    apart, and a slider value [v] in [0, 100], the time asked for is [t],
    the time value the host computes for [a + (b - a) * v / 100]
    ([slider_target]) truncated to a whole millisecond; it lies in
    [a, b], is [a] for 0 and [b] for 100; the registry's clock is set to
    [t] clamped into the registry's own range [s, e]; the loop is stopped:
    no pending frame, no previous frame time, [isPlaying] false; and the
    snapshot is the one of [t]. *)
Theorem handleTimeSliderChange_jumps :
  forall multiShipManager c globalTimeRange start_time end_time a b v s e,
    Playback.start_time globalTimeRange = Some start_time ->
    Playback.end_time globalTimeRange = Some end_time ->
    truthy_time (Some start_time) = true ->
    truthy_time (Some end_time) = true ->
    Playback.date_of start_time = ValidDate a ->
    Playback.date_of end_time = ValidDate b ->
    a <= b -> b - a <= 90000000000000 ->
    - 8640000000000000 <= a -> b <= 8640000000000000 ->
    (0 <= v <= 100)%R ->
    TSC.globalStartTime (Playback.timeSyncController c) = Some (ValidDate s) ->
    TSC.globalEndTime (Playback.timeSyncController c) = Some (ValidDate e) ->
    s <= e ->
    let t := Ztrunc (slider_target a b v) in
    let c' := fst (Playback.handleTimeSliderChange multiShipManager c
                     globalTimeRange (Fin v)) in
    a <= t <= b /\
    (v = 0%R -> t = a) /\ (v = 100%R -> t = b) /\
    TSC.currentTime (Playback.timeSyncController c')
    = Some (ValidDate (Z.max s (Z.min t e))) /\
    TSC.isPlaying (Playback.timeSyncController c') = false /\
    Playback.animationFrame c' = false /\
    Playback.lastAnimationTime c' = None /\
    snd (Playback.handleTimeSliderChange multiShipManager c
           globalTimeRange (Fin v))
    = Some (Playback.updateAllShipsPositions (Playback.timeSyncController c')
              multiShipManager (at_ms t)).
Proof.
  intros multiShipManager c globalTimeRange start_time end_time a b v s e
         Hst Hen Tst Ten Da Db Hab Hspan Hlo Hhi Hv Hs He Hse t c'.
  destruct (slider_target_range Hab Hspan Hlo Hhi Hv)
    as (Hbetween & Hzero & Hfull).
  assert (Hta : a <= t) by (apply Ztrunc_above; lra).
  assert (Htb : t <= b) by (apply Ztrunc_below; lra).
  split; [lia|]. split; [|split].
  { intros Hv0. subst t. rewrite (Hzero Hv0). apply Ztrunc_IZR. }
  { intros Hv1. subst t. rewrite (Hfull Hv1). apply Ztrunc_IZR. }
  assert (Hfit : (Rabs (slider_target a b v) <= 8640000000000000)%R).
  { apply IZR_le in Hlo. apply IZR_le in Hhi.
    apply Rabs_le. lra. }
  assert (Hcall :
    Playback.handleTimeSliderChange multiShipManager c globalTimeRange (Fin v)
    = let tsc1 :=
        TSC.updateTime (TSC.setPlaying (Playback.timeSyncController c) false)
          (at_ms t) in
      ({| Playback.timeSyncController := tsc1;
          Playback.animationFrame := false;
          Playback.lastAnimationTime := None |},
       Some (Playback.updateAllShipsPositions tsc1 multiShipManager (at_ms t)))).
  { unfold Playback.handleTimeSliderChange. rewrite Hst, Hen, Tst, Ten, Da, Db.
    cbn [andb date_sub Playback.num_of_diff Playback.getTime num_mul num_add
         fl_num Playback.date_of_number].
    fold (slider_target a b v).
    destruct (Rle_dec _ _) as [_|Hno]; [|contradiction].
    reflexivity. }
  subst c'. rewrite Hcall.
  cbn [fst snd Playback.timeSyncController Playback.animationFrame
       Playback.lastAnimationTime].
  assert (Hupd :
    TSC.updateTime (TSC.setPlaying (Playback.timeSyncController c) false)
      (at_ms t)
    = TSC.set_currentTime
        (TSC.setPlaying (Playback.timeSyncController c) false)
        (Some (ValidDate (Z.max s (Z.min t e))))).
  { unfold TSC.updateTime, at_ms. cbn [TSC.resolve_time].
    cbn [TSC.setPlaying TSC.globalStartTime TSC.globalEndTime].
    rewrite Hs, He. unfold date_gt. cbn [date_lt].
    destruct (Z.ltb_spec t s).
    - replace (Z.max s (Z.min t e)) with s by lia. reflexivity.
    - destruct (Z.ltb_spec e t).
      + replace (Z.max s (Z.min t e)) with e by lia. reflexivity.
      + replace (Z.max s (Z.min t e)) with t by lia. reflexivity. }
  rewrite Hupd. repeat split.
Qed.

End SliderFacts.

Lemma handleTimeSliderChange_jumps_witness :
  TSC.currentTime
    (Playback.timeSyncController
       (fst (Playback.handleTimeSliderChange (host := UtcHost.utc_host)
               Demo.store
               {| Playback.timeSyncController := Demo.registry;
                  Playback.animationFrame := true;
                  Playback.lastAnimationTime := Some 16%R |}
               Demo.range (Fin 50))))
  = Some (ValidDate
            (Z.max 1000
               (Z.min (Ztrunc (slider_target (host := UtcHost.utc_host)
                                 1000 9000 50))
                      9000))).
Proof.
  apply (@handleTimeSliderChange_jumps UtcHost.utc_host utc_ieee Demo.store
           {| Playback.timeSyncController := Demo.registry;
              Playback.animationFrame := true;
              Playback.lastAnimationTime := Some 16%R |}
           Demo.range (TDate (ValidDate 1000)) (TDate (ValidDate 9000))
           1000 9000 50%R 1000 9000
           eq_refl eq_refl eq_refl eq_refl eq_refl eq_refl).
  - lia.
  - lia.
  - lia.
  - lia.
  - lra.
  - reflexivity.
  - reflexivity.
  - lia.
Defined.

(** ** The ids of the store *)

Section StoreIdFacts.
Context {host : Host}.

Lemma addShip_keys st mmsi p0 ps k :
  In k (SMap.keys (ships (addShip st mmsi (Some (p0 :: ps)))))
  <-> (k = mmsi /\ mmsi <> "") \/ In k (SMap.keys (ships st)).
Proof.
  unfold addShip. destruct (String.eqb_spec mmsi "") as [->|Hne].
  - split; [now right|]. intros [[_ Hne]|H]; [now contradiction Hne|exact H].
  - destruct (getShipColor _ _) as [c colors']. cbn [ships].
    rewrite smap_keys_set. split.
    + intros [->|H]; [left; split; [reflexivity|exact Hne]|now right].
    + intros [[-> _]|H]; [now left|now right].
Qed.

Lemma add_all_keys entries :
  forall st k,
    In k (SMap.keys (ships (add_all entries st)))
    <-> In k (SMap.keys (ships st)) \/
        (k <> "" /\ exists p ps, In (k, Some (p :: ps)) entries).
Proof.
  induction entries as [|[mmsi d] rest IH]; intros st k; cbn [add_all].
  - split; [now left|]. intros [H|(_ & p & ps & [])]. exact H.
  - destruct d as [[|p0 ps0]|].
    + rewrite IH. split.
      * intros [H|(Hne & p & ps & Hin)]; [now left|].
        right. split; [exact Hne|]. exists p, ps. now right.
      * intros [H|(Hne & p & ps & [Heq|Hin])]; [now left|discriminate|].
        right. split; [exact Hne|]. now exists p, ps.
    + rewrite IH, addShip_keys. split.
      * intros [[[-> Hne]|H]|(Hne & p & ps & Hin)].
        -- right. split; [exact Hne|]. exists p0, ps0. now left.
        -- now left.
        -- right. split; [exact Hne|]. exists p, ps. now right.
      * intros [H|(Hne & p & ps & [Heq|Hin])].
        -- left. now right.
        -- injection Heq as -> -> ->. left. left. split; [reflexivity|exact Hne].
        -- right. split; [exact Hne|]. now exists p, ps.
    + rewrite IH. split.
      * intros [H|(Hne & p & ps & Hin)]; [now left|].
        right. split; [exact Hne|]. exists p, ps. now right.
      * intros [H|(Hne & p & ps & [Heq|Hin])]; [now left|discriminate|].
        right. split; [exact Hne|]. now exists p, ps.
Qed.

(** X23.  After [initializeShips] the ids of the store are, each once, the
    non-empty ids of the groups that have a non-empty [data] array, and
    they are the ids for which [getShip] has a record. *)
Theorem getAllShipIds_loaded :
  forall colors shipGroups,
    NoDup (getAllShipIds (initializeShips colors shipGroups)) /\
    forall mmsi,
      (In mmsi (getAllShipIds (initializeShips colors shipGroups))
       <-> mmsi <> "" /\ exists p ps, In (mmsi, Some (p :: ps)) shipGroups) /\
      (In mmsi (getAllShipIds (initializeShips colors shipGroups))
       <-> getShip (initializeShips colors shipGroups) mmsi <> None).
Proof.
  intros colors shipGroups. unfold getAllShipIds, getShip. split.
  - apply add_all_NoDup. constructor.
  - intros mmsi. split.
    + unfold initializeShips. rewrite add_all_keys. cbn [ships SMap.keys map].
      split; [intros [[]|H]; exact H|now right].
    + rewrite smap_get_keys. split.
      * intros [v Hv]. congruence.
      * destruct (SMap.get _ mmsi) as [v|]; [now exists v|congruence].
Qed.

End StoreIdFacts.
